(** * WiFiConfigModal: the Direct AP provisioning client

    A shallow embedding of the protocol core of [src/WiFiConfigModal.js]
    (the timeout-bounded fetch wrapper, the release operation, the scan and
    the configure callbacks, the close handler and the unmount effect) and
    the properties of its specification.

    Modelling conventions.
    - A JavaScript string of Unicode text is a [string] that holds its
      UTF-8 encoding, one byte per [ascii].
    - A JavaScript number that the code reads is an integer ([Z]): the HTTP
      status, the [rssi] of a network, a delay in milliseconds.
    - A JSON object is a record of the fields the code reads, each optional
      ([None] stands for a field that is absent, [undefined] or [null]);
      a field that is present has the type of the device contract. The
      [rssi] of a network keeps [undefined] and [null] apart, since the
      comparisons of the list item tell them apart.
    - The component is a record [State] of its refs and of its React state;
      a setter updates the record at once, and a callback reads the values
      of the current render.
    - The environment is a [World]: the component, the table of pending
      timers, and the log of what the component did to the outside (alerts,
      HTTP requests, timers set and cleared, callbacks called, [onClose]).
      Console output is not part of the model.
    - An [async] function is cut at its [await]: a [_begin] part runs up to
      the outstanding request, a [_resume] part runs from its settlement. *)

From Stdlib Require Import ZArith List String Ascii Bool Lia.
From Stdlib Require Import Permutation Sorted DecimalString.
Import ListNotations.

Local Open Scope Z_scope.
Local Open Scope string_scope.
Local Open Scope list_scope.

(** ** JavaScript values *)

Module JS.

(** The code points that [String.prototype.trim] strips are the white
    space and the line terminators of ECMAScript. In UTF-8 they take one
    byte (TAB, LF, VT, FF, CR, SP), two bytes (U+00A0) or three bytes
    (U+1680, U+2000 to U+200A, U+2028, U+2029, U+202F, U+205F, U+3000 and
    U+FEFF). *)
Definition isWhiteSpace (c : ascii) : bool :=
  match N_of_ascii c with
  | 9%N | 10%N | 11%N | 12%N | 13%N | 32%N => true
  | _ => false
  end.

(** U+00A0 is [C2 A0]. *)
Definition isWhiteSpace2 (c1 c2 : ascii) : bool :=
  ((N_of_ascii c1 =? 194) && (N_of_ascii c2 =? 160))%N.

(** U+1680 is [E1 9A 80]; U+2000 to U+200A are [E2 80 80] to [E2 80 8A];
    U+2028, U+2029 and U+202F are [E2 80 A8], [E2 80 A9] and [E2 80 AF];
    U+205F is [E2 81 9F]; U+3000 is [E3 80 80]; U+FEFF is [EF BB BF]. *)
Definition isWhiteSpace3 (c1 c2 c3 : ascii) : bool :=
  let b1 := N_of_ascii c1 in
  let b2 := N_of_ascii c2 in
  let b3 := N_of_ascii c3 in
  ((b1 =? 225) && (b2 =? 154) && (b3 =? 128) ||
   (b1 =? 226) && (b2 =? 128) &&
     ((128 <=? b3) && (b3 <=? 138) || (b3 =? 168) || (b3 =? 169) || (b3 =? 175)) ||
   (b1 =? 226) && (b2 =? 129) && (b3 =? 159) ||
   (b1 =? 227) && (b2 =? 128) && (b3 =? 128) ||
   (b1 =? 239) && (b2 =? 187) && (b3 =? 191))%N.

Fixpoint trimStart (s : string) : string :=
  match s with
  | EmptyString => EmptyString
  | String c1 r1 =>
      if isWhiteSpace c1 then trimStart r1
      else
        match r1 with
        | EmptyString => s
        | String c2 r2 =>
            if isWhiteSpace2 c1 c2 then trimStart r2
            else
              match r2 with
              | EmptyString => s
              | String c3 r3 => if isWhiteSpace3 c1 c2 c3 then trimStart r3 else s
              end
        end
  end.

(** A string made of white space only (the empty string included). *)
Fixpoint blank (s : string) : bool :=
  match s with
  | EmptyString => true
  | String c1 r1 =>
      if isWhiteSpace c1 then blank r1
      else
        match r1 with
        | EmptyString => false
        | String c2 r2 =>
            if isWhiteSpace2 c1 c2 then blank r2
            else
              match r2 with
              | EmptyString => false
              | String c3 r3 => isWhiteSpace3 c1 c2 c3 && blank r3
              end
        end
  end.

(** The string without the white space at its end: it is cut where what
    remains is white space only. *)
Fixpoint trimEnd (s : string) : string :=
  match s with
  | EmptyString => EmptyString
  | String c r => if blank s then EmptyString else String c (trimEnd r)
  end.

(** [String.prototype.trim] *)
Definition trim (s : string) : string := trimEnd (trimStart s).

(** Truthiness of an optional string: absent and [''] are falsy. *)
Definition truthy (o : option string) : bool :=
  match o with
  | Some s => negb (s =? "")%string
  | None => false
  end.

(** [a || b] on optional strings, with a string default. *)
Definition orString (o : option string) (d : string) : string :=
  match o with
  | Some s => if (s =? "")%string then d else s
  | None => d
  end.

(** The value of a number field of a JSON object: the field is absent
    ([undefined]), it is [null], or it holds a number. *)
Inductive NumberField : Type :=
| Undefined
| Null
| Number (z : Z).

(** [a || b] on a number field, with a number default: [undefined],
    [null] and [0] are falsy. *)
Definition orNumber (v : NumberField) (d : Z) : Z :=
  match v with
  | Number z => if (z =? 0)%Z then d else z
  | Undefined | Null => d
  end.

(** [ToNumber], as a comparison applies it: [undefined] gives [NaN]
    ([None]), [null] gives [0]. *)
Definition toNumber (v : NumberField) : option Z :=
  match v with
  | Undefined => None
  | Null => Some 0%Z
  | Number z => Some z
  end.

(** Number to string, for an integer in a template literal. *)
Definition toString (z : Z) : string := NilZero.string_of_int (Z.to_int z).

(** [Array.prototype.sort(compare)]: the sort is stable, and [x] goes
    before [y] when [compare x y < 0]. *)
Section Sort.
Context {A : Type} (compare : A -> A -> Z).

Fixpoint insert (x : A) (l : list A) : list A :=
  match l with
  | [] => [x]
  | y :: r => if (compare x y <=? 0)%Z then x :: l else y :: insert x r
  end.

Definition sort (l : list A) : list A := fold_right insert [] l.
End Sort.

Definition dq : string := String (ascii_of_nat 34) EmptyString.
Definition nl : string := String (ascii_of_nat 10) EmptyString.

End JS.

(** ** Data model *)

(** An entry of the [networks] array of the device. *)
Record Network := mkNetwork {
  ssid : option string;
  rssi : JS.NumberField;
  encryption : option string
}.

(** The body of a device response: [{ success, networks }] for a scan,
    [{ success, error }] for a configuration. [success] is the truthiness
    of the field; [networks] is [None] when the field is absent or is not
    an array; an element of the array is [None] when it is not an object. *)
Record Body := mkBody {
  success : bool;
  networks : option (list (option Network));
  error : option string
}.

(** A thrown value: an [Error] or a [DOMException]. *)
Record Error := mkError {
  name : string;
  message : string
}.

Inductive Result (A : Type) : Type :=
| Ok (a : A)
| Throw (e : Error).
Arguments Ok {A} a.
Arguments Throw {A} e.

(** A [Response]: [json] is how [response.json()] settles. A body that is
    the JSON [null] makes the first property read throw in the same [try]
    block; it is a [json] that throws. *)
Record Response := mkResponse {
  status : Z;
  statusText : string;
  json : Result Body
}.

(** [response.ok]: the status is in the range 200 to 299. *)
Definition ok (r : Response) : bool := ((200 <=? status r) && (status r <=? 299))%Z.

(** A function held in a ref: calling it either returns or throws. *)
Record Callback := mkCallback {
  cb_id : nat;
  cb_throws : option Error
}.

Record Device := mkDevice { deviceId : option string }.

(** The props of the modal; [onClose] is logged when it is called. *)
Record Props := mkProps {
  device : option Device;
  userId : option string
}.

(** The body of the configure request, before [JSON.stringify]. *)
Record ConfigData := mkConfigData {
  cd_ssid : option string;
  cd_password : string
}.

(** The refs and the React state of the component. *)
Record State := mkState {
  mountedRef : bool;
  wifiScanTimerRef : option nat;
  wifiListenerRef : option Callback;
  cleanupFunctionsRef : list Callback;
  wifiNetworks : list Network;
  selectedNetwork : option Network;
  wifiPassword : string;
  isScanning : bool;
  showPassword : bool;
  isConfiguring : bool
}.

Inductive Event : Type :=
| Alert (title msg : string)
| Fetch (url method : string) (headers : list (string * string)) (body : option ConfigData)
| SetTimeout (id : nat) (delay : Z)
| ClearTimeout (id : nat)
| Abort (id : nat)
| Call (f : Callback)
| OnClose.

Record World := mkWorld {
  comp : State;
  timers : list nat;
  nextTimer : nat;
  log : list Event
}.

(** What the caller sees of the log: the alerts and [onClose]. *)
Definition visible (e : Event) : bool :=
  match e with
  | Alert _ _ | OnClose => true
  | _ => false
  end.

Definition isFetch (e : Event) : bool :=
  match e with
  | Fetch _ _ _ _ => true
  | _ => false
  end.

Definition isSetTimeout (e : Event) : bool :=
  match e with
  | SetTimeout _ _ => true
  | _ => false
  end.

(** The releases of the log: timers cleared and callbacks called. *)
Definition isRelease (e : Event) : bool :=
  match e with
  | ClearTimeout _ | Call _ => true
  | _ => false
  end.

Definition alerts (w : World) : list Event := filter visible (log w).
Definition requests (w : World) : list Event := filter isFetch (log w).

(** The state as the caller sees it: the React state, without the refs. *)
Definition reactState (st : State) :=
  (wifiNetworks st, selectedNetwork st, wifiPassword st,
   isScanning st, showPassword st, isConfiguring st).

(** ** The monad of the callbacks: world passing, with exceptions *)

Definition M (A : Type) : Type := World -> Result A * World.

Definition ret {A} (a : A) : M A := fun w => (Ok a, w).

Definition bind {A B} (m : M A) (k : A -> M B) : M B :=
  fun w =>
    match m w with
    | (Ok a, w') => k a w'
    | (Throw e, w') => (Throw e, w')
    end.

Definition throw {A} (e : Error) : M A := fun w => (Throw e, w).

(** [try { m } catch (error) { h error }] *)
Definition try_catch {A} (m : M A) (h : Error -> M A) : M A :=
  fun w =>
    match m w with
    | (Ok a, w') => (Ok a, w')
    | (Throw e, w') => h e w'
    end.

Notation "x <- m ;; k" := (bind m (fun x => k))
  (at level 61, m at next level, right associativity).
Notation "m ;; k" := (bind m (fun _ => k))
  (at level 61, right associativity).

Definition get : M State := fun w => (Ok (comp w), w).

Definition modify (f : State -> State) : M unit :=
  fun w => (Ok tt, mkWorld (f (comp w)) (timers w) (nextTimer w) (log w)).

Definition emit (e : Event) : M unit :=
  fun w => (Ok tt, mkWorld (comp w) (timers w) (nextTimer w) (log w ++ [e])).

(** The world after a computation, and its outcome. *)
Definition exec {A} (m : M A) (w : World) : World := snd (m w).
Definition eval {A} (m : M A) (w : World) : Result A := fst (m w).

(** ** Timers *)

Definition setTimeout (delay : Z) : M nat :=
  fun w =>
    let id := nextTimer w in
    (Ok id, mkWorld (comp w) (id :: timers w) (S id) (log w ++ [SetTimeout id delay])).

Definition clearTimeout (id : nat) : M unit :=
  fun w =>
    (Ok tt, mkWorld (comp w) (remove Nat.eq_dec id (timers w)) (nextTimer w)
                    (log w ++ [ClearTimeout id])).

(** The timer [id] expires and runs [controller.abort()]. *)
Definition timerFires (id : nat) : M unit :=
  fun w =>
    (Ok tt, mkWorld (comp w) (remove Nat.eq_dec id (timers w)) (nextTimer w)
                    (log w ++ [Abort id])).

(** ** Setters *)

Definition setMounted (b : bool) : M unit :=
  modify (fun st => mkState b (wifiScanTimerRef st) (wifiListenerRef st)
    (cleanupFunctionsRef st) (wifiNetworks st) (selectedNetwork st)
    (wifiPassword st) (isScanning st) (showPassword st) (isConfiguring st)).

Definition setWifiScanTimerRef (t : option nat) : M unit :=
  modify (fun st => mkState (mountedRef st) t (wifiListenerRef st)
    (cleanupFunctionsRef st) (wifiNetworks st) (selectedNetwork st)
    (wifiPassword st) (isScanning st) (showPassword st) (isConfiguring st)).

Definition setWifiListenerRef (l : option Callback) : M unit :=
  modify (fun st => mkState (mountedRef st) (wifiScanTimerRef st) l
    (cleanupFunctionsRef st) (wifiNetworks st) (selectedNetwork st)
    (wifiPassword st) (isScanning st) (showPassword st) (isConfiguring st)).

Definition setCleanupFunctionsRef (l : list Callback) : M unit :=
  modify (fun st => mkState (mountedRef st) (wifiScanTimerRef st)
    (wifiListenerRef st) l (wifiNetworks st) (selectedNetwork st)
    (wifiPassword st) (isScanning st) (showPassword st) (isConfiguring st)).

Definition setWifiNetworks (l : list Network) : M unit :=
  modify (fun st => mkState (mountedRef st) (wifiScanTimerRef st)
    (wifiListenerRef st) (cleanupFunctionsRef st) l (selectedNetwork st)
    (wifiPassword st) (isScanning st) (showPassword st) (isConfiguring st)).

Definition setSelectedNetwork (n : option Network) : M unit :=
  modify (fun st => mkState (mountedRef st) (wifiScanTimerRef st)
    (wifiListenerRef st) (cleanupFunctionsRef st) (wifiNetworks st) n
    (wifiPassword st) (isScanning st) (showPassword st) (isConfiguring st)).

Definition setWifiPassword (s : string) : M unit :=
  modify (fun st => mkState (mountedRef st) (wifiScanTimerRef st)
    (wifiListenerRef st) (cleanupFunctionsRef st) (wifiNetworks st)
    (selectedNetwork st) s (isScanning st) (showPassword st) (isConfiguring st)).

Definition setIsScanning (b : bool) : M unit :=
  modify (fun st => mkState (mountedRef st) (wifiScanTimerRef st)
    (wifiListenerRef st) (cleanupFunctionsRef st) (wifiNetworks st)
    (selectedNetwork st) (wifiPassword st) b (showPassword st) (isConfiguring st)).

Definition setShowPassword (b : bool) : M unit :=
  modify (fun st => mkState (mountedRef st) (wifiScanTimerRef st)
    (wifiListenerRef st) (cleanupFunctionsRef st) (wifiNetworks st)
    (selectedNetwork st) (wifiPassword st) (isScanning st) b (isConfiguring st)).

Definition setIsConfiguring (b : bool) : M unit :=
  modify (fun st => mkState (mountedRef st) (wifiScanTimerRef st)
    (wifiListenerRef st) (cleanupFunctionsRef st) (wifiNetworks st)
    (selectedNetwork st) (wifiPassword st) (isScanning st) (showPassword st) b).

(** ** The release operation: [cleanupWifiListener] *)

(** A call of a function held in a ref. *)
Definition call (f : Callback) : M unit :=
  emit (Call f);;
  match cb_throws f with
  | Some e => throw e
  | None => ret tt
  end.

Fixpoint forEach {A} (f : A -> M unit) (l : list A) : M unit :=
  match l with
  | [] => ret tt
  | x :: r => f x;; forEach f r
  end.

(** A ref holds [None] for [null]; a timer id is positive, hence truthy. *)
Definition cleanupWifiListener : M unit :=
  st <- get;;
  match wifiScanTimerRef st with
  | Some t => clearTimeout t;; setWifiScanTimerRef None
  | None => ret tt
  end;;
  st <- get;;
  match wifiListenerRef st with
  | Some l => try_catch (call l) (fun _ => ret tt);; setWifiListenerRef None
  | None => ret tt
  end;;
  st <- get;;
  forEach (fun cleanup => try_catch (call cleanup) (fun _ => ret tt))
          (cleanupFunctionsRef st);;
  setCleanupFunctionsRef [].

(** The cleanup of the two unmount effects. *)
Definition unmount : M unit :=
  setMounted false;;
  cleanupWifiListener.

(** ** The timeout-bounded fetch: [fetchWithTimeout] *)

Record Options := mkOptions {
  method : string;
  headers : list (string * string);
  body : option ConfigData
}.

(** What the underlying [fetch] does when it is left alone: it resolves or
    rejects [t] milliseconds after the call, or it never settles. *)
Inductive FetchBehaviour : Type :=
| Resolves (t : Z) (r : Response)
| Rejects (t : Z) (e : Error)
| Hangs.

(** What the [await] of the wrapper observes. *)
Inductive Settlement : Type :=
| Fulfilled (r : Response)
| Rejected (e : Error)
| TimedOut.

(** The timer of the wrapper expires [timeout] milliseconds after the call;
    a request that has settled by then wins, any other is aborted. *)
Definition settle (timeout : Z) (b : FetchBehaviour) : Settlement :=
  match b with
  | Resolves t r => if (t <=? timeout)%Z then Fulfilled r else TimedOut
  | Rejects t e => if (t <=? timeout)%Z then Rejected e else TimedOut
  | Hangs => TimedOut
  end.

(** The rejection of an aborted [fetch]. *)
Definition AbortError : Error := mkError "AbortError" "Aborted".

Definition fetch (url : string) (o : Options) : M unit :=
  emit (Fetch url (method o) (headers o) (body o)).

(** Up to the [await]: the controller, the timer, the request. *)
Definition fetchWithTimeout_begin (url : string) (options : Options) (timeout : Z)
  : M nat :=
  timeoutId <- setTimeout timeout;;
  fetch url options;;
  ret timeoutId.

(** The [await fetch(...)] of the wrapper. *)
Definition awaitFetch (timeoutId : nat) (s : Settlement) : M Response :=
  match s with
  | Fulfilled response => ret response
  | Rejected e => throw e
  | TimedOut => timerFires timeoutId;; throw AbortError
  end.

(** From the [await]: both branches clear the timer. *)
Definition fetchWithTimeout_resume (timeoutId : nat) (s : Settlement) : M Response :=
  try_catch
    (response <- awaitFetch timeoutId s;;
     clearTimeout timeoutId;;
     ret response)
    (fun e =>
     clearTimeout timeoutId;;
     throw e).

Definition fetchWithTimeout (url : string) (options : Options) (timeout : Z)
    (b : FetchBehaviour) : M Response :=
  timeoutId <- fetchWithTimeout_begin url options timeout;;
  fetchWithTimeout_resume timeoutId (settle timeout b).

(** ** The scan: [scanWifiNetworksViaHTTP] *)

Definition SCAN_TIMEOUT : Z := 30000.
Definition CONFIGURE_TIMEOUT : Z := 60000.

Definition deviceIP : string := "192.168.4.1".
Definition scanUrl : string := "http://" ++ deviceIP ++ "/scan".
Definition configUrl : string := "http://" ++ deviceIP ++ "/configure".

Definition scanOptions : Options :=
  mkOptions "GET" [("Accept", "application/json")] None.

(** [network && network.ssid && network.ssid.trim() !== ''] *)
Definition isValidNetwork (e : option Network) : bool :=
  match e with
  | Some network =>
      match ssid network with
      | Some s => negb (s =? "")%string && negb (JS.trim s =? "")%string
      | None => false
      end
  | None => false
  end.

(** The objects of an array of entries. *)
Definition objects (l : list (option Network)) : list Network :=
  flat_map (fun e => match e with Some n => [n] | None => [] end) l.

(** [(a, b) => (b.rssi || -100) - (a.rssi || -100)] *)
Definition compareRssi (a b : Network) : Z :=
  JS.orNumber (rssi b) (-100) - JS.orNumber (rssi a) (-100).

Definition validNetworks (arr : list (option Network)) : list Network :=
  JS.sort compareRssi (objects (filter isValidNetwork arr)).

(** The bullet of the alert texts, as the three bytes of U+2022. *)
Definition bullet : string :=
  String (ascii_of_nat 226) (String (ascii_of_nat 128) (String (ascii_of_nat 162) "")).

Definition pleaseEnsure : string :=
  JS.nl ++ bullet ++ " Device is in AP mode" ++
  JS.nl ++ bullet ++ " You are connected to device's WiFi" ++
  JS.nl ++ bullet ++ " Device IP is 192.168.4.1".

Definition noNetworksAlert : Event :=
  Alert "No Networks Found"
    "No WiFi networks were detected. Please ensure the device is powered on and in setup mode.".

Definition scanTimeoutAlert : Event :=
  Alert "Scan Timeout"
    ("WiFi scan timed out after 30 seconds. Please ensure:" ++ pleaseEnsure).

Definition scanFailedAlert (e : Error) : Event :=
  Alert "Scan Failed"
    ("Failed to scan networks via Direct AP." ++ JS.nl ++ JS.nl ++
     "Error: " ++ message e ++ JS.nl ++ JS.nl ++ "Please ensure:" ++ pleaseEnsure).

(** [new Error(`HTTP ${response.status}: ${response.statusText}`)] *)
Definition httpError (response : Response) : Error :=
  mkError "Error"
    ("HTTP " ++ JS.toString (status response) ++ ": " ++ statusText response).

(** [if (mountedRef.current) { ... }] *)
Definition ifMounted (m : M unit) : M unit :=
  st <- get;;
  if mountedRef st then m else ret tt.

(** Up to the [await]: the guard, the release, the liveness check, the two
    state writes, and the request. [None] when no request is issued. *)
Definition scanWifiNetworksViaHTTP_begin (p : Props) (deviceId : option string)
  : M (option nat) :=
  st <- get;;
  if negb (JS.truthy deviceId) || isScanning st || negb (JS.truthy (userId p))
  then ret None
  else
    cleanupWifiListener;;
    st <- get;;
    if negb (mountedRef st) then ret None
    else
      setIsScanning true;;
      setWifiNetworks [];;
      timeoutId <- fetchWithTimeout_begin scanUrl scanOptions SCAN_TIMEOUT;;
      ret (Some timeoutId).

(** The [try] block of the scan, from the [await]. *)
Definition scanTry (timeoutId : nat) (s : Settlement) : M unit :=
  response <- fetchWithTimeout_resume timeoutId s;;
  if negb (ok response) then throw (httpError response)
  else
    data <- (fun w => (json response, w));;
    match (if success data then networks data else None) with
    | Some arr =>
        let valid := validNetworks arr in
        ifMounted (setWifiNetworks valid;; setIsScanning false)
    | None =>
        ifMounted (setIsScanning false;; emit noNetworksAlert)
    end.

(** The [catch] block of the scan. *)
Definition scanCatch (e : Error) : M unit :=
  ifMounted
    (setIsScanning false;;
     if (name e =? "AbortError")%string
     then emit scanTimeoutAlert
     else emit (scanFailedAlert e)).

Definition scanWifiNetworksViaHTTP_resume (timeoutId : nat) (s : Settlement) : M unit :=
  try_catch (scanTry timeoutId s) scanCatch.

(** ** The close handler: [handleClose] *)

(** [onClose] is the callback of the caller. The handler calls it as its
    last step; the call is logged, and what the callback does is not part
    of the model. *)
Definition handleClose : M unit :=
  setSelectedNetwork None;;
  setWifiPassword "";;
  setWifiNetworks [];;
  setIsScanning false;;
  setShowPassword false;;
  cleanupWifiListener;;
  emit OnClose.

(** ** The configuration: [configureWifiViaHTTP] *)

Definition deviceIdOf (p : Props) : option string :=
  match device p with
  | Some d => deviceId d
  | None => None
  end.

Definition configOptions (data : ConfigData) : Options :=
  mkOptions "POST"
    [("Content-Type", "application/json"); ("Accept", "application/json")]
    (Some data).

Definition selectNetworkAlert : Event := Alert "Error" "Please select a network".
Definition enterPasswordAlert : Event := Alert "Error" "Please enter the WiFi password".

Definition connectedAlert (selected : Network) : Event :=
  Alert "WiFi Connected!"
    ("Device successfully connected to " ++ JS.dq ++
     match ssid selected with Some s => s | None => "undefined" end ++ JS.dq ++ "." ++
     JS.nl ++ JS.nl ++
     "The device will now connect to your WiFi network. You can monitor it from the Home screen.").

Definition configTimeoutAlert : Event :=
  Alert "Configuration Timeout"
    "WiFi configuration timed out after 60 seconds. Please check the device and try again.".

Definition configFailedAlert (e : Error) : Event :=
  Alert "Configuration Failed"
    ("Failed to configure WiFi via Direct AP." ++ JS.nl ++ JS.nl ++
     "Error: " ++ message e ++ JS.nl ++ JS.nl ++
     "Please check the password and try again.").

(** [selectedNetwork.encryption !== 'OPEN'] *)
Definition notOpen (n : Network) : bool :=
  match encryption n with
  | Some e => negb (e =? "OPEN")%string
  | None => true
  end.

(** Up to the [await]: the two guards, the state write and the request.
    The pending request keeps the selected network of the closure. *)
Definition configureWifiViaHTTP_begin (p : Props) : M (option (nat * Network)) :=
  st <- get;;
  match selectedNetwork st with
  | Some selected =>
      if negb (JS.truthy (deviceIdOf p)) || isConfiguring st
         || negb (JS.truthy (userId p))
      then emit selectNetworkAlert;; ret None
      else if notOpen selected && (wifiPassword st =? "")%string
      then emit enterPasswordAlert;; ret None
      else
        setIsConfiguring true;;
        let configData :=
          mkConfigData (ssid selected) (JS.orString (Some (wifiPassword st)) "") in
        timeoutId <- fetchWithTimeout_begin configUrl (configOptions configData)
                       CONFIGURE_TIMEOUT;;
        ret (Some (timeoutId, selected))
  | None => emit selectNetworkAlert;; ret None
  end.

(** [new Error(result.error || 'Configuration failed')] *)
Definition configurationError (result : Body) : Error :=
  mkError "Error" (JS.orString (error result) "Configuration failed").

(** The [try] block of the configuration, from the [await]. *)
Definition configureTry (timeoutId : nat) (selected : Network) (s : Settlement)
  : M unit :=
  response <- fetchWithTimeout_resume timeoutId s;;
  if negb (ok response) then throw (httpError response)
  else
    result <- (fun w => (json response, w));;
    if success result
    then ifMounted (setIsConfiguring false;; emit (connectedAlert selected))
    else throw (configurationError result).

(** The [catch] block of the configuration. *)
Definition configureCatch (e : Error) : M unit :=
  ifMounted
    (setIsConfiguring false;;
     if (name e =? "AbortError")%string
     then emit configTimeoutAlert
     else emit (configFailedAlert e)).

Definition configureWifiViaHTTP_resume (timeoutId : nat) (selected : Network)
    (s : Settlement) : M unit :=
  try_catch (configureTry timeoutId selected s) configureCatch.

(** The [onPress] of the OK button of the success alert. *)
Definition connectedOkPressed : M unit := ifMounted handleClose.

(** ** Whole runs

    A run of an operation: the part up to the request, then possibly the
    unmount of the component while the request is outstanding, then the
    part from the settlement of the request. *)

Definition when (b : bool) (m : M unit) : M unit := if b then m else ret tt.

Definition scan (p : Props) (deviceId : option string) (b : FetchBehaviour)
    (tornDown : bool) : M unit :=
  pending <- scanWifiNetworksViaHTTP_begin p deviceId;;
  match pending with
  | Some timeoutId =>
      when tornDown unmount;;
      scanWifiNetworksViaHTTP_resume timeoutId (settle SCAN_TIMEOUT b)
  | None => ret tt
  end.

Definition configure (p : Props) (b : FetchBehaviour) (tornDown : bool) : M unit :=
  pending <- configureWifiViaHTTP_begin p;;
  match pending with
  | Some (timeoutId, selected) =>
      when tornDown unmount;;
      configureWifiViaHTTP_resume timeoutId selected (settle CONFIGURE_TIMEOUT b)
  | None => ret tt
  end.

(** The same runs, with the time bound read from the world. The delay of
    a pending timer is that of the last [setTimeout] of the log that
    returned it. *)
Definition timerDelay (timeoutId : nat) (w : World) : option Z :=
  if existsb (Nat.eqb timeoutId) (timers w)
  then
    match find (fun e => match e with
                         | SetTimeout id _ => Nat.eqb id timeoutId
                         | _ => false
                         end) (rev (log w)) with
    | Some (SetTimeout _ delay) => Some delay
    | _ => None
    end
  else None.

(** How the request that the timer [timeoutId] bounds settles in a world:
    it is aborted when the timer expires first. With no such timer the
    request is never aborted, and if it hangs it never settles. *)
Definition settlement (timeoutId : nat) (b : FetchBehaviour) (w : World)
    : option Settlement :=
  match timerDelay timeoutId w with
  | Some delay => Some (settle delay b)
  | None =>
      match b with
      | Resolves _ r => Some (Fulfilled r)
      | Rejects _ e => Some (Rejected e)
      | Hangs => None
      end
  end.

Definition scanBounded (p : Props) (deviceId : option string) (b : FetchBehaviour)
    : M unit :=
  pending <- scanWifiNetworksViaHTTP_begin p deviceId;;
  match pending with
  | Some timeoutId =>
      fun w =>
        match settlement timeoutId b w with
        | Some s => scanWifiNetworksViaHTTP_resume timeoutId s w
        | None => (Ok tt, w)
        end
  | None => ret tt
  end.

Definition configureBounded (p : Props) (b : FetchBehaviour) : M unit :=
  pending <- configureWifiViaHTTP_begin p;;
  match pending with
  | Some (timeoutId, selected) =>
      fun w =>
        match settlement timeoutId b w with
        | Some s => configureWifiViaHTTP_resume timeoutId selected s w
        | None => (Ok tt, w)
        end
  | None => ret tt
  end.

(** The component as [useState] and [useRef] initialise it. *)
Definition initialState : State :=
  mkState true None None [] [] None "" false false false.

Definition initialWorld : World := mkWorld initialState [] 1 [].

(** ** The words of the specification *)

(** The candidates of a [networks] array: its objects, without those whose
    ssid is missing, empty or made of white space only. *)
Definition hasSsid (n : Network) : bool :=
  match ssid n with
  | Some s => negb (JS.blank s)
  | None => false
  end.

Definition candidates (arr : list (option Network)) : list Network :=
  filter hasSsid (objects arr).

(** The signal strength of a network, with a missing rssi taken as -100. *)
Definition signal (n : Network) : Z :=
  match rssi n with
  | JS.Number z => z
  | JS.Undefined | JS.Null => -100
  end.

Definition descending (a b : Network) : Prop := signal a >= signal b.

(** The preconditions of the two operations. *)
Definition scanReady (p : Props) (deviceId : option string) (w : World) : Prop :=
  JS.truthy deviceId = true /\ JS.truthy (userId p) = true /\
  isScanning (comp w) = false /\ mountedRef (comp w) = true.

Definition configureReady (p : Props) (selected : Network) (w : World) : Prop :=
  JS.truthy (deviceIdOf p) = true /\ JS.truthy (userId p) = true /\
  selectedNetwork (comp w) = Some selected /\
  isConfiguring (comp w) = false /\ mountedRef (comp w) = true /\
  (notOpen selected = true -> wifiPassword (comp w) <> "").

(** A request that has not settled when its time bound expires. *)
Definition unsettledAfter (timeout : Z) (b : FetchBehaviour) : Prop :=
  match b with
  | Resolves t _ | Rejects t _ => timeout < t
  | Hangs => True
  end.

(** The settlements on which the [try] block of an operation throws. *)
Definition scanFails (s : Settlement) : bool :=
  match s with
  | Fulfilled r =>
      negb (ok r) || match json r with Throw _ => true | Ok _ => false end
  | Rejected _ | TimedOut => true
  end.

Definition configureFails (s : Settlement) : bool :=
  match s with
  | Fulfilled r =>
      negb (ok r) ||
      match json r with Throw _ => true | Ok result => negb (success result) end
  | Rejected _ | TimedOut => true
  end.

(** What a call of the release operation releases, in order, and the
    component after it. *)
Definition releases (st : State) : list Event :=
  match wifiScanTimerRef st with Some t => [ClearTimeout t] | None => [] end ++
  match wifiListenerRef st with Some l => [Call l] | None => [] end ++
  map Call (cleanupFunctionsRef st).

Definition released (st : State) : State :=
  mkState (mountedRef st) None None [] (wifiNetworks st) (selectedNetwork st)
    (wifiPassword st) (isScanning st) (showPassword st) (isConfiguring st).

Definition timersReleased (w : World) : list nat :=
  match wifiScanTimerRef (comp w) with
  | Some t => remove Nat.eq_dec t (timers w)
  | None => timers w
  end.

(** ** Definitions of the proofs: intermediate worlds and sample data *)

(** The key under which the comparator orders: [n.rssi || -100]. *)
Definition sortKey (n : Network) : Z := JS.orNumber (rssi n) (-100).

(** The world in which a started scan waits for its request. *)
Definition scanPending (w : World) : World :=
  mkWorld
    (mkState true None None [] [] (selectedNetwork (comp w))
       (wifiPassword (comp w)) true (showPassword (comp w))
       (isConfiguring (comp w)))
    (nextTimer w :: timersReleased w) (S (nextTimer w))
    (log w ++ releases (comp w) ++
     [SetTimeout (nextTimer w) SCAN_TIMEOUT;
      Fetch scanUrl "GET" [("Accept", "application/json")] None]).

(** The world in which a started configuration waits for its request. *)
Definition configurePending (selected : Network) (w : World) : World :=
  mkWorld
    (mkState (mountedRef (comp w)) (wifiScanTimerRef (comp w))
       (wifiListenerRef (comp w)) (cleanupFunctionsRef (comp w))
       (wifiNetworks (comp w)) (selectedNetwork (comp w))
       (wifiPassword (comp w)) (isScanning (comp w)) (showPassword (comp w))
       true)
    (nextTimer w :: timers w) (S (nextTimer w))
    (log w ++
     [SetTimeout (nextTimer w) CONFIGURE_TIMEOUT;
      Fetch configUrl "POST"
        [("Content-Type", "application/json"); ("Accept", "application/json")]
        (Some (mkConfigData (ssid selected) (wifiPassword (comp w))))]).

(** How the wrapper completes on a settlement, and the world then: the
    timer has fired on a time-out, and it has been cleared in all cases. *)
Definition outcome (s : Settlement) : Result Response :=
  match s with
  | Fulfilled r => Ok r
  | Rejected e => Throw e
  | TimedOut => Throw AbortError
  end.

Definition settled (timeoutId : nat) (s : Settlement) (w : World) : World :=
  match s with
  | TimedOut => exec (timerFires timeoutId;; clearTimeout timeoutId) w
  | _ => exec (clearTimeout timeoutId) w
  end.

(** The error that the [try] block of an operation throws on a
    settlement, if it throws. *)
Definition scanThrown (s : Settlement) : option Error :=
  match outcome s with
  | Ok r =>
      if ok r
      then match json r with Throw e => Some e | Ok _ => None end
      else Some (httpError r)
  | Throw e => Some e
  end.

Definition configureThrown (s : Settlement) : option Error :=
  match outcome s with
  | Ok r =>
      if ok r
      then match json r with
           | Throw e => Some e
           | Ok result => if success result then None else Some (configurationError result)
           end
      else Some (httpError r)
  | Throw e => Some e
  end.

(** Sample data: the props of a modal opened on a device, and the scan
    response of the first end-to-end scenario of the specification. *)
Definition sampleProps : Props :=
  mkProps (Some (mkDevice (Some "meter-01"))) (Some "user-7").

Definition home : Network := mkNetwork (Some "Home") (JS.Number (-55)) (Some "WPA2").

Definition unnamed : Network := mkNetwork (Some "") (JS.Number (-40)) (Some "OPEN").

Definition guest : Network := mkNetwork (Some "Guest") (JS.Number (-70)) (Some "OPEN").

Definition scenario1 : Response :=
  mkResponse 200 "OK" (Ok (mkBody true (Some [Some home; Some unnamed; Some guest]) None)).

(** A transport failure: the rejection of [fetch] on a lost connection. *)
Definition networkFailure : Error := mkError "TypeError" "Network request failed".

Definition isAbort (e : Event) : bool :=
  match e with
  | Abort _ => true
  | _ => false
  end.

(** The aborts of the log: the timers that have expired. *)
Definition aborts (w : World) : list Event := filter isAbort (log w).

(** A response of the device after the time bound of a configuration. *)
Definition accepted : Response := mkResponse 200 "OK" (Ok (mkBody true None None)).

Definition serverError : Response :=
  mkResponse 500 "Internal Server Error" (Throw (mkError "SyntaxError" "JSON Parse error")).

(** ** The rest of the component: the list item, the view and its handlers *)

(** The value of [getSignalStrength]. *)
Record SignalStrength := mkSignalStrength {
  icon : string;
  color : string;
  strength : string
}.

(** [getSignalStrength(network.rssi)] of the list item. Each [rssi >= c]
    compares the number of the rssi: for a missing rssi ([undefined], so
    [NaN]) every comparison is false, and a [null] rssi compares as [0]. *)
Definition getSignalStrength (r : JS.NumberField) : SignalStrength :=
  match JS.toNumber r with
  | Some z =>
      if (-50 <=? z)%Z then mkSignalStrength "wifi" "#10B981" "Excellent"
      else if (-60 <=? z)%Z then mkSignalStrength "wifi" "#10B981" "Good"
      else if (-70 <=? z)%Z then mkSignalStrength "wifi" "#F59E0B" "Fair"
      else mkSignalStrength "wifi" "#EF4444" "Weak"
  | None => mkSignalStrength "wifi" "#EF4444" "Weak"
  end.

(** The four labels, from the weakest (0) to the strongest (3). *)
Definition bars (s : SignalStrength) : nat :=
  if (strength s =? "Excellent")%string then 3
  else if (strength s =? "Good")%string then 2
  else if (strength s =? "Fair")%string then 1
  else 0.

(** [selectedNetwork?.ssid === network.ssid], the mark of a list item. *)
Definition isSelected (st : State) (network : Network) : bool :=
  match match selectedNetwork st with Some sel => ssid sel | None => None end,
        ssid network with
  | Some a, Some b => (a =? b)%string
  | None, None => true
  | _, _ => false
  end.

(** [disabled={isScanning || !device?.deviceId}] of the scan button. *)
Definition scanButtonDisabled (p : Props) (st : State) : bool :=
  isScanning st || negb (JS.truthy (deviceIdOf p)).

(** [disabled={!selectedNetwork || isConfiguring}] of the connect button. *)
Definition connectButtonDisabled (st : State) : bool :=
  match selectedNetwork st with
  | Some _ => isConfiguring st
  | None => true
  end.

(** [selectedNetwork && selectedNetwork.encryption !== 'OPEN']: the
    password section is rendered. *)
Definition passwordSectionShown (st : State) : bool :=
  match selectedNetwork st with
  | Some sel => notOpen sel
  | None => false
  end.

(** The handlers of the view. A disabled button does not call its
    handler, and a section that is not rendered has none. *)

(** [onPress={() => scanWifiNetworksViaHTTP(device?.deviceId)}] *)
Definition pressScanButton (p : Props) : M (option nat) :=
  st <- get;;
  if scanButtonDisabled p st then ret None
  else scanWifiNetworksViaHTTP_begin p (deviceIdOf p).

(** [onPress={() => onSelect(network)}] of the item at [index], which is
    disabled while scanning; [onSelect] is [setSelectedNetwork]. *)
Definition pressNetworkItem (index : nat) : M unit :=
  st <- get;;
  match nth_error (wifiNetworks st) index with
  | Some network =>
      if isScanning st then ret tt else setSelectedNetwork (Some network)
  | None => ret tt
  end.

(** [onChangeText={setWifiPassword}] *)
Definition changePasswordText (text : string) : M unit :=
  st <- get;;
  if passwordSectionShown st then setWifiPassword text else ret tt.

(** [onPress={() => setShowPassword(!showPassword)}] *)
Definition pressEyeButton : M unit :=
  st <- get;;
  if passwordSectionShown st then setShowPassword (negb (showPassword st))
  else ret tt.

(** [onPress={configureWifiViaHTTP}] *)
Definition pressConnectButton (p : Props) : M (option (nat * Network)) :=
  st <- get;;
  if connectButtonDisabled st then ret None
  else configureWifiViaHTTP_begin p.

(** ** The effect on [visible]: the automatic scan *)

Definition AUTO_SCAN_DELAY : Z := 500.

(** The effect of a render in which [visible] has changed: it sets the
    timer of the automatic scan when the modal becomes visible. The
    animation of the scale is not part of the model. *)
Definition visibleEffect (visible : bool) : M (option nat) :=
  if visible
  then timerId <- setTimeout AUTO_SCAN_DELAY;; ret (Some timerId)
  else ret None.

(** A timer that expires leaves the table of the pending timers. *)
Definition timerExpires (id : nat) : M unit :=
  fun w =>
    (Ok tt, mkWorld (comp w) (remove Nat.eq_dec id (timers w)) (nextTimer w) (log w)).

(** The callback of that timer. [scanCallback] is the scan callback of the
    render in which the effect ran, and [p] the props of that render. *)
Definition autoScanCallback (p : Props)
    (scanCallback : option string -> M (option nat)) : M (option nat) :=
  st <- get;;
  if mountedRef st && JS.truthy (deviceIdOf p)
  then scanCallback (deviceIdOf p)
  else ret None.

Definition autoScanFires (p : Props)
    (scanCallback : option string -> M (option nat)) (timerId : nat)
  : M (option nat) :=
  timerExpires timerId;;
  autoScanCallback p scanCallback.

(** ** More whole runs *)

(** A scan during which the modal is closed, not unmounted. *)
Definition scanClosedMeanwhile (p : Props) (deviceId : option string)
    (b : FetchBehaviour) : M unit :=
  pending <- scanWifiNetworksViaHTTP_begin p deviceId;;
  match pending with
  | Some timeoutId =>
      handleClose;;
      scanWifiNetworksViaHTTP_resume timeoutId (settle SCAN_TIMEOUT b)
  | None => ret tt
  end.

(** A configuration followed by the press of OK on the alert it raised. *)
Definition configureThenOk (p : Props) (b : FetchBehaviour) : M unit :=
  configure p b false;;
  connectedOkPressed.

(** The component after the close handler. *)
Definition closed (st : State) : State :=
  mkState (mountedRef st) None None [] [] None "" false false (isConfiguring st).

(** The request of a scan and that of a configuration. *)
Definition scanRequest : Event :=
  Fetch scanUrl "GET" [("Accept", "application/json")] None.

Definition configureRequest (selected : Network) (password : string) : Event :=
  Fetch configUrl "POST"
    [("Content-Type", "application/json"); ("Accept", "application/json")]
    (Some (mkConfigData (ssid selected) password)).

(** The scan callback of a render in which [isScanning] had the value
    [scanning]: the callback reads that value, and the refs and the
    setters of the component. *)
Definition scanCallbackOf (p : Props) (scanning : bool) (deviceId : option string)
  : M (option nat) :=
  if negb (JS.truthy deviceId) || scanning || negb (JS.truthy (userId p))
  then ret None
  else
    cleanupWifiListener;;
    st <- get;;
    if negb (mountedRef st) then ret None
    else
      setIsScanning true;;
      setWifiNetworks [];;
      timeoutId <- fetchWithTimeout_begin scanUrl scanOptions SCAN_TIMEOUT;;
      ret (Some timeoutId).

(** ** The component as a transition system

    A system is the world together with what is outstanding: the timer of
    each scan request, the timer and the selected network of each
    configuration request, and the timer of each automatic scan with the
    value that [isScanning] had in the render that set it. An action is an
    event that the component can receive: a press or an input of the user
    or a change of [visible], which reach the component only while it is
    mounted, the settlement of an outstanding request, the expiry of the
    timer of an automatic scan, or the unmount. *)

Record System := mkSystem {
  world : World;
  scans : list nat;
  configurations : list (nat * Network);
  autoScans : list (nat * bool)
}.

Inductive Action : Type :=
| BecomeVisible
| PressScan
| PressItem (index : nat)
| ChangePassword (text : string)
| PressEye
| PressConnect
| PressClose
| PressOk
| ScanSettles (timeoutId : nat) (s : Settlement)
| ConfigureSettles (timeoutId : nat) (s : Settlement)
| AutoScanTimer (timerId : nat)
| Unmount.

Definition ifRendered (sys : System) (next : System) : System :=
  if mountedRef (comp (world sys)) then next else sys.

Definition step (p : Props) (sys : System) (a : Action) : System :=
  let w := world sys in
  match a with
  | BecomeVisible =>
      ifRendered sys
        match visibleEffect true w with
        | (Ok (Some timerId), w') =>
            mkSystem w' (scans sys) (configurations sys)
                     ((timerId, isScanning (comp w)) :: autoScans sys)
        | (_, w') => mkSystem w' (scans sys) (configurations sys) (autoScans sys)
        end
  | PressScan =>
      ifRendered sys
        match pressScanButton p w with
        | (Ok (Some timeoutId), w') =>
            mkSystem w' (timeoutId :: scans sys) (configurations sys) (autoScans sys)
        | (_, w') => mkSystem w' (scans sys) (configurations sys) (autoScans sys)
        end
  | PressItem index =>
      ifRendered sys
        (mkSystem (exec (pressNetworkItem index) w)
                  (scans sys) (configurations sys) (autoScans sys))
  | ChangePassword text =>
      ifRendered sys
        (mkSystem (exec (changePasswordText text) w)
                  (scans sys) (configurations sys) (autoScans sys))
  | PressEye =>
      ifRendered sys
        (mkSystem (exec pressEyeButton w)
                  (scans sys) (configurations sys) (autoScans sys))
  | PressConnect =>
      ifRendered sys
        match pressConnectButton p w with
        | (Ok (Some pending), w') =>
            mkSystem w' (scans sys) (pending :: configurations sys) (autoScans sys)
        | (_, w') => mkSystem w' (scans sys) (configurations sys) (autoScans sys)
        end
  | PressClose =>
      ifRendered sys
        (mkSystem (exec handleClose w)
                  (scans sys) (configurations sys) (autoScans sys))
  | PressOk =>
      ifRendered sys
        (mkSystem (exec connectedOkPressed w)
                  (scans sys) (configurations sys) (autoScans sys))
  | ScanSettles timeoutId s =>
      if existsb (Nat.eqb timeoutId) (scans sys)
      then mkSystem (exec (scanWifiNetworksViaHTTP_resume timeoutId s) w)
                    (remove Nat.eq_dec timeoutId (scans sys))
                    (configurations sys) (autoScans sys)
      else sys
  | ConfigureSettles timeoutId s =>
      match find (fun c => Nat.eqb timeoutId (fst c)) (configurations sys) with
      | Some (_, selected) =>
          mkSystem (exec (configureWifiViaHTTP_resume timeoutId selected s) w)
                   (scans sys)
                   (filter (fun c => negb (Nat.eqb timeoutId (fst c)))
                           (configurations sys))
                   (autoScans sys)
      | None => sys
      end
  | AutoScanTimer timerId =>
      match find (fun c => Nat.eqb timerId (fst c)) (autoScans sys) with
      | Some (_, scanning) =>
          let rest := filter (fun c => negb (Nat.eqb timerId (fst c))) (autoScans sys) in
          match autoScanFires p (scanCallbackOf p scanning) timerId w with
          | (Ok (Some timeoutId), w') =>
              mkSystem w' (timeoutId :: scans sys) (configurations sys) rest
          | (_, w') => mkSystem w' (scans sys) (configurations sys) rest
          end
      | None => sys
      end
  | Unmount =>
      mkSystem (exec unmount w) (scans sys) (configurations sys) (autoScans sys)
  end.

Definition run (p : Props) (sys : System) (actions : list Action) : System :=
  fold_left (step p) actions sys.

Definition initialSystem : System := mkSystem initialWorld [] [] [].

(** The timers of what is outstanding. *)
Definition outstanding (sys : System) : list nat :=
  scans sys ++ map fst (configurations sys) ++ map fst (autoScans sys).

(** The invariants of the system. *)

(** Nothing is held in the three refs of the release operation. *)
Definition refsEmpty (st : State) : Prop :=
  wifiScanTimerRef st = None /\ wifiListenerRef st = None /\
  cleanupFunctionsRef st = [].

(** The listed networks have an ssid that is not blank and are in
    decreasing order of the sort key; so has the selected network an ssid
    that is not blank; and the list is empty while scanning. *)
Definition listValid (st : State) : Prop :=
  Forall (fun n => hasSsid n = true) (wifiNetworks st) /\
  StronglySorted (fun a b => sortKey a >= sortKey b) (wifiNetworks st) /\
  (forall sel, selectedNetwork st = Some sel -> hasSsid sel = true) /\
  (isScanning st = true -> wifiNetworks st = []).

(** The pending timers are those of what is outstanding. *)
Definition timersAccounted (sys : System) : Prop :=
  (forall id, In id (timers (world sys)) <-> In id (outstanding sys)) /\
  (forall id, In id (outstanding sys) -> (id < nextTimer (world sys))%nat) /\
  NoDup (outstanding sys).

(** While the component is mounted, at most one configuration is
    outstanding, and the configuring flag tells whether one is. *)
Definition oneConfiguration (sys : System) : Prop :=
  mountedRef (comp (world sys)) = true ->
  (List.length (configurations sys) <= 1)%nat /\
  (isConfiguring (comp (world sys)) = true <-> configurations sys <> []).

(** A request that the component may issue: the scan request, or the
    configuration request of a network whose ssid is not blank, with a
    password that is not empty unless that network is open. *)
Definition wellFormedRequest (e : Event) : Prop :=
  e = scanRequest \/
  exists selected password,
    e = configureRequest selected password /\
    hasSsid selected = true /\
    (notOpen selected = true -> password <> "").

Definition requestsWellFormed (sys : System) : Prop :=
  Forall wellFormedRequest (requests (world sys)) /\
  Forall (fun c => hasSsid (snd c) = true) (configurations sys).

Definition invariant (sys : System) : Prop :=
  refsEmpty (comp (world sys)) /\
  listValid (comp (world sys)) /\
  timersAccounted sys /\
  oneConfiguration sys /\
  requestsWellFormed sys.

(** ** Strings and sorting *)

Module JSFacts.
Import JS.

Lemma trimEnd_empty (s : string) : trimEnd s = "" <-> blank s = true.
Proof.
  destruct s as [|c r]; [simpl; tauto|].
  change (trimEnd (String c r))
    with (if blank (String c r) then "" else String c (trimEnd r)).
  destruct (blank (String c r)); split; intros H; (reflexivity || discriminate H).
Qed.

(** Stripping the white space at the start keeps a string blank or not. *)
Lemma trimStart_blank (s : string) : blank (trimStart s) = blank s.
Proof.
  assert (G : forall n s, (String.length s <= n)%nat -> blank (trimStart s) = blank s).
  { clear s. induction n as [|n IH]; intros s L.
    - destruct s; [reflexivity|simpl in L; lia].
    - destruct s as [|c1 r1]; [reflexivity|].
      simpl in L. simpl trimStart.
      destruct (isWhiteSpace c1) eqn:E1.
      { simpl. rewrite E1. apply IH. lia. }
      destruct r1 as [|c2 r2]; [reflexivity|].
      simpl in L.
      destruct (isWhiteSpace2 c1 c2) eqn:E2.
      { simpl. rewrite E1, E2. apply IH. lia. }
      destruct r2 as [|c3 r3]; [reflexivity|].
      simpl in L.
      destruct (isWhiteSpace3 c1 c2 c3) eqn:E3.
      { simpl. rewrite E1, E2, E3. apply IH. lia. }
      reflexivity. }
  apply (G (String.length s)). lia.
Qed.

Lemma trim_empty (s : string) : trim s = "" <-> blank s = true.
Proof. unfold trim. rewrite trimEnd_empty, trimStart_blank. tauto. Qed.

Lemma blank_empty : blank "" = true.
Proof. reflexivity. Qed.

Section SortFacts.
Context {A : Type} (key : A -> Z).

(** A comparator that orders by decreasing key. *)
Let cmp (a b : A) : Z := key b - key a.

Lemma insert_perm (x : A) (l : list A) : Permutation (insert cmp x l) (x :: l).
Proof.
  induction l as [|y r IH]; simpl.
  - apply Permutation_refl.
  - destruct (cmp x y <=? 0)%Z.
    + apply Permutation_refl.
    + eapply perm_trans; [apply perm_skip, IH | apply perm_swap].
Qed.

Lemma sort_perm (l : list A) : Permutation (sort cmp l) l.
Proof.
  induction l as [|x r IH]; simpl.
  - apply perm_nil.
  - eapply perm_trans; [apply insert_perm | apply perm_skip, IH].
Qed.

Lemma insert_sorted (x : A) (l : list A) :
  Sorted (fun a b => key a >= key b) l ->
  Sorted (fun a b => key a >= key b) (insert cmp x l).
Proof.
  induction l as [|y r IH]; simpl; intros Hs.
  - repeat constructor.
  - destruct (cmp x y <=? 0)%Z eqn:E.
    + constructor; [exact Hs|]. constructor.
      apply Z.leb_le in E. unfold cmp in E. lia.
    + apply Z.leb_gt in E. unfold cmp in E.
      inversion Hs as [|? ? Hr Hhd]; subst.
      constructor; [apply IH, Hr|].
      destruct r as [|z r']; simpl.
      * constructor. lia.
      * destruct (cmp x z <=? 0)%Z.
        -- constructor. lia.
        -- constructor. inversion Hhd; subst. assumption.
Qed.

Lemma sort_sorted (l : list A) :
  StronglySorted (fun a b => key a >= key b) (sort cmp l).
Proof.
  apply Sorted_StronglySorted.
  - intros a b c Hab Hbc. lia.
  - induction l as [|x r IH]; simpl.
    + constructor.
    + apply insert_sorted, IH.
Qed.

(** Stability: the entries of one key keep their order. *)
Lemma insert_stable (k : Z) (x : A) (l : list A) :
  filter (fun a => key a =? k)%Z (insert cmp x l) =
  filter (fun a => key a =? k)%Z (x :: l).
Proof.
  induction l as [|y r IH]; simpl.
  - reflexivity.
  - destruct (cmp x y <=? 0)%Z eqn:E; simpl.
    + reflexivity.
    + apply Z.leb_gt in E. unfold cmp in E.
      simpl in IH. rewrite IH.
      destruct (key x =? k)%Z eqn:Ex; [|reflexivity].
      destruct (key y =? k)%Z eqn:Ey; [|reflexivity].
      apply Z.eqb_eq in Ex, Ey. lia.
Qed.

Lemma sort_stable (k : Z) (l : list A) :
  filter (fun a => key a =? k)%Z (sort cmp l) = filter (fun a => key a =? k)%Z l.
Proof.
  induction l as [|x r IH]; simpl.
  - reflexivity.
  - rewrite insert_stable. simpl. rewrite IH. reflexivity.
Qed.
End SortFacts.

End JSFacts.

(** ** The candidate list of a scan *)

Section Candidates.

Lemma sortKey_signal (n : Network) : rssi n <> JS.Number 0 -> sortKey n = signal n.
Proof.
  unfold sortKey, signal, JS.orNumber. destruct (rssi n) as [| |z]; try reflexivity.
  intros H. destruct (Z.eqb_spec z 0) as [->|]; [contradiction H|]; reflexivity.
Qed.

Lemma isValidNetwork_hasSsid (n : Network) : isValidNetwork (Some n) = hasSsid n.
Proof.
  unfold isValidNetwork, hasSsid. destruct (ssid n) as [s|]; [|reflexivity].
  destruct (JS.blank s) eqn:B; simpl.
  - apply JSFacts.trim_empty in B. rewrite B. apply andb_false_r.
  - assert (T : JS.trim s <> "").
    { intros T. apply JSFacts.trim_empty in T. congruence. }
    assert (N : s <> "").
    { intros ->. discriminate B. }
    apply String.eqb_neq in T, N. rewrite T, N. reflexivity.
Qed.

Lemma objects_filter_valid (arr : list (option Network)) :
  objects (filter isValidNetwork arr) = candidates arr.
Proof.
  unfold candidates. induction arr as [|[n|] r IH].
  - reflexivity.
  - cbn [filter]. rewrite isValidNetwork_hasSsid.
    change (objects (Some n :: r)) with (n :: objects r). cbn [filter].
    destruct (hasSsid n); [|exact IH].
    change (objects (Some n :: filter isValidNetwork r))
      with (n :: objects (filter isValidNetwork r)).
    rewrite IH. reflexivity.
  - exact IH.
Qed.

Lemma validNetworks_perm (arr : list (option Network)) :
  Permutation (validNetworks arr) (candidates arr).
Proof.
  unfold validNetworks. rewrite objects_filter_valid.
  apply (JSFacts.sort_perm sortKey).
Qed.

Lemma validNetworks_sorted_key (arr : list (option Network)) :
  StronglySorted (fun a b => sortKey a >= sortKey b) (validNetworks arr).
Proof. apply (JSFacts.sort_sorted sortKey). Qed.

Lemma validNetworks_stable (k : Z) (arr : list (option Network)) :
  filter (fun n => sortKey n =? k)%Z (validNetworks arr) =
  filter (fun n => sortKey n =? k)%Z (candidates arr).
Proof.
  unfold validNetworks. rewrite objects_filter_valid.
  apply (JSFacts.sort_stable sortKey).
Qed.

Lemma StronglySorted_ext {A} (R R' : A -> A -> Prop) (l : list A) :
  (forall a b, In a l -> In b l -> R a b -> R' a b) ->
  StronglySorted R l -> StronglySorted R' l.
Proof.
  induction l as [|x r IH]; intros Hext Hs.
  - constructor.
  - inversion Hs as [|? ? Hr Hall]; subst. constructor.
    + apply IH; [|exact Hr]. intros a b Ha Hb. apply Hext; right; assumption.
    + rewrite Forall_forall in *. intros b Hb.
      apply Hext; [left; reflexivity | right; exact Hb | apply Hall, Hb].
Qed.

Lemma filter_ext_in_list {A} (f g : A -> bool) (l : list A) :
  (forall a, In a l -> f a = g a) -> filter f l = filter g l.
Proof.
  induction l as [|x r IH]; simpl; intros H; [reflexivity|].
  rewrite (H x (or_introl eq_refl)), IH; [reflexivity|].
  intros a Ha. apply H. right. exact Ha.
Qed.

(** With no rssi of 0 among the candidates, the list is their stable
    sort by decreasing signal. *)
Lemma validNetworks_spec (arr : list (option Network)) :
  (forall n, In n (candidates arr) -> rssi n <> JS.Number 0) ->
  Permutation (validNetworks arr) (candidates arr) /\
  StronglySorted descending (validNetworks arr) /\
  (forall k, filter (fun n => signal n =? k)%Z (validNetworks arr) =
             filter (fun n => signal n =? k)%Z (candidates arr)).
Proof.
  intros Hz. pose proof (validNetworks_perm arr) as Hp.
  assert (Hv : forall n, In n (validNetworks arr) -> sortKey n = signal n).
  { intros n Hn. apply sortKey_signal, Hz. eapply Permutation_in; eassumption. }
  split; [exact Hp|]. split.
  - eapply StronglySorted_ext; [|apply validNetworks_sorted_key].
    intros a b Ha Hb. unfold descending.
    rewrite (Hv a Ha), (Hv b Hb). trivial.
  - intros k.
    rewrite <- (filter_ext_in_list (fun n => sortKey n =? k)%Z).
    + rewrite validNetworks_stable. apply filter_ext_in_list.
      intros n Hn. rewrite sortKey_signal; [reflexivity | apply Hz, Hn].
    + intros n Hn. rewrite Hv; [reflexivity | exact Hn].
Qed.

End Candidates.

(** ** Facts on the release operation and on the parts of the operations *)

#[local] Arguments cleanupWifiListener : simpl never.
#[local] Arguments validNetworks : simpl never.
#[local] Arguments JS.truthy : simpl never.
#[local] Arguments JS.orString : simpl never.
#[local] Arguments JS.toString : simpl never.
#[local] Arguments scanUrl : simpl never.
#[local] Arguments configUrl : simpl never.
#[local] Arguments SCAN_TIMEOUT : simpl never.
#[local] Arguments CONFIGURE_TIMEOUT : simpl never.
#[local] Arguments noNetworksAlert : simpl never.
#[local] Arguments scanTimeoutAlert : simpl never.
#[local] Arguments scanFailedAlert : simpl never.
#[local] Arguments configTimeoutAlert : simpl never.
#[local] Arguments configFailedAlert : simpl never.
#[local] Arguments connectedAlert : simpl never.
#[local] Arguments selectNetworkAlert : simpl never.
#[local] Arguments enterPasswordAlert : simpl never.
#[local] Arguments httpError : simpl never.
#[local] Arguments configurationError : simpl never.
#[local] Arguments AbortError : simpl never.
#[local] Arguments releases : simpl never.
#[local] Arguments released : simpl never.
#[local] Arguments timersReleased : simpl never.

(** Unfolds the operations of the monad and of the environment. *)
Ltac mstep :=
  unfold exec, eval, fetchWithTimeout_begin, fetch, ifMounted, when,
    setMounted, setWifiScanTimerRef, setWifiListenerRef, setCleanupFunctionsRef,
    setWifiNetworks, setSelectedNetwork, setWifiPassword, setIsScanning,
    setShowPassword, setIsConfiguring, setTimeout, clearTimeout, timerFires,
    try_catch, bind, ret, get, modify, emit, throw;
  cbn.

(** Decides the liveness checks of the goal with the equation [H]. *)
Ltac live H := repeat (rewrite H; cbn).

Section Steps.

Lemma forEach_release (l : list Callback) (w : World) :
  forEach (fun cleanup => try_catch (call cleanup) (fun _ => ret tt)) l w =
  (Ok tt, mkWorld (comp w) (timers w) (nextTimer w) (log w ++ map Call l)).
Proof.
  revert w. induction l as [|c r IH]; intros [st ts nx lg]; simpl.
  - rewrite app_nil_r. reflexivity.
  - unfold bind, try_catch, call, bind, emit. simpl.
    destruct (cb_throws c); simpl; rewrite IH; simpl;
      rewrite <- app_assoc; reflexivity.
Qed.

Lemma cleanupWifiListener_run (w : World) :
  cleanupWifiListener w =
  (Ok tt, mkWorld (released (comp w)) (timersReleased w) (nextTimer w)
                  (log w ++ releases (comp w))).
Proof.
  destruct w as [[mo tr lr cf nets sel pw sc sp cfg] ts nx lg].
  unfold cleanupWifiListener, timersReleased, releases, released.
  unfold bind, get. simpl.
  destruct tr as [t|]; destruct lr as [l|]; simpl;
    unfold bind, try_catch, call, bind, emit; simpl;
    try destruct (cb_throws l); simpl;
    rewrite forEach_release; simpl;
    rewrite <- ?app_assoc; reflexivity.
Qed.

Lemma released_idem (st : State) : released (released st) = released st.
Proof. reflexivity. Qed.

Lemma releases_released (st : State) : releases (released st) = [].
Proof. reflexivity. Qed.

Lemma scan_begin_ready (p : Props) (deviceId : option string) (w : World) :
  scanReady p deviceId w ->
  scanWifiNetworksViaHTTP_begin p deviceId w = (Ok (Some (nextTimer w)), scanPending w).
Proof.
  intros (Hd & Hu & Hs & Hm).
  unfold scanWifiNetworksViaHTTP_begin. mstep.
  rewrite Hd, Hu, Hs. cbn.
  rewrite cleanupWifiListener_run. unfold released at 1. cbn. rewrite Hm. mstep.
  unfold scanPending, released, scanOptions. cbn.
  rewrite Hm, <- !app_assoc. reflexivity.
Qed.

Lemma scan_begin_rejected (p : Props) (deviceId : option string) (w : World) :
  JS.truthy deviceId = false \/ isScanning (comp w) = true \/
  JS.truthy (userId p) = false ->
  scanWifiNetworksViaHTTP_begin p deviceId w = (Ok None, w).
Proof.
  intros H. unfold scanWifiNetworksViaHTTP_begin. mstep.
  destruct H as [H|[H|H]]; rewrite H; cbn;
    rewrite ?orb_true_r; reflexivity.
Qed.

Lemma orString_self (s : string) : JS.orString (Some s) "" = s.
Proof.
  unfold JS.orString. destruct (String.eqb_spec s ""); congruence.
Qed.

Lemma configure_begin_ready (p : Props) (selected : Network) (w : World) :
  configureReady p selected w ->
  configureWifiViaHTTP_begin p w =
  (Ok (Some (nextTimer w, selected)), configurePending selected w).
Proof.
  intros (Hd & Hu & Hsel & Hc & Hm & Hpw).
  assert (G : notOpen selected && (wifiPassword (comp w) =? "")%string = false).
  { destruct (notOpen selected); [|reflexivity]. simpl.
    apply String.eqb_neq. apply Hpw. reflexivity. }
  unfold configureWifiViaHTTP_begin. mstep.
  rewrite Hsel, Hd, Hu, Hc. cbn. rewrite G. mstep. rewrite orString_self.
  unfold configurePending, configOptions. cbn.
  rewrite <- app_assoc. reflexivity.
Qed.

End Steps.

Section Settlements.

Lemma fetchWithTimeout_resume_run (timeoutId : nat) (s : Settlement) (w : World) :
  fetchWithTimeout_resume timeoutId s w = (outcome s, settled timeoutId s w).
Proof.
  unfold fetchWithTimeout_resume, awaitFetch, settled, outcome.
  destruct s; mstep; reflexivity.
Qed.

Lemma settled_comp (timeoutId : nat) (s : Settlement) (w : World) :
  comp (settled timeoutId s w) = comp w.
Proof. destruct s; reflexivity. Qed.

Lemma settled_alerts (timeoutId : nat) (s : Settlement) (w : World) :
  alerts (settled timeoutId s w) = alerts w.
Proof.
  unfold alerts. destruct s; unfold settled; mstep;
    rewrite ?filter_app; cbn; rewrite ?app_nil_r; reflexivity.
Qed.

Lemma settled_nextTimer (timeoutId : nat) (s : Settlement) (w : World) :
  nextTimer (settled timeoutId s w) = nextTimer w.
Proof. destruct s; reflexivity. Qed.

Lemma settled_timers (timeoutId : nat) (s : Settlement) (w : World) :
  timers (settled timeoutId s w) = remove Nat.eq_dec timeoutId (timers w).
Proof.
  destruct s; try reflexivity. unfold settled. mstep.
  induction (timers w) as [|x r IH]; cbn; [reflexivity|].
  destruct (Nat.eq_dec timeoutId x) as [E|E]; cbn; [exact IH|].
  destruct (Nat.eq_dec timeoutId x); [contradiction|]. rewrite IH. reflexivity.
Qed.

Lemma scanFails_thrown (s : Settlement) :
  scanFails s = true <-> exists e, scanThrown s = Some e.
Proof.
  unfold scanFails, scanThrown.
  destruct s as [r| |]; cbn; try (split; [eauto|reflexivity]).
  destruct (ok r); cbn; [|split; [eauto|reflexivity]].
  destruct (json r); split; eauto; intros H; try discriminate.
  destruct H; discriminate.
Qed.

Lemma configureFails_thrown (s : Settlement) :
  configureFails s = true <-> exists e, configureThrown s = Some e.
Proof.
  unfold configureFails, configureThrown.
  destruct s as [r| |]; cbn; try (split; [eauto|reflexivity]).
  destruct (ok r); cbn; [|split; [eauto|reflexivity]].
  destruct (json r) as [result|]; [|split; eauto].
  destruct (success result); cbn; split; eauto; intros H; try discriminate.
  destruct H; discriminate.
Qed.

Variables (timeoutId : nat) (w : World).

Lemma settled_mounted (s : Settlement) (b : bool) :
  mountedRef (comp w) = b -> mountedRef (comp (settled timeoutId s w)) = b.
Proof. rewrite settled_comp. trivial. Qed.

Lemma scanTry_throws (s : Settlement) (e : Error) :
  scanThrown s = Some e ->
  scanTry timeoutId s w = (Throw e, settled timeoutId s w).
Proof.
  unfold scanTry, scanThrown. unfold bind at 1.
  rewrite fetchWithTimeout_resume_run.
  destruct (outcome s) as [r|e']; [|congruence].
  destruct (ok r); cbn; [|intros [= <-]; reflexivity].
  unfold bind at 1. destruct (json r); [discriminate|].
  intros [= <-]. reflexivity.
Qed.

Lemma scanTry_returns (s : Settlement) :
  scanThrown s = None ->
  exists w', scanTry timeoutId s w = (Ok tt, w').
Proof.
  unfold scanTry, scanThrown. unfold bind at 1.
  rewrite fetchWithTimeout_resume_run.
  destruct (outcome s) as [r|e']; [|discriminate].
  destruct (ok r); cbn; [|discriminate].
  unfold bind at 1. destruct (json r) as [data|]; [|discriminate].
  intros _. destruct (if success data then networks data else None);
    mstep; destruct (mountedRef _); eexists; reflexivity.
Qed.

Lemma scan_resume_failure (s : Settlement) (e : Error) :
  mountedRef (comp w) = true ->
  scanThrown s = Some e ->
  scanWifiNetworksViaHTTP_resume timeoutId s w =
  (Ok tt,
   exec (setIsScanning false;;
         emit (if (name e =? "AbortError")%string
               then scanTimeoutAlert else scanFailedAlert e))
        (settled timeoutId s w)).
Proof.
  intros Hm He. apply (settled_mounted s) in Hm. unfold scanWifiNetworksViaHTTP_resume, try_catch.
  rewrite (scanTry_throws s e He). unfold scanCatch. mstep.
  live Hm.
  destruct (name e =? "AbortError")%string; reflexivity.
Qed.

Lemma scan_resume_networks (r : Response) (data : Body)
    (arr : list (option Network)) :
  mountedRef (comp w) = true ->
  ok r = true -> json r = Ok data ->
  success data = true -> networks data = Some arr ->
  scanWifiNetworksViaHTTP_resume timeoutId (Fulfilled r) w =
  (Ok tt,
   exec (setWifiNetworks (validNetworks arr);; setIsScanning false)
        (settled timeoutId (Fulfilled r) w)).
Proof.
  intros Hm Hok Hj Hs Hn.
  unfold scanWifiNetworksViaHTTP_resume, try_catch, scanTry.
  unfold bind at 1. rewrite fetchWithTimeout_resume_run. cbn.
  rewrite Hok. cbn. unfold bind at 1. rewrite Hj, Hs, Hn. mstep.
  live Hm. reflexivity.
Qed.

Lemma scan_resume_empty (r : Response) (data : Body) :
  mountedRef (comp w) = true ->
  ok r = true -> json r = Ok data ->
  success data = false \/ networks data = None ->
  scanTry timeoutId (Fulfilled r) w =
  (Ok tt, exec (setIsScanning false;; emit noNetworksAlert)
               (settled timeoutId (Fulfilled r) w)) /\
  scanWifiNetworksViaHTTP_resume timeoutId (Fulfilled r) w =
  (Ok tt, exec (setIsScanning false;; emit noNetworksAlert)
               (settled timeoutId (Fulfilled r) w)).
Proof.
  intros Hm Hok Hj Hs.
  assert (E : (if success data then networks data else None) = None).
  { destruct Hs as [-> | Hn]; [reflexivity|]. rewrite Hn.
    destruct (success data); reflexivity. }
  unfold scanWifiNetworksViaHTTP_resume, try_catch, scanTry.
  unfold bind at 1. rewrite fetchWithTimeout_resume_run. cbn.
  rewrite Hok. cbn. unfold bind at 1. rewrite Hj, E. mstep.
  live Hm. split; reflexivity.
Qed.

Lemma scan_resume_unmounted (s : Settlement) :
  mountedRef (comp w) = false ->
  scanWifiNetworksViaHTTP_resume timeoutId s w = (Ok tt, settled timeoutId s w).
Proof.
  intros Hm. apply (settled_mounted s) in Hm. unfold scanWifiNetworksViaHTTP_resume, try_catch, scanTry.
  unfold bind at 1. rewrite fetchWithTimeout_resume_run.
  destruct (outcome s) as [r|e].
  - destruct (ok r); cbn.
    + unfold bind at 1. destruct (json r) as [data|e].
      * destruct (if success data then networks data else None);
          mstep; live Hm; reflexivity.
      * unfold scanCatch. mstep. live Hm. reflexivity.
    + unfold scanCatch. mstep. live Hm. reflexivity.
  - unfold scanCatch. mstep. live Hm. reflexivity.
Qed.

Variable selected : Network.

Lemma configureTry_throws (s : Settlement) (e : Error) :
  configureThrown s = Some e ->
  configureTry timeoutId selected s w = (Throw e, settled timeoutId s w).
Proof.
  unfold configureTry, configureThrown. unfold bind at 1.
  rewrite fetchWithTimeout_resume_run.
  destruct (outcome s) as [r|e']; [|congruence].
  destruct (ok r); cbn; [|intros [= <-]; reflexivity].
  unfold bind at 1. destruct (json r) as [result|].
  - destruct (success result); [discriminate|]. intros [= <-]. reflexivity.
  - intros [= <-]. reflexivity.
Qed.

Lemma configureTry_returns (s : Settlement) :
  configureThrown s = None ->
  exists w', configureTry timeoutId selected s w = (Ok tt, w').
Proof.
  unfold configureTry, configureThrown. unfold bind at 1.
  rewrite fetchWithTimeout_resume_run.
  destruct (outcome s) as [r|e']; [|discriminate].
  destruct (ok r); cbn; [|discriminate].
  unfold bind at 1. destruct (json r) as [result|]; [|discriminate].
  destruct (success result); [|discriminate].
  intros _. mstep. destruct (mountedRef _); eexists; reflexivity.
Qed.

Lemma configure_resume_failure (s : Settlement) (e : Error) :
  mountedRef (comp w) = true ->
  configureThrown s = Some e ->
  configureWifiViaHTTP_resume timeoutId selected s w =
  (Ok tt,
   exec (setIsConfiguring false;;
         emit (if (name e =? "AbortError")%string
               then configTimeoutAlert else configFailedAlert e))
        (settled timeoutId s w)).
Proof.
  intros Hm He. apply (settled_mounted s) in Hm. unfold configureWifiViaHTTP_resume, try_catch.
  rewrite (configureTry_throws s e He). unfold configureCatch. mstep.
  live Hm.
  destruct (name e =? "AbortError")%string; reflexivity.
Qed.

Lemma configure_resume_success (r : Response) (result : Body) :
  mountedRef (comp w) = true ->
  ok r = true -> json r = Ok result -> success result = true ->
  configureWifiViaHTTP_resume timeoutId selected (Fulfilled r) w =
  (Ok tt,
   exec (setIsConfiguring false;; emit (connectedAlert selected))
        (settled timeoutId (Fulfilled r) w)).
Proof.
  intros Hm Hok Hj Hs.
  unfold configureWifiViaHTTP_resume, try_catch, configureTry.
  unfold bind at 1. rewrite fetchWithTimeout_resume_run. cbn.
  rewrite Hok. cbn. unfold bind at 1. rewrite Hj, Hs. mstep.
  live Hm. reflexivity.
Qed.

Lemma configure_resume_unmounted (s : Settlement) :
  mountedRef (comp w) = false ->
  configureWifiViaHTTP_resume timeoutId selected s w =
  (Ok tt, settled timeoutId s w).
Proof.
  intros Hm. apply (settled_mounted s) in Hm. unfold configureWifiViaHTTP_resume, try_catch, configureTry.
  unfold bind at 1. rewrite fetchWithTimeout_resume_run.
  destruct (outcome s) as [r|e].
  - destruct (ok r); cbn.
    + unfold bind at 1. destruct (json r) as [result|e].
      * destruct (success result); unfold configureCatch; mstep;
          live Hm; reflexivity.
      * unfold configureCatch. mstep. live Hm. reflexivity.
    + unfold configureCatch. mstep. live Hm. reflexivity.
  - unfold configureCatch. mstep. live Hm. reflexivity.
Qed.

End Settlements.

(** ** Whole runs of the two operations *)

Lemma releases_invisible (st : State) : filter visible (releases st) = [].
Proof.
  unfold releases. rewrite !filter_app.
  destruct (wifiScanTimerRef st), (wifiListenerRef st); cbn;
    induction (cleanupFunctionsRef st); cbn; auto.
Qed.

Lemma releases_no_request (st : State) : filter isFetch (releases st) = [].
Proof.
  unfold releases. rewrite !filter_app.
  destruct (wifiScanTimerRef st), (wifiListenerRef st); cbn;
    induction (cleanupFunctionsRef st); cbn; auto.
Qed.

(** Computes the alerts and the requests of a log. *)
Ltac log_simpl :=
  unfold alerts, requests; cbn;
  rewrite ?filter_app, ?releases_invisible, ?releases_no_request; cbn;
  rewrite ?app_nil_r, <- ?app_assoc; cbn.

Section Runs.

Lemma scanPending_alerts (w : World) : alerts (scanPending w) = alerts w.
Proof.
  unfold alerts, scanPending. cbn.
  rewrite !filter_app, releases_invisible. cbn. rewrite app_nil_r. reflexivity.
Qed.

Lemma configurePending_alerts (selected : Network) (w : World) :
  alerts (configurePending selected w) = alerts w.
Proof.
  unfold alerts, configurePending. cbn.
  rewrite !filter_app. cbn. rewrite app_nil_r. reflexivity.
Qed.

Variables (p : Props) (w : World).

Lemma scan_run (deviceId : option string) (b : FetchBehaviour) :
  scanReady p deviceId w ->
  scan p deviceId b false w =
  scanWifiNetworksViaHTTP_resume (nextTimer w) (settle SCAN_TIMEOUT b) (scanPending w).
Proof.
  intros H. unfold scan. unfold bind at 1.
  rewrite (scan_begin_ready _ _ _ H). reflexivity.
Qed.


Lemma configure_run (selected : Network) (b : FetchBehaviour) :
  configureReady p selected w ->
  configure p b false w =
  configureWifiViaHTTP_resume (nextTimer w) selected
    (settle CONFIGURE_TIMEOUT b) (configurePending selected w).
Proof.
  intros H. unfold configure. unfold bind at 1.
  rewrite (configure_begin_ready _ _ _ H). reflexivity.
Qed.

Lemma scanPending_mounted : mountedRef (comp (scanPending w)) = true.
Proof. reflexivity. Qed.

Lemma configurePending_mounted (selected : Network) :
  mountedRef (comp w) = true ->
  mountedRef (comp (configurePending selected w)) = true.
Proof. trivial. Qed.

Lemma ok_2xx (r : Response) : ok r = true <-> 200 <= status r <= 299.
Proof. unfold ok. rewrite andb_true_iff, !Z.leb_le. tauto. Qed.

Lemma settle_in_time (timeout t : Z) (r : Response) :
  t <= timeout -> settle timeout (Resolves t r) = Fulfilled r.
Proof. intros H. cbn. apply Z.leb_le in H. rewrite H. reflexivity. Qed.

Lemma settle_rejected (timeout t : Z) (e : Error) :
  t <= timeout -> settle timeout (Rejects t e) = Rejected e.
Proof. intros H. cbn. apply Z.leb_le in H. rewrite H. reflexivity. Qed.

Lemma settle_unsettled (timeout : Z) (b : FetchBehaviour) :
  unsettledAfter timeout b -> settle timeout b = TimedOut.
Proof.
  destruct b as [t r|t e|]; cbn; intros H; try reflexivity;
    apply Z.leb_gt in H; rewrite H; reflexivity.
Qed.

End Runs.

Example scenario1_exposed :
  wifiNetworks (comp (exec (scan sampleProps (Some "meter-01") (Resolves 1200 scenario1) false)
                           initialWorld)) = [home; guest].
Proof. reflexivity. Qed.

(** ** C1: the candidate list of a successful scan, and the rssi of 0 *)

(** C1. The code at a response that reports an rssi of 0. The device
    answers in time with a 2xx response, [success] true and the array of
    Roof (rssi 0) and Cafe (rssi -65). The comparator reads the rssi of
    Roof as [0 || -100], that is -100: the list exposed to the caller is
    Cafe, then Roof, which is not in decreasing order of rssi, although no
    rssi is missing. The list item of the same file reads the same rssi as
    the strongest signal: it labels Roof Excellent and Cafe Fair. *)
Theorem scan_zero_rssi_misordered :
  let roof := mkNetwork (Some "Roof") (JS.Number 0) (Some "WPA2") in
  let cafe := mkNetwork (Some "Cafe") (JS.Number (-65)) (Some "WPA2") in
  let r := mkResponse 200 "OK" (Ok (mkBody true (Some [Some roof; Some cafe]) None)) in
  let w' := exec (scan sampleProps (Some "meter-01") (Resolves 1200 r) false)
                 initialWorld in
  wifiNetworks (comp w') = [cafe; roof] /\
  signal cafe < signal roof /\
  ~ StronglySorted descending (wifiNetworks (comp w')) /\
  JS.orNumber (rssi roof) (-100) = -100 /\
  strength (getSignalStrength (rssi roof)) = "Excellent" /\
  strength (getSignalStrength (rssi cafe)) = "Fair".
Proof.
  cbv zeta. split; [reflexivity|]. split; [reflexivity|]. split.
  - intros H. inversion H as [|? ? _ Hall]; subst.
    inversion Hall as [|? ? Hd _]; subst.
    unfold descending, signal in Hd. simpl in Hd. lia.
  - repeat split; reflexivity.
Qed.

(** ** C2: a secured network needs a password *)

Lemma notOpen_true (n : Network) : encryption n <> Some "OPEN" -> notOpen n = true.
Proof.
  unfold notOpen. destruct (encryption n) as [e|]; [|reflexivity].
  intros H. destruct (String.eqb_spec e "OPEN") as [->|]; [contradiction H|]; reflexivity.
Qed.

(** C2. A call of configure with a selected network whose encryption is
    not OPEN and an empty password stops at a guard: it issues no request
    and sets no timer, it leaves the component as it is, and it reports one
    alert titled Error, which is the password alert when the device, the
    session and the in-flight flag allow a configuration. *)
Theorem configure_requires_password
    (p : Props) (w : World) (selected : Network) (b : FetchBehaviour)
    (tornDown : bool) :
  selectedNetwork (comp w) = Some selected ->
  encryption selected <> Some "OPEN" ->
  wifiPassword (comp w) = "" ->
  let w' := exec (configure p b tornDown) w in
  eval (configureWifiViaHTTP_begin p) w = Ok None /\
  comp w' = comp w /\
  timers w' = timers w /\
  nextTimer w' = nextTimer w /\
  requests w' = requests w /\
  filter isSetTimeout (log w') = filter isSetTimeout (log w) /\
  (exists msg, log w' = log w ++ [Alert "Error" msg]) /\
  (JS.truthy (deviceIdOf p) = true -> JS.truthy (userId p) = true ->
   isConfiguring (comp w) = false -> log w' = log w ++ [enterPasswordAlert]).
Proof.
  intros Hsel Henc Hpw w'. subst w'.
  apply notOpen_true in Henc.
  unfold configure, configureWifiViaHTTP_begin. mstep.
  rewrite Hsel, Henc, Hpw. cbn.
  destruct (negb (JS.truthy (deviceIdOf p)) || isConfiguring (comp w)
            || negb (JS.truthy (userId p))) eqn:G; cbn.
  - repeat split; try reflexivity.
    + log_simpl. reflexivity.
    + rewrite filter_app. cbn. rewrite app_nil_r. reflexivity.
    + eexists. reflexivity.
    + intros Hd Hu Hc. rewrite Hd, Hu, Hc in G. discriminate G.
  - repeat split; try reflexivity.
    + log_simpl. reflexivity.
    + rewrite filter_app. cbn. rewrite app_nil_r. reflexivity.
    + eexists. reflexivity.
Qed.

(** The third end-to-end scenario of the specification. *)
Lemma configure_requires_password_witness :
  let w := exec (setSelectedNetwork (Some home)) initialWorld in
  let w' := exec (configure sampleProps (Resolves 900 scenario1) false) w in
  comp w' = comp w /\ requests w' = [] /\ log w' = [enterPasswordAlert].
Proof.
  pose proof (configure_requires_password sampleProps
                (exec (setSelectedNetwork (Some home)) initialWorld) home
                (Resolves 900 scenario1) false eq_refl) as H.
  cbv zeta in H.
  destruct H as (_ & Hc & _ & _ & Hr & _ & _ & Hl).
  - discriminate.
  - reflexivity.
  - split; [exact Hc|]. split; [exact Hr|].
    apply Hl; reflexivity.
Defined.

(** ** C3: a 2xx response whose body has [success] false *)

(** C3, as amended. On a live flow, a 2xx response with [success] false
    ends a scan without an error: the [try] block returns, the caller gets
    the No Networks Found alert, scanning ends false and the list is
    empty. The same response fails a configuration: the [try] block throws
    an error whose message is the [error] field of the body when it is
    present and not empty, and Configuration failed when it is absent or
    empty; the caller gets the Configuration Failed alert with that
    message and configuring ends false. *)
Theorem success_false_asymmetry
    (p : Props) (deviceId : option string) (w : World) (selected : Network)
    (t : Z) (r : Response) (result : Body) :
  200 <= status r <= 299 ->
  json r = Ok result ->
  success result = false ->
  (scanReady p deviceId w -> t <= SCAN_TIMEOUT ->
   let w' := exec (scan p deviceId (Resolves t r) false) w in
   eval (scanTry (nextTimer w) (Fulfilled r)) (scanPending w) = Ok tt /\
   alerts w' = alerts w ++ [noNetworksAlert] /\
   isScanning (comp w') = false /\
   wifiNetworks (comp w') = []) /\
  (configureReady p selected w -> t <= CONFIGURE_TIMEOUT ->
   let w' := exec (configure p (Resolves t r) false) w in
   exists e,
     eval (configureTry (nextTimer w) selected (Fulfilled r))
          (configurePending selected w) = Throw e /\
     name e = "Error" /\
     (forall m, error result = Some m -> m <> "" -> message e = m) /\
     (error result = None \/ error result = Some "" ->
      message e = "Configuration failed") /\
     alerts w' = alerts w ++ [configFailedAlert e] /\
     isConfiguring (comp w') = false).
Proof.
  intros Hok Hj Hs. apply ok_2xx in Hok. split.
  - intros Hr Ht w'. subst w'. unfold exec, eval.
    rewrite (scan_run _ _ _ _ Hr), (settle_in_time _ _ _ Ht).
    destruct (scan_resume_empty (nextTimer w) (scanPending w) r result
                (scanPending_mounted w) Hok Hj (or_introl Hs)) as [Ety Ers].
    rewrite Ety, Ers. cbn. repeat split. log_simpl. reflexivity.
  - intros Hr Ht w'. subst w'. unfold exec, eval.
    rewrite (configure_run _ _ _ _ Hr), (settle_in_time _ _ _ Ht).
    assert (Hthrown : configureThrown (Fulfilled r) = Some (configurationError result)).
    { unfold configureThrown. cbn. rewrite Hok, Hj, Hs. reflexivity. }
    exists (configurationError result).
    rewrite (configureTry_throws _ _ _ _ _ Hthrown).
    assert (Hm : mountedRef (comp (configurePending selected w)) = true).
    { apply configurePending_mounted. apply Hr. }
    rewrite (configure_resume_failure _ _ _ _ _ Hm Hthrown).
    cbn. repeat split.
    + intros m Hm' Hne. unfold configurationError, JS.orString. cbn.
      rewrite Hm'. destruct (String.eqb_spec m ""); [contradiction|reflexivity].
    + intros [He|He]; unfold configurationError, JS.orString; cbn;
        rewrite He; reflexivity.
    + log_simpl. reflexivity.
Qed.

(** The second end-to-end scenario of the specification, and the same
    body answered to a configuration of the open network. *)
Lemma success_false_asymmetry_witness :
  let r := mkResponse 200 "OK" (Ok (mkBody false None (Some "Wrong password"))) in
  let w := exec (setSelectedNetwork (Some guest)) initialWorld in
  alerts (exec (scan sampleProps (Some "meter-01") (Resolves 1200 r) false) w) =
    [noNetworksAlert] /\
  alerts (exec (configure sampleProps (Resolves 1200 r) false) w) =
    [configFailedAlert (mkError "Error" "Wrong password")].
Proof.
  pose proof (success_false_asymmetry sampleProps (Some "meter-01")
                (exec (setSelectedNetwork (Some guest)) initialWorld) guest 1200
                (mkResponse 200 "OK" (Ok (mkBody false None (Some "Wrong password"))))
                (mkBody false None (Some "Wrong password"))) as H.
  destruct H as [Hscan Hconf].
  - simpl. lia.
  - reflexivity.
  - reflexivity.
  - split.
    + apply Hscan; [repeat split; reflexivity | unfold SCAN_TIMEOUT; lia].
    + destruct Hconf as (e & _ & Hname & Hmsg & _ & Ha & _).
      * repeat split; try reflexivity. discriminate.
      * unfold CONFIGURE_TIMEOUT. lia.
      * rewrite Ha. destruct e as [n m]. simpl in Hname. subst n.
        specialize (Hmsg "Wrong password" eq_refl). simpl in Hmsg.
        rewrite Hmsg; [reflexivity|discriminate].
Defined.

(** The claim as written fails on a body whose [error] field is present
    and empty: the message is the generic one, not the field. *)
Lemma configure_empty_error_counterexample :
  let result := mkBody false None (Some "") in
  let r := mkResponse 200 "OK" (Ok result) in
  let w := exec (setSelectedNetwork (Some guest)) initialWorld in
  let w' := exec (configure sampleProps (Resolves 1200 r) false) w in
  error result = Some "" /\
  alerts w' = [configFailedAlert (mkError "Error" "Configuration failed")] /\
  alerts w' <> [configFailedAlert (mkError "Error" "")].
Proof.
  cbv zeta. split; [reflexivity|]. split; [reflexivity|].
  intros H. discriminate H.
Qed.

(** ** C4: the state after a failure *)

Lemma pending_timer_gone (timeoutId : nat) (s : Settlement) (w : World) :
  ~ In timeoutId (timers (settled timeoutId s w)).
Proof. rewrite settled_timers. apply remove_In. Qed.

(** C4, as amended. On a live flow, every failure path of a scan (the
    request rejected or aborted, a status out of 2xx, a body that does not
    parse) ends with scanning false, an empty networks list, which was
    emptied when the scan started, the rest of the React state as before
    the scan, the timer of the request no longer pending, and one alert.
    Every failure path of a configuration (the same, or a body with
    [success] false) ends with the component as before the call,
    configuring false, the timer of the request no longer pending, and one
    alert. *)
Theorem failure_leaves_idle
    (p : Props) (deviceId : option string) (w : World) (selected : Network)
    (b : FetchBehaviour) :
  (scanReady p deviceId w ->
   scanFails (settle SCAN_TIMEOUT b) = true ->
   let w' := exec (scan p deviceId b false) w in
   isScanning (comp w') = false /\
   wifiNetworks (comp w') = [] /\
   reactState (comp w') =
     ([], selectedNetwork (comp w), wifiPassword (comp w), false,
      showPassword (comp w), isConfiguring (comp w)) /\
   ~ In (nextTimer w) (timers w') /\
   exists a, alerts w' = alerts w ++ [a]) /\
  (configureReady p selected w ->
   configureFails (settle CONFIGURE_TIMEOUT b) = true ->
   let w' := exec (configure p b false) w in
   isConfiguring (comp w') = false /\
   comp w' = comp w /\
   ~ In (nextTimer w) (timers w') /\
   exists a, alerts w' = alerts w ++ [a]).
Proof.
  split.
  - intros Hr Hf w'. subst w'. unfold exec.
    apply scanFails_thrown in Hf as [e He].
    rewrite (scan_run _ _ _ _ Hr).
    rewrite (scan_resume_failure _ _ _ e (scanPending_mounted w) He).
    set (s := settle SCAN_TIMEOUT b) in *.
    mstep. rewrite !settled_comp. cbn. repeat split.
    + apply pending_timer_gone.
    + exists (if (name e =? "AbortError")%string
              then scanTimeoutAlert else scanFailedAlert e).
      unfold alerts at 1. cbn. rewrite filter_app.
      fold (alerts (settled (nextTimer w) s (scanPending w))).
      rewrite settled_alerts, scanPending_alerts.
      destruct (name e =? "AbortError")%string; reflexivity.
  - intros Hr Hf w'. subst w'. unfold exec.
    apply configureFails_thrown in Hf as [e He].
    rewrite (configure_run _ _ _ _ Hr).
    assert (Hm : mountedRef (comp (configurePending selected w)) = true).
    { apply configurePending_mounted. apply Hr. }
    rewrite (configure_resume_failure _ _ _ _ e Hm He).
    set (s := settle CONFIGURE_TIMEOUT b) in *.
    mstep. rewrite !settled_comp. cbn. repeat split.
    + destruct Hr as (_ & _ & _ & Hc & _). rewrite <- Hc.
      destruct (comp w). reflexivity.
    + apply pending_timer_gone.
    + exists (if (name e =? "AbortError")%string
              then configTimeoutAlert else configFailedAlert e).
      unfold alerts at 1. cbn. rewrite filter_app.
      fold (alerts (settled (nextTimer w) s (configurePending selected w))).
      rewrite settled_alerts, configurePending_alerts.
      destruct (name e =? "AbortError")%string; reflexivity.
Qed.

Lemma failure_leaves_idle_witness :
  let w := exec (setSelectedNetwork (Some guest)) initialWorld in
  isScanning (comp (exec (scan sampleProps (Some "meter-01") (Rejects 40 networkFailure) false) w))
    = false /\
  comp (exec (configure sampleProps (Rejects 40 networkFailure) false) w) = comp w.
Proof.
  destruct (failure_leaves_idle sampleProps (Some "meter-01")
              (exec (setSelectedNetwork (Some guest)) initialWorld) guest
              (Rejects 40 networkFailure)) as [Hscan Hconf].
  split.
  - apply Hscan; [repeat split; reflexivity | reflexivity].
  - apply Hconf; [|reflexivity].
    repeat split; try reflexivity. discriminate.
Defined.

(** The claim as written fails on a failed scan that follows a successful
    one: the list of the first scan is gone, the state is not as it was
    before the failed scan. *)
Lemma failed_scan_counterexample :
  let w := exec (scan sampleProps (Some "meter-01") (Resolves 1200 scenario1) false)
                initialWorld in
  let w' := exec (scan sampleProps (Some "meter-01") (Rejects 40 networkFailure) false) w in
  isScanning (comp w) = false /\
  wifiNetworks (comp w) = [home; guest] /\
  isScanning (comp w') = false /\
  wifiNetworks (comp w') = [] /\
  reactState (comp w') <> reactState (comp w).
Proof.
  cbv zeta. repeat split. intros H. discriminate H.
Qed.

(** The write that empties the list: it is in the first part of the scan,
    before the request is issued. *)
Example scan_begin_clears_networks :
  wifiNetworks (comp (exec (scanWifiNetworksViaHTTP_begin sampleProps (Some "meter-01"))
                           (exec (setWifiNetworks [home; guest]) initialWorld))) = [].
Proof. reflexivity. Qed.

(** ** C5: no mutation after teardown *)

Lemma unmount_run (w : World) :
  unmount w =
  (Ok tt, exec cleanupWifiListener (exec (setMounted false) w)).
Proof.
  unfold unmount. unfold bind, exec. cbn.
  rewrite cleanupWifiListener_run. reflexivity.
Qed.

Lemma unmount_not_mounted (w : World) : mountedRef (comp (exec unmount w)) = false.
Proof.
  unfold exec at 1. rewrite unmount_run. cbn. unfold exec at 1.
  rewrite cleanupWifiListener_run. reflexivity.
Qed.

Lemma connectedOkPressed_unmounted (w : World) :
  mountedRef (comp w) = false -> connectedOkPressed w = (Ok tt, w).
Proof.
  intros Hm. unfold connectedOkPressed. mstep. rewrite Hm. reflexivity.
Qed.

Lemma scan_resume_torn (timeoutId : nat) (s : Settlement) (w : World) :
  mountedRef (comp w) = false ->
  comp (exec (scanWifiNetworksViaHTTP_resume timeoutId s) w) = comp w /\
  alerts (exec (scanWifiNetworksViaHTTP_resume timeoutId s) w) = alerts w.
Proof.
  intros Hm. unfold exec. rewrite (scan_resume_unmounted _ _ _ Hm). cbn.
  split; [apply settled_comp | apply settled_alerts].
Qed.

Lemma configure_resume_torn (timeoutId : nat) (selected : Network)
    (s : Settlement) (w : World) :
  mountedRef (comp w) = false ->
  comp (exec (configureWifiViaHTTP_resume timeoutId selected s) w) = comp w /\
  alerts (exec (configureWifiViaHTTP_resume timeoutId selected s) w) = alerts w.
Proof.
  intros Hm. unfold exec. rewrite (configure_resume_unmounted _ _ _ _ Hm). cbn.
  split; [apply settled_comp | apply settled_alerts].
Qed.

Lemma scan_torn_run (p : Props) (deviceId : option string) (b : FetchBehaviour)
    (w : World) :
  scanReady p deviceId w ->
  exec (scan p deviceId b true) w =
  exec (scanWifiNetworksViaHTTP_resume (nextTimer w) (settle SCAN_TIMEOUT b))
    (exec unmount (scanPending w)).
Proof.
  intros Hr. unfold scan, exec. unfold bind at 1.
  rewrite (scan_begin_ready _ _ _ Hr). cbn [when]. unfold bind at 1.
  destruct (unmount (scanPending w)) as [res u] eqn:E.
  rewrite unmount_run in E. inversion E; subst. reflexivity.
Qed.

Lemma configure_torn_run (p : Props) (selected : Network) (b : FetchBehaviour)
    (w : World) :
  configureReady p selected w ->
  exec (configure p b true) w =
  exec (configureWifiViaHTTP_resume (nextTimer w) selected (settle CONFIGURE_TIMEOUT b))
    (exec unmount (configurePending selected w)).
Proof.
  intros Hr. unfold configure, exec. unfold bind at 1.
  rewrite (configure_begin_ready _ _ _ Hr). cbn [when]. unfold bind at 1.
  destruct (unmount (configurePending selected w)) as [res u] eqn:E.
  rewrite unmount_run in E. inversion E; subst. reflexivity.
Qed.

(** C5, as amended. Once the component is unmounted (the unmount effect
    has cleared the liveness flag and run the release operation), the
    continuation of a
    scan, that of a configuration and the OK handler of the success alert
    leave the component and what the caller was told as they are, whatever
    the settlement of the request; so does a whole run in which the flow is
    torn down while the request is outstanding. *)
Theorem no_mutation_after_teardown
    (p : Props) (deviceId : option string) (w0 : World)
    (timeoutId : nat) (selected : Network) (s : Settlement) (b : FetchBehaviour) :
  let w := exec unmount w0 in
  (comp (exec (scanWifiNetworksViaHTTP_resume timeoutId s) w) = comp w /\
   alerts (exec (scanWifiNetworksViaHTTP_resume timeoutId s) w) = alerts w) /\
  (comp (exec (configureWifiViaHTTP_resume timeoutId selected s) w) = comp w /\
   alerts (exec (configureWifiViaHTTP_resume timeoutId selected s) w) = alerts w) /\
  exec connectedOkPressed w = w /\
  (scanReady p deviceId w0 ->
   let torn := exec unmount (scanPending w0) in
   comp (exec (scan p deviceId b true) w0) = comp torn /\
   alerts (exec (scan p deviceId b true) w0) = alerts torn) /\
  (configureReady p selected w0 ->
   let torn := exec unmount (configurePending selected w0) in
   comp (exec (configure p b true) w0) = comp torn /\
   alerts (exec (configure p b true) w0) = alerts torn).
Proof.
  intros w. pose proof (unmount_not_mounted w0) as Hm. fold w in Hm.
  split; [|split; [|split; [|split]]].
  - apply scan_resume_torn, Hm.
  - apply configure_resume_torn, Hm.
  - unfold exec at 1. rewrite (connectedOkPressed_unmounted _ Hm). reflexivity.
  - intros Hr torn. rewrite (scan_torn_run _ _ _ _ Hr). fold torn.
    apply scan_resume_torn, unmount_not_mounted.
  - intros Hr torn. rewrite (configure_torn_run _ _ _ _ Hr). fold torn.
    apply configure_resume_torn, unmount_not_mounted.
Qed.

(** The fifth of the testable properties: the response of the first
    scenario arrives after the flow was torn down. *)
Lemma no_mutation_after_teardown_witness :
  let w' := exec (scan sampleProps (Some "meter-01") (Resolves 1200 scenario1) true)
                 initialWorld in
  let w'' := exec (configure sampleProps (Resolves 1200 scenario1) true)
                  (exec (setSelectedNetwork (Some guest)) initialWorld) in
  (wifiNetworks (comp w') = [] /\ alerts w' = []) /\
  (isConfiguring (comp w'') = true /\ alerts w'' = []).
Proof.
  destruct (no_mutation_after_teardown sampleProps (Some "meter-01") initialWorld
              1 guest TimedOut (Resolves 1200 scenario1))
    as (_ & _ & _ & Hscan & _).
  destruct (no_mutation_after_teardown sampleProps (Some "meter-01")
              (exec (setSelectedNetwork (Some guest)) initialWorld)
              1 guest TimedOut (Resolves 1200 scenario1))
    as (_ & _ & _ & _ & Hconf).
  cbv zeta in *. split.
  - destruct Hscan as [Hc Ha]; [repeat split; reflexivity|].
    rewrite Hc, Ha. split; reflexivity.
  - destruct Hconf as [Hc Ha]; [repeat split; try reflexivity; discriminate|].
    rewrite Hc, Ha. split; reflexivity.
Defined.

(** The claim as written fails when the flow is closed and the component
    stays mounted: [handleClose] resets the state and calls [onClose], and
    leaves the liveness flag set. A scan that was outstanding when the flow
    was closed then fills the list that the close had emptied, and a
    configuration that fails after the close writes its flag and raises
    its alert, after [onClose]. *)
Lemma close_is_not_teardown_counterexample :
  let closedScan :=
    exec (scanWifiNetworksViaHTTP_begin sampleProps (Some "meter-01");; handleClose)
         initialWorld in
  let afterScan :=
    exec (scanWifiNetworksViaHTTP_resume 1 (Fulfilled scenario1)) closedScan in
  let closedConfigure :=
    exec (configureWifiViaHTTP_begin sampleProps;; handleClose)
         (exec (setSelectedNetwork (Some guest)) initialWorld) in
  let afterConfigure :=
    exec (configureWifiViaHTTP_resume 1 guest (Fulfilled serverError)) closedConfigure in
  (alerts closedScan = [OnClose] /\
   mountedRef (comp closedScan) = true /\
   wifiNetworks (comp closedScan) = [] /\
   wifiNetworks (comp afterScan) = [home; guest] /\
   comp afterScan <> comp closedScan) /\
  (alerts closedConfigure = [OnClose] /\
   mountedRef (comp closedConfigure) = true /\
   isConfiguring (comp closedConfigure) = true /\
   isConfiguring (comp afterConfigure) = false /\
   alerts afterConfigure = [OnClose; configFailedAlert (httpError serverError)]).
Proof.
  cbv zeta. split.
  - repeat split; try reflexivity. discriminate.
  - repeat split; reflexivity.
Qed.

(** ** C6: a scan that is not allowed to start *)




(** ** C7: the time bound of a request *)

Lemma releases_no_abort (st : State) : filter isAbort (releases st) = [].
Proof.
  unfold releases. rewrite !filter_app.
  destruct (wifiScanTimerRef st), (wifiListenerRef st); cbn;
    induction (cleanupFunctionsRef st); cbn; auto.
Qed.

Ltac aborts_simpl :=
  unfold aborts; cbn;
  rewrite ?filter_app, ?releases_no_abort; cbn;
  rewrite ?app_nil_r, <- ?app_assoc; cbn.

Lemma releases_no_timer (st : State) : filter isSetTimeout (releases st) = [].
Proof.
  unfold releases. rewrite !filter_app.
  destruct (wifiScanTimerRef st), (wifiListenerRef st); cbn;
    induction (cleanupFunctionsRef st); cbn; auto.
Qed.

(** What a continuation adds to the log: the abort of the timer when it
    has expired, then events that are alerts or [clearTimeout]. *)
Section ResumeLog.

Variable f : Event -> bool.
Hypothesis f_alert : forall title msg, f (Alert title msg) = false.
Hypothesis f_clear : forall id, f (ClearTimeout id) = false.

Lemma settled_filter (timeoutId : nat) (s : Settlement) (w : World) :
  filter f (log (settled timeoutId s w)) =
  filter f (log w) ++
  filter f (match s with TimedOut => [Abort timeoutId] | _ => [] end).
Proof.
  destruct s; unfold settled; mstep; rewrite ?filter_app; cbn;
    rewrite f_clear, ?app_nil_r; reflexivity.
Qed.

Lemma scan_resume_filter (timeoutId : nat) (s : Settlement) (w : World) :
  filter f (log (exec (scanWifiNetworksViaHTTP_resume timeoutId s) w)) =
  filter f (log w) ++
  filter f (match s with TimedOut => [Abort timeoutId] | _ => [] end).
Proof.
  unfold exec.
  assert (Hm : {mountedRef (comp w) = true} + {mountedRef (comp w) = false})
    by (destruct (mountedRef (comp w)); auto).
  destruct Hm as [Hm|Hm].
  - destruct (scanThrown s) as [e|] eqn:Ht.
    + rewrite (scan_resume_failure _ _ _ e Hm Ht). mstep.
      rewrite filter_app, settled_filter.
      destruct (name e =? "AbortError")%string;
        unfold scanTimeoutAlert, scanFailedAlert; cbn;
        rewrite f_alert; apply app_nil_r.
    + unfold scanThrown in Ht. destruct s as [r| |]; cbn in Ht; try discriminate.
      destruct (ok r) eqn:Hok; [|discriminate].
      destruct (json r) as [data|] eqn:Hj; [|discriminate].
      assert (Hempty : success data = false \/ networks data = None ->
                filter f (log (snd (scanWifiNetworksViaHTTP_resume timeoutId
                                      (Fulfilled r) w))) =
                filter f (log w) ++ filter f []).
      { intros H.
        destruct (scan_resume_empty timeoutId w r data Hm Hok Hj H) as [_ E].
        rewrite E. mstep. rewrite !filter_app. cbn.
        unfold noNetworksAlert. rewrite f_alert, f_clear, ?app_nil_r. reflexivity. }
      destruct (success data) eqn:Hs; [|apply Hempty; left; reflexivity].
      destruct (networks data) as [arr|] eqn:Hn; [|apply Hempty; right; reflexivity].
      rewrite (scan_resume_networks _ _ r data arr Hm Hok Hj Hs Hn). mstep.
      rewrite !filter_app. cbn. rewrite f_clear, ?app_nil_r. reflexivity.
  - rewrite (scan_resume_unmounted _ _ _ Hm). cbn [snd]. apply settled_filter.
Qed.

Lemma configure_resume_filter (timeoutId : nat) (selected : Network)
    (s : Settlement) (w : World) :
  filter f (log (exec (configureWifiViaHTTP_resume timeoutId selected s) w)) =
  filter f (log w) ++
  filter f (match s with TimedOut => [Abort timeoutId] | _ => [] end).
Proof.
  unfold exec.
  assert (Hm : {mountedRef (comp w) = true} + {mountedRef (comp w) = false})
    by (destruct (mountedRef (comp w)); auto).
  destruct Hm as [Hm|Hm].
  - destruct (configureThrown s) as [e|] eqn:Ht.
    + rewrite (configure_resume_failure _ _ _ _ e Hm Ht). mstep.
      rewrite filter_app, settled_filter.
      destruct (name e =? "AbortError")%string;
        unfold configTimeoutAlert, configFailedAlert; cbn;
        rewrite f_alert; apply app_nil_r.
    + unfold configureThrown in Ht. destruct s as [r| |]; cbn in Ht; try discriminate.
      destruct (ok r) eqn:Hok; [|discriminate].
      destruct (json r) as [result|] eqn:Hj; [|discriminate].
      destruct (success result) eqn:Hs; [|discriminate].
      rewrite (configure_resume_success _ _ _ r result Hm Hok Hj Hs). mstep.
      rewrite !filter_app. cbn. unfold connectedAlert.
      rewrite f_alert, f_clear, ?app_nil_r. reflexivity.
  - rewrite (configure_resume_unmounted _ _ _ _ Hm). cbn [snd]. apply settled_filter.
Qed.

End ResumeLog.

(** The timer that bounds a request is the one that the first part of the
    operation has set: 30000 ms for a scan, 60000 ms for a configuration. *)
Lemma timerDelay_scanPending (w : World) :
  timerDelay (nextTimer w) (scanPending w) = Some SCAN_TIMEOUT.
Proof.
  unfold timerDelay, scanPending. cbn [timers log existsb].
  rewrite Nat.eqb_refl. cbn [orb].
  rewrite !rev_app_distr. cbn [rev app find]. rewrite Nat.eqb_refl. reflexivity.
Qed.

Lemma timerDelay_configurePending (selected : Network) (w : World) :
  timerDelay (nextTimer w) (configurePending selected w) = Some CONFIGURE_TIMEOUT.
Proof.
  unfold timerDelay, configurePending. cbn [timers log existsb].
  rewrite Nat.eqb_refl. cbn [orb].
  rewrite !rev_app_distr. cbn [rev app find]. rewrite Nat.eqb_refl. reflexivity.
Qed.

Lemma scanBounded_run (p : Props) (deviceId : option string) (b : FetchBehaviour)
    (w : World) :
  scanReady p deviceId w ->
  scanBounded p deviceId b w = scan p deviceId b false w.
Proof.
  intros H. rewrite (scan_run _ _ _ _ H). unfold scanBounded. unfold bind at 1.
  rewrite (scan_begin_ready _ _ _ H). unfold settlement.
  rewrite timerDelay_scanPending. reflexivity.
Qed.

Lemma configureBounded_run (p : Props) (selected : Network) (b : FetchBehaviour)
    (w : World) :
  configureReady p selected w ->
  configureBounded p b w = configure p b false w.
Proof.
  intros H. rewrite (configure_run _ _ _ _ H). unfold configureBounded.
  unfold bind at 1. rewrite (configure_begin_ready _ _ _ H). unfold settlement.
  rewrite timerDelay_configurePending. reflexivity.
Qed.

(** C7. On a live flow, a scan sets one timer, of 30000 ms, and issues
    one request, the scan request; the time bound of the request is the
    delay of that timer. A request that has not settled 30 seconds after
    it was issued is aborted by that timer; the caller gets the Scan
    Timeout alert and no other, and scanning ends false. A request that is
    rejected in time with an error that is not an abort is not aborted,
    and the caller gets the failure alert that carries the message of the
    error; a request that is answered in time is not aborted. A
    configuration is bounded in the same way by the timer of 60000 ms that
    it sets, with the Configuration Timeout alert. *)
Theorem timeout_is_distinguished
    (p : Props) (deviceId : option string) (w : World) (selected : Network)
    (b : FetchBehaviour) :
  (scanReady p deviceId w ->
   let w' := exec (scanBounded p deviceId b) w in
   timerDelay (nextTimer w) (exec (scanWifiNetworksViaHTTP_begin p deviceId) w)
     = Some (30 * 1000) /\
   filter isSetTimeout (log w') =
     filter isSetTimeout (log w) ++ [SetTimeout (nextTimer w) (30 * 1000)] /\
   requests w' = requests w ++ [scanRequest] /\
   w' = exec (scan p deviceId b false) w /\
   (unsettledAfter (30 * 1000) b ->
    aborts w' = aborts w ++ [Abort (nextTimer w)] /\
    alerts w' = alerts w ++ [scanTimeoutAlert] /\
    isScanning (comp w') = false) /\
   (forall t e, b = Rejects t e -> t <= 30 * 1000 -> name e <> "AbortError" ->
    aborts w' = aborts w /\
    alerts w' = alerts w ++ [scanFailedAlert e] /\
    isScanning (comp w') = false) /\
   (forall t r, b = Resolves t r -> t <= 30 * 1000 -> aborts w' = aborts w)) /\
  (configureReady p selected w ->
   let w' := exec (configureBounded p b) w in
   timerDelay (nextTimer w) (exec (configureWifiViaHTTP_begin p) w)
     = Some (60 * 1000) /\
   filter isSetTimeout (log w') =
     filter isSetTimeout (log w) ++ [SetTimeout (nextTimer w) (60 * 1000)] /\
   requests w' =
     requests w ++ [configureRequest selected (wifiPassword (comp w))] /\
   w' = exec (configure p b false) w /\
   (unsettledAfter (60 * 1000) b ->
    aborts w' = aborts w ++ [Abort (nextTimer w)] /\
    alerts w' = alerts w ++ [configTimeoutAlert] /\
    isConfiguring (comp w') = false) /\
   (forall t e, b = Rejects t e -> t <= 60 * 1000 -> name e <> "AbortError" ->
    aborts w' = aborts w /\
    alerts w' = alerts w ++ [configFailedAlert e] /\
    isConfiguring (comp w') = false) /\
   (forall t r, b = Resolves t r -> t <= 60 * 1000 -> aborts w' = aborts w)).
Proof.
  change (30 * 1000) with SCAN_TIMEOUT. change (60 * 1000) with CONFIGURE_TIMEOUT.
  split.
  - intros Hr w'.
    assert (Ew : w' = exec (scan p deviceId b false) w).
    { subst w'. unfold exec. rewrite (scanBounded_run _ _ _ _ Hr). reflexivity. }
    assert (Er : w' = exec (scanWifiNetworksViaHTTP_resume (nextTimer w)
                              (settle SCAN_TIMEOUT b)) (scanPending w)).
    { rewrite Ew. unfold exec. rewrite (scan_run _ _ _ _ Hr). reflexivity. }
    split; [|split; [|split; [|split; [exact Ew|]]]].
    + unfold exec. rewrite (scan_begin_ready _ _ _ Hr). apply timerDelay_scanPending.
    + rewrite Er, (scan_resume_filter isSetTimeout) by reflexivity.
      assert (E : filter isSetTimeout
                    match settle SCAN_TIMEOUT b with
                    | TimedOut => [Abort (nextTimer w)]
                    | _ => []
                    end = []) by (destruct (settle SCAN_TIMEOUT b); reflexivity).
      rewrite E, app_nil_r. unfold scanPending. cbn [log].
      rewrite !filter_app, releases_no_timer. reflexivity.
    + unfold requests. rewrite Er, (scan_resume_filter isFetch) by reflexivity.
      assert (E : filter isFetch
                    match settle SCAN_TIMEOUT b with
                    | TimedOut => [Abort (nextTimer w)]
                    | _ => []
                    end = []) by (destruct (settle SCAN_TIMEOUT b); reflexivity).
      rewrite E, app_nil_r. unfold scanPending. cbn [log].
      rewrite !filter_app, releases_no_request. reflexivity.
    + split; [|split].
      * intros Hu. rewrite Er, (settle_unsettled _ _ Hu). unfold exec.
        rewrite (scan_resume_failure _ _ TimedOut AbortError (scanPending_mounted w) eq_refl).
        cbn. repeat split; [aborts_simpl | log_simpl]; reflexivity.
      * intros t e -> Ht Hn. apply String.eqb_neq in Hn.
        rewrite Er, (settle_rejected _ _ _ Ht). unfold exec.
        rewrite (scan_resume_failure _ _ (Rejected e) e (scanPending_mounted w) eq_refl).
        rewrite Hn. cbn. repeat split; [aborts_simpl | log_simpl]; reflexivity.
      * intros t r -> Ht. unfold aborts.
        rewrite Er, (scan_resume_filter isAbort) by reflexivity.
        rewrite (settle_in_time _ _ _ Ht). cbn [filter]. rewrite app_nil_r.
        unfold scanPending. cbn [log].
        rewrite !filter_app, releases_no_abort. cbn. apply app_nil_r.
  - intros Hr w'.
    assert (Hm : mountedRef (comp (configurePending selected w)) = true).
    { apply configurePending_mounted. apply Hr. }
    assert (Ew : w' = exec (configure p b false) w).
    { subst w'. unfold exec. rewrite (configureBounded_run _ _ _ _ Hr). reflexivity. }
    assert (Er : w' = exec (configureWifiViaHTTP_resume (nextTimer w) selected
                              (settle CONFIGURE_TIMEOUT b))
                           (configurePending selected w)).
    { rewrite Ew. unfold exec. rewrite (configure_run _ _ _ _ Hr). reflexivity. }
    split; [|split; [|split; [|split; [exact Ew|]]]].
    + unfold exec. rewrite (configure_begin_ready _ _ _ Hr).
      apply timerDelay_configurePending.
    + rewrite Er, (configure_resume_filter isSetTimeout) by reflexivity.
      assert (E : filter isSetTimeout
                    match settle CONFIGURE_TIMEOUT b with
                    | TimedOut => [Abort (nextTimer w)]
                    | _ => []
                    end = []) by (destruct (settle CONFIGURE_TIMEOUT b); reflexivity).
      rewrite E, app_nil_r. unfold configurePending. cbn [log].
      rewrite !filter_app. reflexivity.
    + unfold requests. rewrite Er, (configure_resume_filter isFetch) by reflexivity.
      assert (E : filter isFetch
                    match settle CONFIGURE_TIMEOUT b with
                    | TimedOut => [Abort (nextTimer w)]
                    | _ => []
                    end = []) by (destruct (settle CONFIGURE_TIMEOUT b); reflexivity).
      rewrite E, app_nil_r. unfold configurePending. cbn [log].
      rewrite !filter_app. reflexivity.
    + split; [|split].
      * intros Hu. rewrite Er, (settle_unsettled _ _ Hu). unfold exec.
        rewrite (configure_resume_failure _ _ _ TimedOut AbortError Hm eq_refl).
        cbn. repeat split; [aborts_simpl | log_simpl]; reflexivity.
      * intros t e -> Ht Hn. apply String.eqb_neq in Hn.
        rewrite Er, (settle_rejected _ _ _ Ht). unfold exec.
        rewrite (configure_resume_failure _ _ _ (Rejected e) e Hm eq_refl).
        rewrite Hn. cbn. repeat split; [aborts_simpl | log_simpl]; reflexivity.
      * intros t r -> Ht. unfold aborts.
        rewrite Er, (configure_resume_filter isAbort) by reflexivity.
        rewrite (settle_in_time _ _ _ Ht). cbn [filter]. rewrite app_nil_r.
        unfold configurePending. cbn [log].
        rewrite !filter_app. cbn. apply app_nil_r.
Qed.

Lemma timeout_is_distinguished_witness :
  let w := exec (setSelectedNetwork (Some guest)) initialWorld in
  (filter isSetTimeout (log (exec (scanBounded sampleProps (Some "meter-01") Hangs) w))
     = [SetTimeout 1 30000] /\
   alerts (exec (scanBounded sampleProps (Some "meter-01") Hangs) w)
     = [scanTimeoutAlert]) /\
  (filter isSetTimeout
     (log (exec (configureBounded sampleProps (Resolves 61000 accepted)) w))
     = [SetTimeout 1 60000] /\
   alerts (exec (configureBounded sampleProps (Resolves 61000 accepted)) w)
     = [configTimeoutAlert]) /\
  alerts (exec (scanBounded sampleProps (Some "meter-01") (Rejects 40 networkFailure)) w)
    = [scanFailedAlert networkFailure].
Proof.
  assert (Hs : scanReady sampleProps (Some "meter-01")
                 (exec (setSelectedNetwork (Some guest)) initialWorld))
    by (repeat split; reflexivity).
  assert (Hc : configureReady sampleProps guest
                 (exec (setSelectedNetwork (Some guest)) initialWorld))
    by (repeat split; try reflexivity; discriminate).
  split; [|split].
  - destruct (timeout_is_distinguished sampleProps (Some "meter-01")
                (exec (setSelectedNetwork (Some guest)) initialWorld) guest Hangs)
      as (H & _).
    destruct (H Hs) as (_ & Ht & _ & _ & Hu & _).
    split; [exact Ht | apply (Hu I)].
  - destruct (timeout_is_distinguished sampleProps (Some "meter-01")
                (exec (setSelectedNetwork (Some guest)) initialWorld) guest
                (Resolves 61000 accepted))
      as (_ & H).
    destruct (H Hc) as (_ & Ht & _ & _ & Hu & _).
    split; [exact Ht | apply Hu; simpl; lia].
  - destruct (timeout_is_distinguished sampleProps (Some "meter-01")
                (exec (setSelectedNetwork (Some guest)) initialWorld) guest
                (Rejects 40 networkFailure))
      as (H & _).
    destruct (H Hs) as (_ & _ & _ & _ & _ & Hrej & _).
    apply (Hrej 40 networkFailure eq_refl); [lia | discriminate].
Defined.

(** ** C8: a status out of the 2xx range *)

(** C8. On a live flow, a response whose status is not in 200 to 299,
    received in time, fails the operation: the [try] block throws the
    error HTTP status: statusText, which is not an abort, the caller gets
    the failure alert of the operation with that message, and the
    in-flight flag ends false. For the status 500 the message starts with
    HTTP 500. *)
Theorem http_status_error
    (p : Props) (deviceId : option string) (w : World) (selected : Network)
    (t : Z) (r : Response) :
  status r < 200 \/ 299 < status r ->
  (scanReady p deviceId w -> t <= SCAN_TIMEOUT ->
   let w' := exec (scan p deviceId (Resolves t r) false) w in
   eval (scanTry (nextTimer w) (Fulfilled r)) (scanPending w) = Throw (httpError r) /\
   alerts w' = alerts w ++ [scanFailedAlert (httpError r)] /\
   isScanning (comp w') = false) /\
  (configureReady p selected w -> t <= CONFIGURE_TIMEOUT ->
   let w' := exec (configure p (Resolves t r) false) w in
   eval (configureTry (nextTimer w) selected (Fulfilled r))
        (configurePending selected w) = Throw (httpError r) /\
   alerts w' = alerts w ++ [configFailedAlert (httpError r)] /\
   isConfiguring (comp w') = false) /\
  name (httpError r) = "Error" /\
  message (httpError r) =
    ("HTTP " ++ JS.toString (status r) ++ ": " ++ statusText r)%string /\
  (status r = 500 -> message (httpError r) = ("HTTP 500: " ++ statusText r)%string).
Proof.
  intros Hst.
  assert (Hok : ok r = false).
  { unfold ok. destruct Hst as [H|H].
    - apply Z.leb_gt in H. rewrite H. reflexivity.
    - apply Z.leb_gt in H. rewrite H. apply andb_false_r. }
  assert (Hs : scanThrown (Fulfilled r) = Some (httpError r)).
  { unfold scanThrown. cbn. rewrite Hok. reflexivity. }
  assert (Hc : configureThrown (Fulfilled r) = Some (httpError r)).
  { unfold configureThrown. cbn. rewrite Hok. reflexivity. }
  split; [|split; [|split; [|split]]].
  - intros Hr Ht w'. subst w'. unfold exec, eval.
    rewrite (scan_run _ _ _ _ Hr), (settle_in_time _ _ _ Ht).
    rewrite (scanTry_throws _ _ _ _ Hs).
    rewrite (scan_resume_failure _ _ _ _ (scanPending_mounted w) Hs).
    cbn. repeat split. log_simpl. reflexivity.
  - intros Hr Ht w'. subst w'. unfold exec, eval.
    rewrite (configure_run _ _ _ _ Hr), (settle_in_time _ _ _ Ht).
    rewrite (configureTry_throws _ _ _ _ _ Hc).
    rewrite (configure_resume_failure _ _ _ _ _
               (configurePending_mounted _ _ (proj1 (proj2 (proj2 (proj2 (proj2 Hr))))))
               Hc).
    cbn. repeat split. log_simpl. reflexivity.
  - reflexivity.
  - reflexivity.
  - intros H. unfold httpError. cbn. rewrite H. reflexivity.
Qed.

(** The fourth end-to-end scenario of the specification. *)
Lemma http_status_error_witness :
  let w := exec (setSelectedNetwork (Some guest)) initialWorld in
  let w' := exec (configure sampleProps (Resolves 900 serverError) false) w in
  alerts w' =
    [configFailedAlert (mkError "Error" "HTTP 500: Internal Server Error")] /\
  isConfiguring (comp w') = false.
Proof.
  destruct (http_status_error sampleProps (Some "meter-01")
              (exec (setSelectedNetwork (Some guest)) initialWorld) guest 900
              serverError) as (_ & H & _).
  - right. simpl. lia.
  - destruct H as (_ & Ha & Hc).
    + repeat split; try reflexivity. discriminate.
    + unfold CONFIGURE_TIMEOUT. lia.
    + split; [exact Ha | exact Hc].
Defined.

(** ** C9: the release operation *)

(** C9, as amended. The release operation never raises, not even when a
    listener or a cleanup function that it calls throws. Its first call
    clears the timer held in the timer ref, calls the listener held in the
    listener ref and each function of the cleanup list, once each and in
    that order, and empties the three refs; it leaves the React state as it
    is. A second call releases nothing and changes nothing. The timer of an
    outstanding request is not held in these refs, and the operation does
    not release it. *)
Theorem cleanup_idempotent (w : World) :
  let w1 := exec cleanupWifiListener w in
  let w2 := exec cleanupWifiListener w1 in
  eval cleanupWifiListener w = Ok tt /\
  eval cleanupWifiListener w1 = Ok tt /\
  log w1 = log w ++ releases (comp w) /\
  wifiScanTimerRef (comp w1) = None /\
  wifiListenerRef (comp w1) = None /\
  cleanupFunctionsRef (comp w1) = [] /\
  reactState (comp w1) = reactState (comp w) /\
  mountedRef (comp w1) = mountedRef (comp w) /\
  (forall id, wifiScanTimerRef (comp w) <> Some id ->
              (In id (timers w1) <-> In id (timers w))) /\
  w2 = w1.
Proof.
  intros w1 w2. subst w2 w1. unfold exec, eval.
  rewrite !cleanupWifiListener_run. cbn.
  repeat split; try reflexivity.
  - unfold timersReleased. destruct (wifiScanTimerRef (comp w)) as [t|]; [|trivial].
    intros Hin. apply in_remove in Hin. apply Hin.
  - unfold timersReleased. destruct (wifiScanTimerRef (comp w)) as [t|]; [|trivial].
    intros Hin. apply in_in_remove; [|exact Hin]. congruence.
  - rewrite releases_released, released_idem, app_nil_r. reflexivity.
Qed.

Lemma cleanup_idempotent_witness :
  let boom := mkCallback 7 (Some (mkError "Error" "listener gone")) in
  let c1 := mkCallback 8 None in
  let w := mkWorld (mkState true (Some 4%nat) (Some boom) [c1] [] None "" false false false)
                   [4%nat; 5%nat] 6 [] in
  let w1 := exec cleanupWifiListener w in
  log w1 = [ClearTimeout 4; Call boom; Call c1] /\
  (In 5%nat (timers w1) <-> In 5%nat (timers w)) /\
  exec cleanupWifiListener w1 = w1.
Proof.
  cbv zeta.
  destruct (cleanup_idempotent
              (mkWorld (mkState true (Some 4%nat)
                          (Some (mkCallback 7 (Some (mkError "Error" "listener gone"))))
                          [mkCallback 8 None] [] None "" false false false)
                       [4%nat; 5%nat] 6 []))
    as (_ & _ & Hlog & _ & _ & _ & _ & _ & Ht & Hidem).
  split; [exact Hlog|]. split; [|exact Hidem].
  apply Ht. discriminate.
Defined.

(** The claim as written fails on a flow that is torn down while a scan
    is outstanding: the timer of the request is still pending after the
    teardown, and the release operation has released nothing. *)
Lemma teardown_keeps_request_timer_counterexample :
  let w := exec (scanWifiNetworksViaHTTP_begin sampleProps (Some "meter-01"))
                initialWorld in
  let w' := exec unmount w in
  timers w = [1%nat] /\
  timers w' = [1%nat] /\
  filter isRelease (log w') = [].
Proof. cbv zeta. repeat split. Qed.

(** A release with a listener that throws and two cleanup functions. *)
Example cleanup_calls_each_once :
  let boom := mkCallback 7 (Some (mkError "Error" "listener gone")) in
  let c1 := mkCallback 8 None in
  let c2 := mkCallback 9 (Some (mkError "TypeError" "not a function")) in
  let w := mkWorld (mkState true (Some 4%nat) (Some boom) [c1; c2] [] None "" false false false)
                   [4%nat; 5%nat] 6 [] in
  cleanupWifiListener w =
  (Ok tt,
   mkWorld initialState [5%nat] 6 [ClearTimeout 4; Call boom; Call c1; Call c2]).
Proof. reflexivity. Qed.

(** ** C10: the timer of the fetch wrapper *)

Lemma fetchWithTimeout_run (url : string) (options : Options) (timeout : Z)
    (b : FetchBehaviour) (w : World) :
  fetchWithTimeout url options timeout b w =
  (outcome (settle timeout b),
   settled (nextTimer w) (settle timeout b)
     (mkWorld (comp w) (nextTimer w :: timers w) (S (nextTimer w))
        (log w ++ [SetTimeout (nextTimer w) timeout;
                   Fetch url (method options) (headers options) (body options)]))).
Proof.
  unfold fetchWithTimeout. unfold bind at 1.
  assert (Hb : fetchWithTimeout_begin url options timeout w =
               (Ok (nextTimer w),
                mkWorld (comp w) (nextTimer w :: timers w) (S (nextTimer w))
                  (log w ++ [SetTimeout (nextTimer w) timeout;
                             Fetch url (method options) (headers options) (body options)]))).
  { mstep. rewrite <- app_assoc. reflexivity. }
  rewrite Hb. apply fetchWithTimeout_resume_run.
Qed.

(** C10. Whatever the underlying request does, the wrapper sets one timer
    and has cleared it when it completes: that timer is no longer pending,
    the other timers and the component are as before. The wrapper returns
    the response of a request that resolves in time, and throws the very
    error of a request that rejects in time; a request that does neither
    is aborted and the wrapper throws the abort error. *)
Theorem fetchWithTimeout_clears_timer
    (url : string) (options : Options) (timeout : Z) (b : FetchBehaviour)
    (w : World) :
  let id := nextTimer w in
  let w' := exec (fetchWithTimeout url options timeout b) w in
  let res := eval (fetchWithTimeout url options timeout b) w in
  filter isSetTimeout (log w') =
    filter isSetTimeout (log w) ++ [SetTimeout id timeout] /\
  In (ClearTimeout id) (log w') /\
  ~ In id (timers w') /\
  (forall j, j <> id -> (In j (timers w') <-> In j (timers w))) /\
  comp w' = comp w /\
  res = outcome (settle timeout b) /\
  (forall t r, b = Resolves t r -> t <= timeout -> res = Ok r) /\
  (forall t e, b = Rejects t e -> t <= timeout -> res = Throw e) /\
  (unsettledAfter timeout b -> res = Throw AbortError).
Proof.
  intros id w' res. subst id w' res. unfold exec, eval.
  rewrite fetchWithTimeout_run. cbn [fst snd].
  set (s := settle timeout b).
  split; [|split; [|split; [|split; [|split; [|split; [|split; [|split]]]]]]].
  - destruct s; cbn; rewrite !filter_app; cbn; rewrite ?app_nil_r; reflexivity.
  - destruct s; cbn; rewrite !in_app_iff; cbn; auto.
  - apply pending_timer_gone.
  - intros j Hj. rewrite settled_timers. cbn [timers remove].
    destruct (Nat.eq_dec (nextTimer w) (nextTimer w)) as [_|N]; [|contradiction].
    split; intros Hin.
    + apply in_remove in Hin. apply Hin.
    + apply in_in_remove; assumption.
  - rewrite settled_comp. reflexivity.
  - reflexivity.
  - intros t r -> Ht. subst s. rewrite settle_in_time; [reflexivity|exact Ht].
  - intros t e -> Ht. subst s. rewrite settle_rejected; [reflexivity|exact Ht].
  - intros Hu. subst s. rewrite settle_unsettled; [reflexivity|exact Hu].
Qed.

Lemma fetchWithTimeout_clears_timer_witness :
  eval (fetchWithTimeout scanUrl scanOptions SCAN_TIMEOUT (Resolves 1200 scenario1))
       initialWorld = Ok scenario1 /\
  eval (fetchWithTimeout scanUrl scanOptions SCAN_TIMEOUT (Rejects 40 networkFailure))
       initialWorld = Throw networkFailure /\
  eval (fetchWithTimeout scanUrl scanOptions SCAN_TIMEOUT Hangs) initialWorld
    = Throw AbortError /\
  timers (exec (fetchWithTimeout scanUrl scanOptions SCAN_TIMEOUT Hangs) initialWorld) = [].
Proof.
  split; [|split; [|split]].
  - destruct (fetchWithTimeout_clears_timer scanUrl scanOptions SCAN_TIMEOUT
                (Resolves 1200 scenario1) initialWorld)
      as (_ & _ & _ & _ & _ & _ & H & _).
    apply (H 1200 scenario1 eq_refl). unfold SCAN_TIMEOUT. lia.
  - destruct (fetchWithTimeout_clears_timer scanUrl scanOptions SCAN_TIMEOUT
                (Rejects 40 networkFailure) initialWorld)
      as (_ & _ & _ & _ & _ & _ & _ & H & _).
    apply (H 40 networkFailure eq_refl). unfold SCAN_TIMEOUT. lia.
  - destruct (fetchWithTimeout_clears_timer scanUrl scanOptions SCAN_TIMEOUT
                Hangs initialWorld)
      as (_ & _ & _ & _ & _ & _ & _ & _ & H).
    apply H. exact I.
  - reflexivity.
Defined.

(** * Properties of the rest of the code *)

(** ** The signal label of a list item *)

Lemma bars_of_rssi (z : Z) :
  bars (getSignalStrength (JS.Number z)) =
  if (-50 <=? z)%Z then 3%nat
  else if (-60 <=? z)%Z then 2%nat
  else if (-70 <=? z)%Z then 1%nat else 0%nat.
Proof.
  unfold getSignalStrength, JS.toNumber.
  destruct (-50 <=? z)%Z; [reflexivity|].
  destruct (-60 <=? z)%Z; [reflexivity|].
  destruct (-70 <=? z)%Z; reflexivity.
Qed.

Lemma bars_monotone (a b : Z) :
  a <= b ->
  (bars (getSignalStrength (JS.Number a)) <=
   bars (getSignalStrength (JS.Number b)))%nat.
Proof.
  intros H. rewrite !bars_of_rssi.
  destruct (Z.leb_spec (-50) a), (Z.leb_spec (-50) b),
           (Z.leb_spec (-60) a), (Z.leb_spec (-60) b),
           (Z.leb_spec (-70) a), (Z.leb_spec (-70) b); lia.
Qed.

(** The label of an item whose rssi is not [null] is the label of its
    signal, a missing rssi counting as -100. *)
Lemma bars_of_signal (n : Network) :
  rssi n <> JS.Null ->
  bars (getSignalStrength (rssi n)) =
  bars (getSignalStrength (JS.Number (signal n))).
Proof.
  unfold signal. destruct (rssi n); intros H;
    [reflexivity | contradiction H; reflexivity | reflexivity].
Qed.

(** X1. The label of the list item never goes down when the rssi goes
    up; a missing rssi ([undefined]) has the weakest label, Weak; a [null]
    rssi is labelled as an rssi of 0 is, Excellent; and the colour is
    decided by the label: green for the two strongest, amber for Fair, red
    for Weak. *)
Theorem signal_label_monotone (a b : Z) :
  a <= b ->
  (bars (getSignalStrength (JS.Number a)) <=
   bars (getSignalStrength (JS.Number b)))%nat /\
  strength (getSignalStrength JS.Undefined) = "Weak" /\
  bars (getSignalStrength JS.Undefined) = 0%nat /\
  getSignalStrength JS.Null = getSignalStrength (JS.Number 0) /\
  strength (getSignalStrength JS.Null) = "Excellent" /\
  color (getSignalStrength (JS.Number a)) =
    match bars (getSignalStrength (JS.Number a)) with
    | 0%nat => "#EF4444"
    | 1%nat => "#F59E0B"
    | _ => "#10B981"
    end.
Proof.
  intros H. split; [apply bars_monotone, H|].
  do 4 (split; [reflexivity|]).
  unfold getSignalStrength, JS.toNumber.
  destruct (-50 <=? a)%Z; [reflexivity|].
  destruct (-60 <=? a)%Z; [reflexivity|].
  destruct (-70 <=? a)%Z; reflexivity.
Qed.

Lemma signal_label_monotone_witness :
  (bars (getSignalStrength (JS.Number (-70)%Z)) <=
   bars (getSignalStrength (JS.Number (-55)%Z)))%nat /\
  color (getSignalStrength (JS.Number (-70))) = "#F59E0B".
Proof.
  destruct (signal_label_monotone (-70) (-55)) as (H & _ & _ & _ & _ & C); [lia|].
  split; [exact H | exact C].
Defined.

(** X2. In the list that a scan exposes, when no candidate reports an
    rssi of 0 or a [null] rssi, the labels of the items never go up from
    one item to a later one. *)
Theorem listed_labels_descend (arr : list (option Network)) :
  (forall n, In n (candidates arr) ->
     rssi n <> JS.Number 0 /\ rssi n <> JS.Null) ->
  StronglySorted
    (fun a b => (bars (getSignalStrength (rssi b)) <=
                 bars (getSignalStrength (rssi a)))%nat)
    (validNetworks arr).
Proof.
  intros Hz.
  assert (Hz0 : forall n, In n (candidates arr) -> rssi n <> JS.Number 0).
  { intros n Hn. apply (Hz n Hn). }
  destruct (validNetworks_spec arr Hz0) as (Hp & Hs & _).
  eapply StronglySorted_ext; [|exact Hs].
  intros a b Ha Hb Hab. unfold descending in Hab.
  rewrite (bars_of_signal a), (bars_of_signal b).
  - apply bars_monotone. lia.
  - apply Hz. eapply Permutation_in; eassumption.
  - apply Hz. eapply Permutation_in; eassumption.
Qed.

Lemma listed_labels_descend_witness :
  StronglySorted
    (fun a b => (bars (getSignalStrength (rssi b)) <=
                 bars (getSignalStrength (rssi a)))%nat)
    (validNetworks [Some guest; Some unnamed; Some home]).
Proof.
  apply listed_labels_descend.
  simpl. intros n [<-|[<-|[]]]; split; discriminate.
Defined.

(** ** The list of a successful scan *)

(** X21. For a scan started on a live, idle flow whose request is
    answered in time by a 2xx response with [success] true and a
    [networks] array, none of whose candidates reports an rssi of 0: the
    list exposed to the caller is the objects of the array without those
    whose ssid is missing, empty or made of white space only, in stable
    order of decreasing rssi with a missing rssi taken as -100; it replaces
    the prior list whatever that was, scanning ends false and nothing is
    alerted. *)
Theorem scan_success_candidates
    (p : Props) (deviceId : option string) (w : World)
    (t : Z) (r : Response) (data : Body) (arr : list (option Network)) :
  scanReady p deviceId w ->
  t <= SCAN_TIMEOUT ->
  200 <= status r <= 299 ->
  json r = Ok data -> success data = true -> networks data = Some arr ->
  (forall n, In n (candidates arr) -> rssi n <> JS.Number 0) ->
  let w' := exec (scan p deviceId (Resolves t r) false) w in
  Permutation (wifiNetworks (comp w')) (candidates arr) /\
  StronglySorted descending (wifiNetworks (comp w')) /\
  (forall k, filter (fun n => signal n =? k)%Z (wifiNetworks (comp w')) =
             filter (fun n => signal n =? k)%Z (candidates arr)) /\
  isScanning (comp w') = false /\
  alerts w' = alerts w.
Proof.
  intros Hr Ht Hok Hj Hs Hn Hz w'. subst w'. unfold exec.
  rewrite (scan_run _ _ _ _ Hr), (settle_in_time _ _ _ Ht).
  rewrite (scan_resume_networks _ _ r data arr (scanPending_mounted w)
             (proj2 (ok_2xx r) Hok) Hj Hs Hn).
  destruct (validNetworks_spec arr Hz) as (Hp & Hsorted & Hstable).
  cbn. repeat split; try assumption.
  log_simpl. reflexivity.
Qed.

Lemma scan_success_candidates_witness :
  let w' := exec (scan sampleProps (Some "meter-01") (Resolves 1200 scenario1) false)
                 initialWorld in
  Permutation (wifiNetworks (comp w')) [home; guest] /\
  StronglySorted descending (wifiNetworks (comp w')) /\
  (forall k, filter (fun n => signal n =? k)%Z (wifiNetworks (comp w')) =
             filter (fun n => signal n =? k)%Z [home; guest]) /\
  isScanning (comp w') = false /\
  alerts w' = alerts initialWorld.
Proof.
  apply (scan_success_candidates sampleProps (Some "meter-01") initialWorld 1200
           scenario1 (mkBody true (Some [Some home; Some unnamed; Some guest]) None)
           [Some home; Some unnamed; Some guest]).
  - repeat split; reflexivity.
  - unfold SCAN_TIMEOUT. lia.
  - simpl. lia.
  - reflexivity.
  - reflexivity.
  - reflexivity.
  - simpl. intros n [<-|[<-|[]]]; discriminate.
Defined.

(** ** The candidate list as the code computes it *)

Lemma validNetworks_valid (arr : list (option Network)) :
  Forall (fun n => hasSsid n = true) (validNetworks arr).
Proof.
  apply Forall_forall. intros n Hn.
  apply (Permutation_in _ (validNetworks_perm arr)) in Hn.
  unfold candidates in Hn. apply filter_In in Hn. apply Hn.
Qed.

Lemma objects_In (arr : list (option Network)) (n : Network) :
  In n (objects arr) <-> In (Some n) arr.
Proof.
  unfold objects. rewrite in_flat_map. split.
  - intros ([m|] & Hin & Hm); [|contradiction].
    destruct Hm as [->|[]]. exact Hin.
  - intros H. exists (Some n). split; [exact H | left; reflexivity].
Qed.

(** X3. Whatever the array, the list that the scan computes holds
    exactly the object entries whose ssid is present and not blank, each
    as many times as in the array; it is in decreasing order of the key
    [rssi || -100], under which an rssi of 0 and a missing rssi both count
    as -100; and entries of equal key keep the order of the array. *)
Theorem validNetworks_characterised (arr : list (option Network)) :
  Permutation (validNetworks arr) (candidates arr) /\
  (forall n, In n (validNetworks arr) <-> In (Some n) arr /\ hasSsid n = true) /\
  (List.length (validNetworks arr) <= List.length arr)%nat /\
  StronglySorted (fun a b => sortKey a >= sortKey b) (validNetworks arr) /\
  (forall k, filter (fun n => sortKey n =? k)%Z (validNetworks arr) =
             filter (fun n => sortKey n =? k)%Z (candidates arr)) /\
  (forall n, sortKey n = if (signal n =? 0)%Z then -100 else signal n).
Proof.
  pose proof (validNetworks_perm arr) as Hp.
  split; [exact Hp|]. split; [|split; [|split; [|split]]].
  - intros n. split.
    + intros Hn. apply (Permutation_in _ Hp) in Hn.
      unfold candidates in Hn. apply filter_In in Hn as [Hn Hs].
      split; [apply objects_In, Hn | exact Hs].
    + intros [Hn Hs]. apply (Permutation_in _ (Permutation_sym Hp)).
      unfold candidates. apply filter_In. split; [apply objects_In, Hn | exact Hs].
  - rewrite (Permutation_length Hp). unfold candidates.
    eapply Nat.le_trans; [apply filter_length_le|].
    clear Hp. unfold objects.
    induction arr as [|[n|] r IH]; cbn [flat_map app List.length].
    + lia.
    + apply le_n_S, IH.
    + apply Nat.le_trans with (1 := IH). apply Nat.le_succ_diag_r.
  - apply validNetworks_sorted_key.
  - intros k. apply validNetworks_stable.
  - intros n. unfold sortKey, signal, JS.orNumber.
    destruct (rssi n) as [| |z]; reflexivity.
Qed.

Lemma sort_sorted_fixed {A} (key : A -> Z) (l : list A) :
  StronglySorted (fun a b => key a >= key b) l ->
  JS.sort (fun a b => key b - key a) l = l.
Proof.
  induction l as [|x r IH]; intros Hs; [reflexivity|].
  inversion Hs as [|? ? Hr Hall]; subst.
  change (JS.sort (fun a b => key b - key a) (x :: r))
    with (JS.insert (fun a b => key b - key a) x
            (JS.sort (fun a b => key b - key a) r)).
  rewrite (IH Hr).
  destruct r as [|y r']; [reflexivity|]. cbn [JS.insert].
  inversion Hall as [|? ? Hxy _]; subst.
  assert (E : (key y - key x <=? 0)%Z = true) by (apply Z.leb_le; lia).
  rewrite E. reflexivity.
Qed.

Lemma filter_valid_all (l : list Network) :
  Forall (fun n => hasSsid n = true) l ->
  objects (filter isValidNetwork (map Some l)) = l.
Proof.
  induction l as [|n r IH]; intros H; [reflexivity|].
  inversion H as [|? ? Hn Hr]; subst.
  cbn [map filter]. rewrite isValidNetwork_hasSsid, Hn.
  change (objects (Some n :: filter isValidNetwork (map Some r)))
    with (n :: objects (filter isValidNetwork (map Some r))).
  rewrite (IH Hr). reflexivity.
Qed.

(** X4. The computation of the list is idempotent: a list that a scan
    has exposed, given back as the array of a response, is exposed
    unchanged. *)
Theorem validNetworks_idempotent (arr : list (option Network)) :
  validNetworks (map Some (validNetworks arr)) = validNetworks arr.
Proof.
  unfold validNetworks at 1.
  rewrite (filter_valid_all _ (validNetworks_valid arr)).
  apply (sort_sorted_fixed sortKey), validNetworks_sorted_key.
Qed.

(** ** Results of a scan that expose no network, and bodies that do not parse *)

#[local] Arguments closed : simpl never.
#[local] Arguments scanRequest : simpl never.
#[local] Arguments configureRequest : simpl never.

(** X5. On a live flow, a 2xx response in time with [success] true
    exposes an empty list in two ways: when [networks] is absent or is not
    an array, the caller gets the No Networks Found alert; when it is an
    array that holds no candidate (an empty array, or entries that are all
    filtered out), the caller gets no alert at all. Scanning ends false in
    both. *)
Theorem scan_empty_results
    (p : Props) (deviceId : option string) (w : World)
    (t : Z) (r : Response) (data : Body) :
  scanReady p deviceId w ->
  t <= SCAN_TIMEOUT ->
  200 <= status r <= 299 ->
  json r = Ok data ->
  success data = true ->
  let w' := exec (scan p deviceId (Resolves t r) false) w in
  (networks data = None ->
   alerts w' = alerts w ++ [noNetworksAlert] /\
   wifiNetworks (comp w') = [] /\ isScanning (comp w') = false) /\
  (forall arr, networks data = Some arr -> candidates arr = [] ->
   alerts w' = alerts w /\
   wifiNetworks (comp w') = [] /\ isScanning (comp w') = false).
Proof.
  intros Hr Ht Hok Hj Hs w'. subst w'. apply ok_2xx in Hok. unfold exec.
  rewrite (scan_run _ _ _ _ Hr), (settle_in_time _ _ _ Ht). split.
  - intros Hn.
    destruct (scan_resume_empty (nextTimer w) (scanPending w) r data
                (scanPending_mounted w) Hok Hj (or_intror Hn)) as [_ E].
    rewrite E. cbn. repeat split. log_simpl. reflexivity.
  - intros arr Hn Hc.
    rewrite (scan_resume_networks _ _ r data arr (scanPending_mounted w) Hok Hj Hs Hn).
    cbn. repeat split.
    + log_simpl. reflexivity.
    + pose proof (validNetworks_perm arr) as Hp. rewrite Hc in Hp.
      apply Permutation_nil. apply Permutation_sym. exact Hp.
Qed.

Lemma scan_empty_results_witness :
  let blanks := mkResponse 200 "OK"
                  (Ok (mkBody true (Some [Some unnamed; None]) None)) in
  let w' := exec (scan sampleProps (Some "meter-01") (Resolves 1200 blanks) false)
                 initialWorld in
  alerts w' = [] /\ wifiNetworks (comp w') = [] /\ isScanning (comp w') = false.
Proof.
  destruct (scan_empty_results sampleProps (Some "meter-01") initialWorld 1200
              (mkResponse 200 "OK" (Ok (mkBody true (Some [Some unnamed; None]) None)))
              (mkBody true (Some [Some unnamed; None]) None)) as [_ H].
  - repeat split; reflexivity.
  - unfold SCAN_TIMEOUT. lia.
  - simpl. lia.
  - reflexivity.
  - reflexivity.
  - apply (H [Some unnamed; None]); reflexivity.
Defined.

(** X6. On a live flow, a 2xx response in time whose body does not parse
    fails the operation with the error of the parser: the caller gets the
    failure alert of the operation with the message of that error, and the
    in-flight flag ends false. *)
Theorem unparseable_body_fails
    (p : Props) (deviceId : option string) (w : World) (selected : Network)
    (t : Z) (r : Response) (e : Error) :
  200 <= status r <= 299 ->
  json r = Throw e ->
  name e <> "AbortError" ->
  (scanReady p deviceId w -> t <= SCAN_TIMEOUT ->
   let w' := exec (scan p deviceId (Resolves t r) false) w in
   alerts w' = alerts w ++ [scanFailedAlert e] /\
   isScanning (comp w') = false /\ wifiNetworks (comp w') = []) /\
  (configureReady p selected w -> t <= CONFIGURE_TIMEOUT ->
   let w' := exec (configure p (Resolves t r) false) w in
   alerts w' = alerts w ++ [configFailedAlert e] /\
   isConfiguring (comp w') = false).
Proof.
  intros Hok Hj Hn. apply ok_2xx in Hok. apply String.eqb_neq in Hn.
  assert (Hs : scanThrown (Fulfilled r) = Some e).
  { unfold scanThrown. cbn. rewrite Hok, Hj. reflexivity. }
  assert (Hc : configureThrown (Fulfilled r) = Some e).
  { unfold configureThrown. cbn. rewrite Hok, Hj. reflexivity. }
  split.
  - intros Hr Ht w'. subst w'. unfold exec.
    rewrite (scan_run _ _ _ _ Hr), (settle_in_time _ _ _ Ht).
    rewrite (scan_resume_failure _ _ _ _ (scanPending_mounted w) Hs), Hn.
    cbn. repeat split. log_simpl. reflexivity.
  - intros Hr Ht w'. subst w'. unfold exec.
    rewrite (configure_run _ _ _ _ Hr), (settle_in_time _ _ _ Ht).
    rewrite (configure_resume_failure _ _ _ _ _
               (configurePending_mounted _ _ (proj1 (proj2 (proj2 (proj2 (proj2 Hr))))))
               Hc), Hn.
    cbn. repeat split. log_simpl. reflexivity.
Qed.

Lemma unparseable_body_fails_witness :
  let garbled := mkResponse 200 "OK" (Throw (mkError "SyntaxError" "JSON Parse error")) in
  alerts (exec (scan sampleProps (Some "meter-01") (Resolves 1200 garbled) false)
               initialWorld)
  = [scanFailedAlert (mkError "SyntaxError" "JSON Parse error")].
Proof.
  destruct (unparseable_body_fails sampleProps (Some "meter-01") initialWorld guest 1200
              (mkResponse 200 "OK" (Throw (mkError "SyntaxError" "JSON Parse error")))
              (mkError "SyntaxError" "JSON Parse error")) as [H _].
  - simpl. lia.
  - reflexivity.
  - discriminate.
  - apply H; [repeat split; reflexivity | unfold SCAN_TIMEOUT; lia].
Defined.

(** ** The close handler *)

Lemma handleClose_run (w : World) :
  handleClose w =
  (Ok tt, mkWorld (closed (comp w)) (timersReleased w) (nextTimer w)
                  (log w ++ releases (comp w) ++ [OnClose])).
Proof.
  unfold handleClose. mstep. rewrite cleanupWifiListener_run. cbn.
  unfold closed, released, timersReleased, releases. cbn.
  rewrite <- !app_assoc. reflexivity.
Qed.

Lemma handleClose_comp (w : World) : comp (exec handleClose w) = closed (comp w).
Proof. unfold exec. rewrite handleClose_run. reflexivity. Qed.

Lemma handleClose_alerts (w : World) :
  alerts (exec handleClose w) = alerts w ++ [OnClose].
Proof. unfold exec. rewrite handleClose_run. log_simpl. reflexivity. Qed.

(** X7. The close handler calls [onClose] once, as its last step, after
    the releases. It empties the list, the selection and the password and
    ends scanning and the display of the password, but it leaves the
    configuring flag and the liveness flag as they are, and it clears no
    timer but the one held in the timer ref. A second close changes the
    component no further. *)
Theorem handleClose_resets (w : World) :
  let w' := exec handleClose w in
  reactState (comp w') = ([], None, "", false, false, isConfiguring (comp w)) /\
  mountedRef (comp w') = mountedRef (comp w) /\
  log w' = log w ++ releases (comp w) ++ [OnClose] /\
  (forall id, wifiScanTimerRef (comp w) <> Some id ->
              (In id (timers w') <-> In id (timers w))) /\
  comp (exec handleClose w') = comp w'.
Proof.
  intros w'. subst w'. unfold exec. rewrite !handleClose_run. cbn.
  repeat split; try reflexivity.
  - unfold timersReleased. destruct (wifiScanTimerRef (comp w)) as [t|]; [|trivial].
    intros Hin. apply in_remove in Hin. apply Hin.
  - unfold timersReleased. destruct (wifiScanTimerRef (comp w)) as [t|]; [|trivial].
    intros Hin. apply in_in_remove; [|exact Hin]. congruence.
Qed.

Lemma handleClose_resets_witness :
  let w := configurePending guest (exec (setSelectedNetwork (Some guest)) initialWorld) in
  let w' := exec handleClose w in
  isConfiguring (comp w') = true /\ (In 1%nat (timers w') <-> In 1%nat (timers w)).
Proof.
  cbv zeta.
  destruct (handleClose_resets
              (configurePending guest (exec (setSelectedNetwork (Some guest)) initialWorld)))
    as (Hs & _ & _ & Ht & _).
  split.
  - apply (f_equal snd) in Hs. exact Hs.
  - apply Ht. discriminate.
Defined.

(** ** Closing the modal while a scan is outstanding *)

Lemma scanClosedMeanwhile_run (p : Props) (deviceId : option string)
    (b : FetchBehaviour) (w : World) :
  scanReady p deviceId w ->
  exec (scanClosedMeanwhile p deviceId b) w =
  exec (scanWifiNetworksViaHTTP_resume (nextTimer w) (settle SCAN_TIMEOUT b))
       (exec handleClose (scanPending w)).
Proof.
  intros Hr. unfold scanClosedMeanwhile, exec. unfold bind at 1.
  rewrite (scan_begin_ready _ _ _ Hr). unfold bind at 1.
  rewrite handleClose_run. reflexivity.
Qed.

Lemma closed_scan_mounted (w : World) :
  mountedRef (comp (exec handleClose (scanPending w))) = true.
Proof. unfold exec. rewrite handleClose_run. reflexivity. Qed.

Lemma closed_scan_alerts (w : World) :
  alerts (exec handleClose (scanPending w)) = alerts w ++ [OnClose].
Proof.
  unfold exec. rewrite handleClose_run. unfold scanPending. log_simpl.
  reflexivity.
Qed.

Lemma closed_scan_timers (w : World) :
  timers (exec handleClose (scanPending w)) = nextTimer w :: timersReleased w.
Proof. unfold exec. rewrite handleClose_run. reflexivity. Qed.

(** X8. Closing the modal does not cancel an outstanding scan. After the
    close the timer of the request is still pending and nothing was
    aborted; when the request then settles, the component being still
    mounted, a successful response fills the list that the close had
    emptied, and a failure raises its alert after [onClose]. *)
Theorem close_does_not_cancel_scan
    (p : Props) (deviceId : option string) (w : World) (b : FetchBehaviour) :
  scanReady p deviceId w ->
  let closedWorld := exec (scanWifiNetworksViaHTTP_begin p deviceId;; handleClose) w in
  let w' := exec (scanClosedMeanwhile p deviceId b) w in
  In (nextTimer w) (timers closedWorld) /\
  aborts closedWorld = aborts w /\
  wifiNetworks (comp closedWorld) = [] /\
  (forall t r data arr,
     b = Resolves t r -> t <= SCAN_TIMEOUT -> 200 <= status r <= 299 ->
     json r = Ok data -> success data = true -> networks data = Some arr ->
     wifiNetworks (comp w') = validNetworks arr /\
     alerts w' = alerts w ++ [OnClose]) /\
  (forall e, scanThrown (settle SCAN_TIMEOUT b) = Some e ->
     alerts w' = alerts w ++
       [OnClose;
        if (name e =? "AbortError")%string then scanTimeoutAlert else scanFailedAlert e]).
Proof.
  intros Hr closedWorld w'.
  assert (Hc : closedWorld = exec handleClose (scanPending w)).
  { subst closedWorld. unfold exec. unfold bind.
    rewrite (scan_begin_ready _ _ _ Hr). reflexivity. }
  subst w'. rewrite (scanClosedMeanwhile_run _ _ _ _ Hr), Hc. clear Hc closedWorld.
  split; [|split; [|split; [|split]]].
  - rewrite closed_scan_timers. left. reflexivity.
  - unfold exec. rewrite handleClose_run. unfold scanPending. aborts_simpl.
    reflexivity.
  - unfold exec. rewrite handleClose_run. reflexivity.
  - intros t r data arr -> Ht Hok Hj Hs Hn. apply ok_2xx in Hok.
    rewrite (settle_in_time _ _ _ Ht). unfold exec at 1 3.
    rewrite (scan_resume_networks _ _ r data arr (closed_scan_mounted w) Hok Hj Hs Hn).
    cbn [snd]. split; [reflexivity|].
    unfold alerts at 1. cbn. rewrite filter_app. cbn. rewrite app_nil_r.
    apply closed_scan_alerts.
  - intros e He. unfold exec at 1.
    rewrite (scan_resume_failure _ _ _ e (closed_scan_mounted w) He).
    cbn [snd]. unfold alerts at 1. cbn. rewrite filter_app.
    fold (alerts (settled (nextTimer w) (settle SCAN_TIMEOUT b)
                    (exec handleClose (scanPending w)))).
    rewrite settled_alerts, closed_scan_alerts, <- app_assoc.
    destruct (name e =? "AbortError")%string; reflexivity.
Qed.

Lemma close_does_not_cancel_scan_witness :
  let w' := exec (scanClosedMeanwhile sampleProps (Some "meter-01") (Resolves 1200 scenario1))
                 initialWorld in
  wifiNetworks (comp w') = [home; guest] /\ alerts w' = [OnClose].
Proof.
  destruct (close_does_not_cancel_scan sampleProps (Some "meter-01") initialWorld
              (Resolves 1200 scenario1)) as (_ & _ & _ & H & _).
  - repeat split; reflexivity.
  - apply (H 1200 scenario1 (mkBody true (Some [Some home; Some unnamed; Some guest]) None)
             [Some home; Some unnamed; Some guest]);
      try reflexivity; [unfold SCAN_TIMEOUT; lia | simpl; lia].
Defined.

(** X9. Closing the modal ends scanning although the request is still
    outstanding, so that a scan started after the close is accepted: it
    issues a second request and sets a second timer while the first is
    pending. *)
Theorem close_allows_second_scan
    (p : Props) (deviceId : option string) (w : World) :
  scanReady p deviceId w ->
  let closedWorld := exec (scanWifiNetworksViaHTTP_begin p deviceId;; handleClose) w in
  let w' := exec (scanWifiNetworksViaHTTP_begin p deviceId) closedWorld in
  eval (scanWifiNetworksViaHTTP_begin p deviceId) closedWorld
    = Ok (Some (S (nextTimer w))) /\
  In (nextTimer w) (timers w') /\
  In (S (nextTimer w)) (timers w') /\
  requests w' = requests w ++ [scanRequest; scanRequest].
Proof.
  intros Hr closedWorld w'.
  assert (Hc : closedWorld = exec handleClose (scanPending w)).
  { subst closedWorld. unfold exec. unfold bind.
    rewrite (scan_begin_ready _ _ _ Hr). reflexivity. }
  assert (Hr' : scanReady p deviceId closedWorld).
  { rewrite Hc. destruct Hr as (Hd & Hu & _ & _).
    repeat split; try assumption; unfold exec; rewrite handleClose_run; reflexivity. }
  subst w'. unfold exec at 1 2 3, eval.
  rewrite (scan_begin_ready _ _ _ Hr'). cbn [fst snd]. rewrite Hc.
  unfold exec. rewrite handleClose_run. unfold scanPending. cbn.
  repeat split.
  - right. left. reflexivity.
  - left. reflexivity.
  - log_simpl. reflexivity.
Qed.

Lemma close_allows_second_scan_witness :
  let closedWorld :=
    exec (scanWifiNetworksViaHTTP_begin sampleProps (Some "meter-01");; handleClose)
         initialWorld in
  timers (exec (scanWifiNetworksViaHTTP_begin sampleProps (Some "meter-01")) closedWorld)
    = [2%nat; 1%nat] /\
  requests (exec (scanWifiNetworksViaHTTP_begin sampleProps (Some "meter-01")) closedWorld)
    = [scanRequest; scanRequest].
Proof.
  destruct (close_allows_second_scan sampleProps (Some "meter-01") initialWorld)
    as (_ & _ & _ & H).
  - repeat split; reflexivity.
  - split; [reflexivity | exact H].
Defined.

(** ** A configuration that succeeds *)

(** X10. On a live flow, a 2xx response in time with [success] true ends
    the configuration: the component is as before the call, configuring
    false, the timer of the request is no longer pending, and the caller
    gets the WiFi Connected alert for the selected network. The press of
    OK on that alert then closes the flow: [onClose] is called and the
    React state is the initial one. *)
Theorem configure_success_closes
    (p : Props) (w : World) (selected : Network)
    (t : Z) (r : Response) (result : Body) :
  configureReady p selected w ->
  t <= CONFIGURE_TIMEOUT ->
  200 <= status r <= 299 ->
  json r = Ok result ->
  success result = true ->
  let w' := exec (configure p (Resolves t r) false) w in
  let w'' := exec (configureThenOk p (Resolves t r)) w in
  comp w' = comp w /\
  ~ In (nextTimer w) (timers w') /\
  alerts w' = alerts w ++ [connectedAlert selected] /\
  alerts w'' = alerts w ++ [connectedAlert selected; OnClose] /\
  reactState (comp w'') = reactState initialState.
Proof.
  intros Hr Ht Hok Hj Hs w' w''. apply ok_2xx in Hok.
  assert (Hm : mountedRef (comp (configurePending selected w)) = true).
  { apply configurePending_mounted. apply Hr. }
  assert (Hw : configure p (Resolves t r) false w =
               (Ok tt, exec (setIsConfiguring false;; emit (connectedAlert selected))
                            (settled (nextTimer w) (Fulfilled r)
                               (configurePending selected w)))).
  { rewrite (configure_run _ _ _ _ Hr), (settle_in_time _ _ _ Ht).
    apply (configure_resume_success _ _ _ r result Hm Hok Hj Hs). }
  assert (Hc : comp w' = comp w).
  { subst w'. unfold exec at 1. rewrite Hw. cbn.
    destruct Hr as (_ & _ & _ & Hcf & _). rewrite <- Hcf.
    destruct (comp w). reflexivity. }
  assert (Ha : alerts w' = alerts w ++ [connectedAlert selected]).
  { subst w'. unfold exec at 1. rewrite Hw. cbn. log_simpl. reflexivity. }
  split; [exact Hc|]. split; [|split; [exact Ha|]].
  - subst w'. unfold exec at 1. rewrite Hw. cbn.
    destruct (Nat.eq_dec (nextTimer w) (nextTimer w)) as [_|N]; [|contradiction].
    apply remove_In.
  - assert (Hw'' : w'' = exec handleClose w').
    { subst w'' w'. unfold configureThenOk, exec. unfold bind at 1.
      rewrite Hw. cbn [snd]. unfold connectedOkPressed, ifMounted.
      unfold bind at 1, get at 1. cbn [comp].
      change (mountedRef _) with (mountedRef (comp w)) at 1.
      destruct Hr as (_ & _ & _ & _ & Hmw & _). rewrite Hmw. reflexivity. }
    rewrite Hw'', handleClose_alerts, handleClose_comp, Ha, Hc, <- app_assoc.
    split; [reflexivity|].
    unfold closed, reactState. cbn.
    destruct Hr as (_ & _ & _ & Hcf & _). rewrite Hcf. reflexivity.
Qed.

(** The fifth end-to-end scenario of the specification. *)
Lemma configure_success_closes_witness :
  let w := exec (setSelectedNetwork (Some guest)) initialWorld in
  alerts (exec (configureThenOk sampleProps (Resolves 900 accepted)) w)
    = [connectedAlert guest; OnClose] /\
  comp (exec (configureThenOk sampleProps (Resolves 900 accepted)) w) = initialState.
Proof.
  destruct (configure_success_closes sampleProps
              (exec (setSelectedNetwork (Some guest)) initialWorld) guest 900
              accepted (mkBody true None None)) as (_ & _ & _ & H & _).
  - repeat split; try reflexivity. discriminate.
  - unfold CONFIGURE_TIMEOUT. lia.
  - simpl. lia.
  - reflexivity.
  - reflexivity.
  - split; [exact H | reflexivity].
Defined.

(** ** The first guard of the configuration *)

Lemma configure_begin_guard (p : Props) (w : World) :
  selectedNetwork (comp w) = None \/ JS.truthy (deviceIdOf p) = false \/
  isConfiguring (comp w) = true \/ JS.truthy (userId p) = false ->
  configureWifiViaHTTP_begin p w = (Ok None, exec (emit selectNetworkAlert) w).
Proof.
  intros H. unfold configureWifiViaHTTP_begin. mstep.
  destruct (selectedNetwork (comp w)) as [sel|]; [|reflexivity].
  destruct H as [H|[H|[H|H]]]; [discriminate| | |]; rewrite H; cbn;
    rewrite ?orb_true_r; reflexivity.
Qed.

Lemma configure_begin_password (p : Props) (w : World) (selected : Network) :
  selectedNetwork (comp w) = Some selected ->
  JS.truthy (deviceIdOf p) = true -> JS.truthy (userId p) = true ->
  isConfiguring (comp w) = false ->
  notOpen selected = true -> wifiPassword (comp w) = "" ->
  configureWifiViaHTTP_begin p w = (Ok None, exec (emit enterPasswordAlert) w).
Proof.
  intros Hs Hd Hu Hc Hn Hp. unfold configureWifiViaHTTP_begin. mstep.
  rewrite Hs, Hd, Hu, Hc, Hn, Hp. reflexivity.
Qed.

Lemma configure_begin_run (p : Props) (selected : Network) (w : World) :
  JS.truthy (deviceIdOf p) = true -> JS.truthy (userId p) = true ->
  selectedNetwork (comp w) = Some selected ->
  isConfiguring (comp w) = false ->
  (notOpen selected = true -> wifiPassword (comp w) <> "") ->
  configureWifiViaHTTP_begin p w =
  (Ok (Some (nextTimer w, selected)), configurePending selected w).
Proof.
  intros Hd Hu Hsel Hc Hpw.
  assert (G : notOpen selected && (wifiPassword (comp w) =? "")%string = false).
  { destruct (notOpen selected); [|reflexivity]. simpl.
    apply String.eqb_neq. apply Hpw. reflexivity. }
  unfold configureWifiViaHTTP_begin. mstep.
  rewrite Hsel, Hd, Hu, Hc. cbn. rewrite G. mstep. rewrite orString_self.
  unfold configurePending, configOptions. cbn.
  rewrite <- app_assoc. reflexivity.
Qed.

(** X11. A call of configure with no selected network, or no device
    identifier, or no user identifier, or while a configuration is in
    flight, is rejected with the alert Please select a network, whatever
    the cause: no request is issued, no timer is set and the component is
    as before; a configuration in flight is not disturbed. *)
Theorem configure_rejected_with_alert
    (p : Props) (w : World) (b : FetchBehaviour) (tornDown : bool) :
  selectedNetwork (comp w) = None \/ JS.truthy (deviceIdOf p) = false \/
  isConfiguring (comp w) = true \/ JS.truthy (userId p) = false ->
  let w' := exec (configure p b tornDown) w in
  eval (configureWifiViaHTTP_begin p) w = Ok None /\
  comp w' = comp w /\
  timers w' = timers w /\
  nextTimer w' = nextTimer w /\
  log w' = log w ++ [selectNetworkAlert].
Proof.
  intros H w'. subst w'. unfold configure, exec, eval. unfold bind.
  rewrite (configure_begin_guard _ _ H). cbn. repeat split.
Qed.

Lemma configure_rejected_with_alert_witness :
  let w := configurePending guest (exec (setSelectedNetwork (Some guest)) initialWorld) in
  let w' := exec (configure sampleProps (Resolves 900 accepted) false) w in
  isConfiguring (comp w) = true /\ comp w' = comp w /\
  log w' = log w ++ [selectNetworkAlert].
Proof.
  cbv zeta.
  destruct (configure_rejected_with_alert sampleProps
              (configurePending guest (exec (setSelectedNetwork (Some guest)) initialWorld))
              (Resolves 900 accepted) false) as (_ & Hc & _ & _ & Hl).
  - right. right. left. reflexivity.
  - split; [reflexivity|]. split; [exact Hc | exact Hl].
Defined.

(** ** The buttons of the view *)

(** X12. A disabled scan button does nothing. An enabled one starts a
    scan when the component is mounted and the user identifier is present:
    scanning is set, the list is emptied, the selection and the password
    are kept, and one GET request to the scan address is issued with a
    timer of 30000 ms. With no user identifier the enabled button does
    nothing at all, without an alert. *)
Theorem scan_button_behaviour (p : Props) (w : World) :
  (scanButtonDisabled p (comp w) = true ->
   pressScanButton p w = (Ok None, w)) /\
  (scanButtonDisabled p (comp w) = false -> JS.truthy (userId p) = false ->
   pressScanButton p w = (Ok None, w)) /\
  (scanButtonDisabled p (comp w) = false -> JS.truthy (userId p) = true ->
   mountedRef (comp w) = true ->
   let w' := exec (pressScanButton p) w in
   eval (pressScanButton p) w = Ok (Some (nextTimer w)) /\
   reactState (comp w') =
     ([], selectedNetwork (comp w), wifiPassword (comp w), true,
      showPassword (comp w), isConfiguring (comp w)) /\
   requests w' = requests w ++ [scanRequest] /\
   filter isSetTimeout (log w') =
     filter isSetTimeout (log w) ++ [SetTimeout (nextTimer w) 30000] /\
   alerts w' = alerts w).
Proof.
  unfold pressScanButton. split; [|split].
  - intros H. mstep. rewrite H. reflexivity.
  - intros H Hu. unfold bind, get. cbn. rewrite H.
    apply scan_begin_rejected. right. right. exact Hu.
  - intros H Hu Hm. cbv zeta.
    assert (Hr : scanReady p (deviceIdOf p) w).
    { unfold scanButtonDisabled in H. apply orb_false_iff in H as [Hs Hd].
      apply negb_false_iff in Hd. repeat split; assumption. }
    unfold exec, eval, bind, get. cbn. rewrite H.
    rewrite (scan_begin_ready _ _ _ Hr). cbn. repeat split.
    + log_simpl. reflexivity.
    + rewrite !filter_app. cbn.
      assert (E : filter isSetTimeout (releases (comp w)) = []).
      { unfold releases. rewrite !filter_app.
        destruct (wifiScanTimerRef (comp w)), (wifiListenerRef (comp w)); cbn;
          induction (cleanupFunctionsRef (comp w)); cbn; auto. }
      rewrite E. reflexivity.
    + log_simpl. reflexivity.
Qed.

Lemma scan_button_behaviour_witness :
  pressScanButton sampleProps (scanPending initialWorld)
    = (Ok None, scanPending initialWorld) /\
  pressScanButton (mkProps (device sampleProps) None) initialWorld
    = (Ok None, initialWorld) /\
  eval (pressScanButton sampleProps) initialWorld = Ok (Some 1%nat).
Proof.
  split; [|split].
  - apply (proj1 (scan_button_behaviour sampleProps (scanPending initialWorld))).
    reflexivity.
  - apply (proj1 (proj2 (scan_button_behaviour (mkProps (device sampleProps) None)
                           initialWorld))); reflexivity.
  - apply (proj2 (proj2 (scan_button_behaviour sampleProps initialWorld)));
      reflexivity.
Defined.

(** X13. A disabled connect button does nothing. An enabled one, which
    has a selected network and no configuration in flight, raises Please
    select a network when the device or the user identifier is missing;
    otherwise it raises Please enter the WiFi password exactly when the
    password section is shown and the password is empty; otherwise it sets
    configuring and issues one POST request whose body holds the ssid of
    the selected network and the password as typed, whatever the
    encryption of the network. *)
Theorem connect_button_behaviour (p : Props) (w : World) :
  (connectButtonDisabled (comp w) = true ->
   pressConnectButton p w = (Ok None, w)) /\
  (connectButtonDisabled (comp w) = false ->
   let w' := exec (pressConnectButton p) w in
   (JS.truthy (deviceIdOf p) = false \/ JS.truthy (userId p) = false ->
    comp w' = comp w /\ log w' = log w ++ [selectNetworkAlert]) /\
   (JS.truthy (deviceIdOf p) = true -> JS.truthy (userId p) = true ->
    passwordSectionShown (comp w) = true -> wifiPassword (comp w) = "" ->
    comp w' = comp w /\ log w' = log w ++ [enterPasswordAlert]) /\
   (JS.truthy (deviceIdOf p) = true -> JS.truthy (userId p) = true ->
    passwordSectionShown (comp w) = false \/ wifiPassword (comp w) <> "" ->
    exists selected,
      selectedNetwork (comp w) = Some selected /\
      eval (pressConnectButton p) w = Ok (Some (nextTimer w, selected)) /\
      isConfiguring (comp w') = true /\
      requests w' = requests w ++ [configureRequest selected (wifiPassword (comp w))] /\
      filter isSetTimeout (log w') =
        filter isSetTimeout (log w) ++ [SetTimeout (nextTimer w) 60000] /\
      alerts w' = alerts w)).
Proof.
  unfold pressConnectButton. split.
  - intros H. mstep. rewrite H. reflexivity.
  - intros H. cbv zeta. unfold exec, eval, bind, get. cbn. rewrite H.
    unfold connectButtonDisabled in H.
    destruct (selectedNetwork (comp w)) as [sel|] eqn:Hsel; [|discriminate].
    split; [|split].
    + intros Hg.
      rewrite configure_begin_guard by (destruct Hg; auto).
      split; reflexivity.
    + intros Hd Hu Hshown Hpw. unfold passwordSectionShown in Hshown.
      rewrite Hsel in Hshown.
      rewrite (configure_begin_password _ _ sel Hsel Hd Hu H Hshown Hpw).
      split; reflexivity.
    + intros Hd Hu Hor. unfold passwordSectionShown in Hor. rewrite Hsel in Hor.
      assert (Hpw : notOpen sel = true -> wifiPassword (comp w) <> "").
      { intros Hn. destruct Hor as [Hor|Hor]; [congruence | exact Hor]. }
      exists sel. rewrite (configure_begin_run _ _ _ Hd Hu Hsel H Hpw). cbn.
      repeat split.
      * log_simpl. reflexivity.
      * rewrite !filter_app. cbn. reflexivity.
      * log_simpl. reflexivity.
Qed.

Lemma connect_button_behaviour_witness :
  let w := exec (setSelectedNetwork (Some guest);; setWifiPassword "old-secret")
                initialWorld in
  passwordSectionShown (comp w) = false /\
  requests (exec (pressConnectButton sampleProps) w)
    = [configureRequest guest "old-secret"].
Proof.
  cbv zeta. split; [reflexivity|].
  destruct (connect_button_behaviour sampleProps
              (exec (setSelectedNetwork (Some guest);; setWifiPassword "old-secret")
                    initialWorld)) as [_ H].
  destruct (H eq_refl) as (_ & _ & H3).
  destruct (H3 eq_refl eq_refl (or_introl eq_refl)) as (sel & Hsel & _ & _ & Hr & _).
  injection Hsel as <-. exact Hr.
Defined.

(** ** Lists of timers *)

Section TimerLists.

Lemma remove_as_filter (id : nat) (l : list nat) :
  remove Nat.eq_dec id l = filter (fun x => negb (Nat.eqb id x)) l.
Proof.
  induction l as [|x r IH]; cbn; [reflexivity|].
  destruct (Nat.eq_dec id x) as [E|E].
  - apply Nat.eqb_eq in E. rewrite E. exact IH.
  - apply Nat.eqb_neq in E. rewrite E. cbn. rewrite IH. reflexivity.
Qed.

Lemma map_fst_filter {B} (id : nat) (l : list (nat * B)) :
  map fst (filter (fun c => negb (Nat.eqb id (fst c))) l) =
  filter (fun x => negb (Nat.eqb id x)) (map fst l).
Proof.
  induction l as [|c r IH]; cbn; [reflexivity|].
  destruct (Nat.eqb id (fst c)); cbn; rewrite IH; reflexivity.
Qed.

Lemma filter_absent (id : nat) (l : list nat) :
  ~ In id l -> filter (fun x => negb (Nat.eqb id x)) l = l.
Proof.
  induction l as [|x r IH]; cbn; intros H; [reflexivity|].
  destruct (Nat.eqb_spec id x) as [E|E].
  - exfalso. apply H. left. symmetry. exact E.
  - cbn. rewrite IH; [reflexivity|]. intros Hin. apply H. right. exact Hin.
Qed.

Lemma In_filter_ne (id x : nat) (l : list nat) :
  In x (filter (fun y => negb (Nat.eqb id y)) l) <-> In x l /\ x <> id.
Proof.
  rewrite filter_In, negb_true_iff, Nat.eqb_neq. intuition congruence.
Qed.

Lemma find_fst_In {B} (id : nat) (l : list (nat * B)) (c : nat * B) :
  find (fun c => Nat.eqb id (fst c)) l = Some c -> In c l /\ fst c = id.
Proof.
  intros H. apply find_some in H as [Hin He].
  apply Nat.eqb_eq in He. split; [exact Hin | symmetry; exact He].
Qed.

Lemma existsb_eqb_In (id : nat) (l : list nat) :
  existsb (Nat.eqb id) l = true -> In id l.
Proof.
  intros H. apply existsb_exists in H as (x & Hin & He).
  apply Nat.eqb_eq in He. subst. exact Hin.
Qed.

Lemma NoDup_app_disjoint {A} (l1 l2 : list A) (x : A) :
  NoDup (l1 ++ l2) -> In x l1 -> ~ In x l2.
Proof.
  induction l1 as [|y r IH]; cbn; intros Hn Hin; [contradiction|].
  inversion Hn as [|? ? Hy Hr]; subst. destruct Hin as [->|Hin].
  - intros H2. apply Hy. apply in_or_app. right. exact H2.
  - apply IH; assumption.
Qed.

End TimerLists.

(** ** What each handler and each continuation can do to the world *)

Section Effects.

Lemma cleanup_noop (w : World) :
  refsEmpty (comp w) -> cleanupWifiListener w = (Ok tt, w).
Proof.
  intros (H1 & H2 & H3). rewrite cleanupWifiListener_run.
  destruct w as [[mo tr lr cf nets sel pw sc sp cfg] ts nx lg]. cbn in *. subst.
  unfold released, timersReleased, releases. cbn. rewrite app_nil_r. reflexivity.
Qed.

Lemma scanPending_facts (w : World) :
  refsEmpty (comp w) ->
  timers (scanPending w) = nextTimer w :: timers w /\
  nextTimer (scanPending w) = S (nextTimer w) /\
  requests (scanPending w) = requests w ++ [scanRequest] /\
  comp (scanPending w) =
    mkState true None None [] [] (selectedNetwork (comp w)) (wifiPassword (comp w))
            true (showPassword (comp w)) (isConfiguring (comp w)).
Proof.
  intros (H1 & H2 & H3). unfold scanPending. cbn.
  unfold timersReleased. rewrite H1. repeat split. log_simpl. reflexivity.
Qed.

Lemma configurePending_facts (selected : Network) (w : World) :
  timers (configurePending selected w) = nextTimer w :: timers w /\
  nextTimer (configurePending selected w) = S (nextTimer w) /\
  requests (configurePending selected w) =
    requests w ++ [configureRequest selected (wifiPassword (comp w))] /\
  comp (configurePending selected w) =
    mkState (mountedRef (comp w)) (wifiScanTimerRef (comp w))
      (wifiListenerRef (comp w)) (cleanupFunctionsRef (comp w))
      (wifiNetworks (comp w)) (selectedNetwork (comp w)) (wifiPassword (comp w))
      (isScanning (comp w)) (showPassword (comp w)) true.
Proof. unfold configurePending. cbn. repeat split. log_simpl. reflexivity. Qed.

Lemma scanCallbackOf_cases (p : Props) (scanning : bool)
    (deviceId : option string) (w : World) :
  mountedRef (comp w) = true ->
  scanCallbackOf p scanning deviceId w = (Ok None, w) \/
  scanCallbackOf p scanning deviceId w = (Ok (Some (nextTimer w)), scanPending w).
Proof.
  intros Hm. unfold scanCallbackOf.
  destruct (negb (JS.truthy deviceId) || scanning || negb (JS.truthy (userId p)));
    [left; reflexivity|].
  right. mstep. rewrite cleanupWifiListener_run. unfold released at 1. cbn.
  rewrite Hm. mstep. unfold scanPending, released, scanOptions. cbn.
  rewrite Hm, <- !app_assoc. reflexivity.
Qed.

Lemma scan_begin_as_callback (p : Props) (deviceId : option string) (w : World) :
  scanWifiNetworksViaHTTP_begin p deviceId w =
  scanCallbackOf p (isScanning (comp w)) deviceId w.
Proof. reflexivity. Qed.

Lemma pressScanButton_cases (p : Props) (w : World) :
  mountedRef (comp w) = true ->
  pressScanButton p w = (Ok None, w) \/
  pressScanButton p w = (Ok (Some (nextTimer w)), scanPending w).
Proof.
  intros Hm. unfold pressScanButton, bind, get. cbn.
  destruct (scanButtonDisabled p (comp w)); [left; reflexivity|].
  rewrite scan_begin_as_callback. apply scanCallbackOf_cases, Hm.
Qed.

Lemma pressConnectButton_cases (p : Props) (w : World) :
  pressConnectButton p w = (Ok None, w) \/
  (exists a, visible a = true /\ isFetch a = false /\
             pressConnectButton p w = (Ok None, exec (emit a) w)) \/
  (exists selected,
     selectedNetwork (comp w) = Some selected /\
     isConfiguring (comp w) = false /\
     (notOpen selected = true -> wifiPassword (comp w) <> "") /\
     pressConnectButton p w =
       (Ok (Some (nextTimer w, selected)), configurePending selected w)).
Proof.
  unfold pressConnectButton, bind, get. cbn. unfold connectButtonDisabled.
  destruct (selectedNetwork (comp w)) as [sel|] eqn:Hsel; [|left; reflexivity].
  destruct (isConfiguring (comp w)) eqn:Hc; [left; reflexivity|].
  destruct (JS.truthy (deviceIdOf p)) eqn:Hd.
  - destruct (JS.truthy (userId p)) eqn:Hu.
    + destruct (notOpen sel && (wifiPassword (comp w) =? "")%string) eqn:G.
      * right. left. exists enterPasswordAlert. split; [reflexivity|].
        split; [reflexivity|]. apply andb_true_iff in G as [Hn Hp].
        apply String.eqb_eq in Hp.
        apply (configure_begin_password _ _ sel Hsel Hd Hu Hc Hn Hp).
      * right. right. exists sel. split; [reflexivity|]. split; [reflexivity|].
        assert (Hpw : notOpen sel = true -> wifiPassword (comp w) <> "").
        { intros Hn. rewrite Hn in G. cbn in G. apply String.eqb_neq. exact G. }
        split; [exact Hpw|].
        apply (configure_begin_run _ _ _ Hd Hu Hsel Hc Hpw).
    + right. left. exists selectNetworkAlert. split; [reflexivity|].
      split; [reflexivity|]. apply configure_begin_guard. auto.
  - right. left. exists selectNetworkAlert. split; [reflexivity|].
    split; [reflexivity|]. apply configure_begin_guard. auto.
Qed.

(** The continuation of a scan: the timer is cleared, no request is
    issued, and the component changes in its list and its scanning flag
    only: it is untouched, or scanning ends, with the list as it was or
    with the list of a response. *)
Lemma scan_resume_cases (timeoutId : nat) (s : Settlement) (w : World) :
  let w' := exec (scanWifiNetworksViaHTTP_resume timeoutId s) w in
  timers w' = remove Nat.eq_dec timeoutId (timers w) /\
  nextTimer w' = nextTimer w /\
  requests w' = requests w /\
  (comp w' = comp w \/
   exists nets,
     (nets = wifiNetworks (comp w) \/ exists arr, nets = validNetworks arr) /\
     comp w' =
       mkState (mountedRef (comp w)) (wifiScanTimerRef (comp w))
         (wifiListenerRef (comp w)) (cleanupFunctionsRef (comp w))
         nets (selectedNetwork (comp w)) (wifiPassword (comp w))
         false (showPassword (comp w)) (isConfiguring (comp w))).
Proof.
  intros w'. subst w'. unfold exec.
  assert (Hreq : forall u, requests (settled timeoutId s u) = requests u).
  { intros u. destruct s; unfold settled, requests; mstep;
      rewrite ?filter_app; cbn; rewrite ?app_nil_r; reflexivity. }
  assert (Hm : {mountedRef (comp w) = true} + {mountedRef (comp w) = false})
    by (destruct (mountedRef (comp w)); auto).
  destruct Hm as [Hm|Hm].
  - destruct (scanThrown s) as [e|] eqn:Ht.
    + rewrite (scan_resume_failure _ _ _ e Hm Ht).
      mstep. rewrite settled_timers, settled_nextTimer, !settled_comp.
      repeat split.
      * unfold requests at 1. cbn. rewrite filter_app.
        fold (requests (settled timeoutId s w)). rewrite Hreq.
        destruct (name e =? "AbortError")%string; cbn; apply app_nil_r.
      * right. exists (wifiNetworks (comp w)). split; [left; reflexivity|].
        reflexivity.
    + unfold scanThrown in Ht. destruct s as [r| |]; cbn in Ht; try discriminate.
      destruct (ok r) eqn:Hok; [|discriminate].
      destruct (json r) as [data|] eqn:Hj; [|discriminate].
      destruct (success data) eqn:Hs.
      * destruct (networks data) as [arr|] eqn:Hn.
        -- rewrite (scan_resume_networks _ _ r data arr Hm Hok Hj Hs Hn). cbn.
           repeat split.
           ++ log_simpl. reflexivity.
           ++ right. exists (validNetworks arr). split; [right; eauto|].
              reflexivity.
        -- destruct (scan_resume_empty timeoutId w r data Hm Hok Hj (or_intror Hn))
             as [_ E].
           rewrite E. cbn. repeat split.
           ++ log_simpl. reflexivity.
           ++ right. exists (wifiNetworks (comp w)). split; [left; reflexivity|].
              reflexivity.
      * destruct (scan_resume_empty timeoutId w r data Hm Hok Hj (or_introl Hs))
          as [_ E].
        rewrite E. cbn. repeat split.
        -- log_simpl. reflexivity.
        -- right. exists (wifiNetworks (comp w)). split; [left; reflexivity|].
           reflexivity.
  - rewrite (scan_resume_unmounted _ _ _ Hm). cbn [snd].
    rewrite settled_timers, settled_nextTimer, settled_comp, Hreq.
    repeat split. left. reflexivity.
Qed.

(** The continuation of a configuration: the timer is cleared, no request
    is issued, and the component is untouched when it is not mounted, and
    changes in its configuring flag only, which ends false, when it is. *)
Lemma configure_resume_cases (timeoutId : nat) (selected : Network)
    (s : Settlement) (w : World) :
  let w' := exec (configureWifiViaHTTP_resume timeoutId selected s) w in
  timers w' = remove Nat.eq_dec timeoutId (timers w) /\
  nextTimer w' = nextTimer w /\
  requests w' = requests w /\
  (mountedRef (comp w) = false -> comp w' = comp w) /\
  (mountedRef (comp w) = true ->
   comp w' =
     mkState (mountedRef (comp w)) (wifiScanTimerRef (comp w))
       (wifiListenerRef (comp w)) (cleanupFunctionsRef (comp w))
       (wifiNetworks (comp w)) (selectedNetwork (comp w)) (wifiPassword (comp w))
       (isScanning (comp w)) (showPassword (comp w)) false).
Proof.
  intros w'. subst w'. unfold exec.
  assert (Hreq : forall u, requests (settled timeoutId s u) = requests u).
  { intros u. destruct s; unfold settled, requests; mstep;
      rewrite ?filter_app; cbn; rewrite ?app_nil_r; reflexivity. }
  assert (Hm : {mountedRef (comp w) = true} + {mountedRef (comp w) = false})
    by (destruct (mountedRef (comp w)); auto).
  destruct Hm as [Hm|Hm].
  - destruct (configureThrown s) as [e|] eqn:Ht.
    + rewrite (configure_resume_failure _ _ _ _ e Hm Ht).
      mstep. rewrite settled_timers, settled_nextTimer, !settled_comp.
      repeat split; try (intros; congruence).
      unfold requests at 1. cbn. rewrite filter_app.
      fold (requests (settled timeoutId s w)). rewrite Hreq.
      destruct (name e =? "AbortError")%string; cbn; apply app_nil_r.
    + unfold configureThrown in Ht. destruct s as [r| |]; cbn in Ht; try discriminate.
      destruct (ok r) eqn:Hok; [|discriminate].
      destruct (json r) as [result|] eqn:Hj; [|discriminate].
      destruct (success result) eqn:Hs; [|discriminate].
      rewrite (configure_resume_success _ _ _ r result Hm Hok Hj Hs). cbn.
      repeat split; try (intros; congruence). log_simpl. reflexivity.
  - rewrite (configure_resume_unmounted _ _ _ _ Hm). cbn [snd].
    rewrite settled_timers, settled_nextTimer, settled_comp, Hreq.
    repeat split; try (intros; congruence).
Qed.

End Effects.

(** ** The invariants are kept by every action *)

Section Accounting.

Variables (a b c : list nat) (id : nat).
Hypothesis Hnodup : NoDup (a ++ b ++ c).

Let keep (x : nat) : bool := negb (Nat.eqb id x).

Lemma filter_first : In id a -> filter keep (a ++ b ++ c) = filter keep a ++ b ++ c.
Proof.
  intros Hin. pose proof (NoDup_app_disjoint _ _ _ Hnodup Hin) as Hd.
  rewrite !filter_app. unfold keep.
  rewrite (filter_absent id b), (filter_absent id c); [reflexivity| |];
    intros H; apply Hd; apply in_or_app; auto.
Qed.

Lemma filter_second : In id b -> filter keep (a ++ b ++ c) = a ++ filter keep b ++ c.
Proof.
  intros Hin.
  assert (Hn : NoDup (b ++ a ++ c)).
  { eapply Permutation_NoDup; [apply Permutation_app_swap_app | exact Hnodup]. }
  pose proof (NoDup_app_disjoint _ _ _ Hn Hin) as Hd.
  rewrite !filter_app. unfold keep.
  rewrite (filter_absent id a), (filter_absent id c); [reflexivity| |];
    intros H; apply Hd; apply in_or_app; auto.
Qed.

Lemma filter_third : In id c -> filter keep (a ++ b ++ c) = a ++ b ++ filter keep c.
Proof.
  intros Hin.
  assert (Hn : NoDup (c ++ a ++ b)).
  { eapply Permutation_NoDup; [|exact Hnodup].
    rewrite app_assoc. apply Permutation_app_comm. }
  pose proof (NoDup_app_disjoint _ _ _ Hn Hin) as Hd.
  rewrite !filter_app. unfold keep.
  rewrite (filter_absent id a), (filter_absent id b); [reflexivity| |];
    intros H; apply Hd; apply in_or_app; auto.
Qed.

End Accounting.

Section Invariant.

Variable p : Props.

Lemma accounted_removed (sys : System) (w' : World) (sc : list nat)
    (cf : list (nat * Network)) (au : list (nat * bool)) (id : nat) :
  timersAccounted sys ->
  timers w' = remove Nat.eq_dec id (timers (world sys)) ->
  nextTimer w' = nextTimer (world sys) ->
  outstanding (mkSystem w' sc cf au) =
    filter (fun x => negb (Nat.eqb id x)) (outstanding sys) ->
  timersAccounted (mkSystem w' sc cf au).
Proof.
  intros (Hin & Hlt & Hnd) Ht Hn Ho. unfold timersAccounted. rewrite Ho. cbn.
  rewrite Ht, Hn. split; [|split].
  - intros x. rewrite In_filter_ne, <- Hin. split.
    + intros H. apply in_remove in H. destruct H as [H1 H2]. split; congruence.
    + intros [H1 H2]. apply in_in_remove; congruence.
  - intros x Hx. apply In_filter_ne in Hx. apply Hlt, Hx.
  - apply NoDup_filter, Hnd.
Qed.

Lemma accounted_added (sys : System) (w' : World) (sc : list nat)
    (cf : list (nat * Network)) (au : list (nat * bool)) :
  timersAccounted sys ->
  timers w' = nextTimer (world sys) :: timers (world sys) ->
  nextTimer w' = S (nextTimer (world sys)) ->
  Permutation (outstanding (mkSystem w' sc cf au))
              (nextTimer (world sys) :: outstanding sys) ->
  timersAccounted (mkSystem w' sc cf au).
Proof.
  intros (Hin & Hlt & Hnd) Ht Hn Hp. unfold timersAccounted. cbn [world].
  rewrite Ht, Hn. split; [|split].
  - intros x. split.
    + intros H. apply (Permutation_in _ (Permutation_sym Hp)).
      destruct H as [H|H]; [left; exact H | right; apply Hin, H].
    + intros H. apply (Permutation_in _ Hp) in H.
      destruct H as [H|H]; [left; exact H | right; apply Hin, H].
  - intros x H. apply (Permutation_in _ Hp) in H.
    destruct H as [<-|H]; [lia|]. apply Hlt in H. lia.
  - apply (Permutation_NoDup (Permutation_sym Hp)). constructor; [|exact Hnd].
    intros H. apply Hlt in H. lia.
Qed.

Lemma accounted_same (sys : System) (w' : World) :
  timersAccounted sys ->
  timers w' = timers (world sys) ->
  nextTimer w' = nextTimer (world sys) ->
  timersAccounted (mkSystem w' (scans sys) (configurations sys) (autoScans sys)).
Proof.
  intros (Hin & Hlt & Hnd) Ht Hn. unfold timersAccounted, outstanding in *.
  cbn. rewrite Ht, Hn. auto.
Qed.

(** A change of the component that touches neither the timers, nor the
    requests, nor the refs, nor the two flags of the invariants. *)
Lemma invariant_tweak (sys : System) (w' : World) :
  invariant sys ->
  timers w' = timers (world sys) ->
  nextTimer w' = nextTimer (world sys) ->
  requests w' = requests (world sys) ->
  refsEmpty (comp w') ->
  listValid (comp w') ->
  mountedRef (comp w') = mountedRef (comp (world sys)) ->
  isConfiguring (comp w') = isConfiguring (comp (world sys)) ->
  invariant (mkSystem w' (scans sys) (configurations sys) (autoScans sys)).
Proof.
  intros (_ & _ & Hacc & Hone & Hreq & Hcf) Ht Hn Hr Hrefs Hlist Hm Hc.
  split; [exact Hrefs|]. split; [exact Hlist|]. split; [|split].
  - apply accounted_same; assumption.
  - unfold oneConfiguration in *. cbn. rewrite Hm, Hc. exact Hone.
  - split; cbn; [rewrite Hr; exact Hreq | exact Hcf].
Qed.

Lemma invariant_scan_started (sys : System) :
  invariant sys ->
  mountedRef (comp (world sys)) = true ->
  invariant (mkSystem (scanPending (world sys)) (nextTimer (world sys) :: scans sys)
                      (configurations sys) (autoScans sys)).
Proof.
  intros (Hrefs & Hlist & Hacc & Hone & Hreq & Hcf) Hm.
  destruct (scanPending_facts _ Hrefs) as (Ht & Hn & Hr & Hc).
  unfold invariant. cbn [world].
  split; [|split; [|split; [|split]]].
  - rewrite Hc. repeat split.
  - rewrite Hc. destruct Hlist as (_ & _ & Hsel & _).
    split; [constructor|]. split; [constructor|]. split; [exact Hsel|reflexivity].
  - apply (accounted_added sys); try assumption. apply Permutation_refl.
  - unfold oneConfiguration in *. cbn [world configurations]. rewrite Hc. cbn.
    intros _. apply Hone, Hm.
  - split; cbn [world configurations]; [|exact Hcf].
    rewrite Hr. apply Forall_app. split; [exact Hreq|].
    constructor; [left; reflexivity | constructor].
Qed.

Lemma invariant_configure_started (sys : System) (selected : Network) :
  invariant sys ->
  mountedRef (comp (world sys)) = true ->
  selectedNetwork (comp (world sys)) = Some selected ->
  isConfiguring (comp (world sys)) = false ->
  (notOpen selected = true -> wifiPassword (comp (world sys)) <> "") ->
  invariant (mkSystem (configurePending selected (world sys)) (scans sys)
                      ((nextTimer (world sys), selected) :: configurations sys)
                      (autoScans sys)).
Proof.
  intros (Hrefs & Hlist & Hacc & Hone & Hreq & Hcf) Hm Hsel Hcfg Hpw.
  destruct (configurePending_facts selected (world sys)) as (Ht & Hn & Hr & Hc).
  assert (Hs : hasSsid selected = true).
  { destruct Hlist as (_ & _ & H & _). apply H, Hsel. }
  unfold invariant. cbn [world].
  split; [|split; [|split; [|split]]].
  - rewrite Hc. exact Hrefs.
  - rewrite Hc. exact Hlist.
  - apply (accounted_added sys); try assumption. unfold outstanding. cbn.
    apply Permutation_sym, Permutation_middle.
  - unfold oneConfiguration in *. cbn [world configurations]. rewrite Hc. cbn.
    intros _. destruct (Hone Hm) as [_ Hiff].
    assert (E : configurations sys = []).
    { destruct (configurations sys) as [|c r]; [reflexivity|].
      assert (isConfiguring (comp (world sys)) = true) by (apply Hiff; discriminate).
      congruence. }
    rewrite E. cbn. split; [lia|]. split; [discriminate | reflexivity].
  - split; cbn [world configurations].
    + rewrite Hr. apply Forall_app. split; [exact Hreq|].
      constructor; [|constructor]. right.
      exists selected, (wifiPassword (comp (world sys))). auto.
    + constructor; [exact Hs | exact Hcf].
Qed.

Lemma invariant_auto_set (sys : System) (scanning : bool) :
  invariant sys ->
  invariant
    (mkSystem
       (mkWorld (comp (world sys)) (nextTimer (world sys) :: timers (world sys))
                (S (nextTimer (world sys)))
                (log (world sys) ++ [SetTimeout (nextTimer (world sys)) AUTO_SCAN_DELAY]))
       (scans sys) (configurations sys)
       ((nextTimer (world sys), scanning) :: autoScans sys)).
Proof.
  intros (Hrefs & Hlist & Hacc & Hone & Hreq & Hcf).
  split; [exact Hrefs|]. split; [exact Hlist|]. split; [|split].
  - apply (accounted_added sys); try assumption; try reflexivity.
    unfold outstanding. cbn. apply Permutation_sym.
    rewrite !app_assoc. apply Permutation_middle.
  - exact Hone.
  - split; cbn; [|exact Hcf]. unfold requests in *. cbn.
    rewrite filter_app. cbn. rewrite app_nil_r. exact Hreq.
Qed.

Lemma invariant_auto_expired (sys : System) (id : nat) (c : nat * bool) :
  invariant sys ->
  find (fun c => Nat.eqb id (fst c)) (autoScans sys) = Some c ->
  invariant
    (mkSystem
       (exec (timerExpires id) (world sys))
       (scans sys) (configurations sys)
       (filter (fun c => negb (Nat.eqb id (fst c))) (autoScans sys))).
Proof.
  intros (Hrefs & Hlist & Hacc & Hone & Hreq & Hcf) Hf.
  apply find_fst_In in Hf as [Hin Hid].
  split; [exact Hrefs|]. split; [exact Hlist|]. split; [|split].
  - apply (accounted_removed sys _ _ _ _ id); try assumption; try reflexivity.
    unfold outstanding. cbn [scans configurations autoScans].
    rewrite map_fst_filter. symmetry.
    apply filter_third; [apply Hacc|].
    rewrite <- Hid. apply in_map, Hin.
  - exact Hone.
  - split; [exact Hreq | exact Hcf].
Qed.

Lemma invariant_scan_settled (sys : System) (id : nat) (s : Settlement) :
  invariant sys ->
  In id (scans sys) ->
  invariant
    (mkSystem (exec (scanWifiNetworksViaHTTP_resume id s) (world sys))
              (remove Nat.eq_dec id (scans sys)) (configurations sys) (autoScans sys)).
Proof.
  intros (Hrefs & Hlist & Hacc & Hone & Hreq & Hcf) Hin.
  destruct (scan_resume_cases id s (world sys)) as (Ht & Hn & Hr & Hc).
  set (w' := exec (scanWifiNetworksViaHTTP_resume id s) (world sys)) in *.
  assert (Hacc' : timersAccounted
                    (mkSystem w' (remove Nat.eq_dec id (scans sys))
                              (configurations sys) (autoScans sys))).
  { apply (accounted_removed sys _ _ _ _ id); try assumption.
    unfold outstanding. cbn [scans configurations autoScans].
    rewrite remove_as_filter. symmetry. apply filter_first; [apply Hacc | exact Hin]. }
  unfold invariant. cbn [world].
  destruct Hc as [Hc | (nets & Hnets & Hc)].
  - split; [rewrite Hc; exact Hrefs|]. split; [rewrite Hc; exact Hlist|].
    split; [exact Hacc'|]. split.
    + unfold oneConfiguration in *. cbn [world configurations]. rewrite Hc. exact Hone.
    + split; cbn [world configurations]; [rewrite Hr; exact Hreq | exact Hcf].
  - split; [rewrite Hc; exact Hrefs|]. split; [|split; [exact Hacc'|split]].
    + rewrite Hc. destruct Hlist as (Hv & Hs & Hsel & _). unfold listValid. cbn.
      destruct Hnets as [-> | (arr & ->)].
      * repeat split; try assumption. discriminate.
      * split; [apply validNetworks_valid|].
        split; [apply validNetworks_sorted_key|]. split; [exact Hsel|discriminate].
    + unfold oneConfiguration in *. cbn [world configurations]. rewrite Hc. exact Hone.
    + split; cbn [world configurations]; [rewrite Hr; exact Hreq | exact Hcf].
Qed.

Lemma invariant_configure_settled (sys : System) (id : nat) (c : nat * Network)
    (s : Settlement) :
  invariant sys ->
  find (fun c => Nat.eqb id (fst c)) (configurations sys) = Some c ->
  invariant
    (mkSystem (exec (configureWifiViaHTTP_resume id (snd c) s) (world sys))
              (scans sys)
              (filter (fun c => negb (Nat.eqb id (fst c))) (configurations sys))
              (autoScans sys)).
Proof.
  intros (Hrefs & Hlist & Hacc & Hone & Hreq & Hcf) Hf.
  apply find_fst_In in Hf as [Hin Hid].
  destruct (configure_resume_cases id (snd c) s (world sys))
    as (Ht & Hn & Hr & Hdead & Hlive).
  set (w' := exec (configureWifiViaHTTP_resume id (snd c) s) (world sys)) in *.
  assert (Hacc' : timersAccounted
                    (mkSystem w' (scans sys)
                       (filter (fun c => negb (Nat.eqb id (fst c))) (configurations sys))
                       (autoScans sys))).
  { apply (accounted_removed sys _ _ _ _ id); try assumption.
    unfold outstanding. cbn [scans configurations autoScans].
    rewrite map_fst_filter. symmetry. apply filter_second; [apply Hacc|].
    rewrite <- Hid. apply in_map, Hin. }
  assert (Hcf' : Forall (fun c => hasSsid (snd c) = true)
                   (filter (fun c => negb (Nat.eqb id (fst c))) (configurations sys))).
  { apply Forall_forall. intros x Hx. apply filter_In in Hx as [Hx _].
    rewrite Forall_forall in Hcf. apply Hcf, Hx. }
  unfold invariant. cbn [world].
  destruct (mountedRef (comp (world sys))) eqn:Hm.
  - specialize (Hlive eq_refl).
    split; [rewrite Hlive; exact Hrefs|]. split; [rewrite Hlive; exact Hlist|].
    split; [exact Hacc'|]. split.
    + unfold oneConfiguration. cbn [world configurations]. rewrite Hlive. cbn.
      intros _. destruct (Hone Hm) as [Hlen _].
      assert (E : configurations sys = [c]).
      { destruct (configurations sys) as [|x [|y r]]; cbn in Hlen, Hin.
        - contradiction.
        - destruct Hin as [->|[]]. reflexivity.
        - lia. }
      rewrite E. cbn. rewrite Hid, Nat.eqb_refl. cbn.
      split; [lia|]. split; [discriminate | intros H; contradiction H; reflexivity].
    + split; cbn [world configurations]; [rewrite Hr; exact Hreq | exact Hcf'].
  - specialize (Hdead eq_refl).
    split; [rewrite Hdead; exact Hrefs|]. split; [rewrite Hdead; exact Hlist|].
    split; [exact Hacc'|]. split.
    + unfold oneConfiguration. cbn [world configurations]. rewrite Hdead, Hm.
      discriminate.
    + split; cbn [world configurations]; [rewrite Hr; exact Hreq | exact Hcf'].
Qed.

End Invariant.

Section Steps2.

Variable p : Props.

Lemma invariant_alert (sys : System) (a : Event) :
  invariant sys -> isFetch a = false ->
  invariant (mkSystem (exec (emit a) (world sys)) (scans sys) (configurations sys)
                      (autoScans sys)).
Proof.
  intros H Ha. apply invariant_tweak; try assumption; try reflexivity;
    try apply H.
  unfold requests. cbn. rewrite filter_app. cbn. rewrite Ha. apply app_nil_r.
Qed.

Lemma invariant_closed (sys : System) :
  invariant sys ->
  invariant (mkSystem (exec handleClose (world sys)) (scans sys) (configurations sys)
                      (autoScans sys)).
Proof.
  intros H. pose proof H as (Hrefs & Hlist & _).
  unfold exec. rewrite handleClose_run. cbn [snd].
  destruct Hrefs as (H1 & H2 & H3).
  apply invariant_tweak; try assumption; cbn.
  - unfold timersReleased. rewrite H1. reflexivity.
  - reflexivity.
  - unfold requests. cbn. rewrite !filter_app, releases_no_request. cbn.
    apply app_nil_r.
  - repeat split.
  - split; [constructor|]. split; [constructor|].
    split; [discriminate | reflexivity].
  - reflexivity.
  - reflexivity.
Qed.

Lemma invariant_unmounted (sys : System) :
  invariant sys ->
  invariant (mkSystem (exec unmount (world sys)) (scans sys) (configurations sys)
                      (autoScans sys)).
Proof.
  intros (Hrefs & Hlist & Hacc & Hone & Hreq & Hcf).
  assert (E : exec unmount (world sys) = exec (setMounted false) (world sys)).
  { unfold exec at 1. rewrite unmount_run. cbn [snd]. unfold exec at 1.
    rewrite cleanup_noop; [reflexivity | exact Hrefs]. }
  rewrite E. unfold invariant. cbn.
  split; [exact Hrefs|]. split; [exact Hlist|]. split; [|split].
  - apply (accounted_same sys); [exact Hacc | reflexivity | reflexivity].
  - unfold oneConfiguration. cbn. discriminate.
  - split; [exact Hreq | exact Hcf].
Qed.

Lemma invariant_item_pressed (sys : System) (index : nat) :
  invariant sys ->
  invariant (mkSystem (exec (pressNetworkItem index) (world sys)) (scans sys)
                      (configurations sys) (autoScans sys)).
Proof.
  intros H. pose proof H as (Hrefs & Hlist & _).
  unfold pressNetworkItem, exec, bind, get. cbn.
  destruct (nth_error (wifiNetworks (comp (world sys))) index) as [n|] eqn:Hn;
    [|destruct sys; exact H].
  destruct (isScanning (comp (world sys))) eqn:Hs; [destruct sys; exact H|].
  mstep. apply invariant_tweak; try assumption; try reflexivity.
  destruct Hlist as (Hv & Hso & _ & _). unfold listValid. cbn.
  repeat split; try assumption.
  - intros sel [= <-]. rewrite Forall_forall in Hv. apply Hv.
    eapply nth_error_In. exact Hn.
  - rewrite Hs. discriminate.
Qed.

Lemma invariant_password_changed (sys : System) (text : string) :
  invariant sys ->
  invariant (mkSystem (exec (changePasswordText text) (world sys)) (scans sys)
                      (configurations sys) (autoScans sys)).
Proof.
  intros H. pose proof H as (Hrefs & Hlist & _).
  unfold changePasswordText, exec, bind, get. cbn.
  destruct (passwordSectionShown (comp (world sys))); [|destruct sys; exact H].
  mstep. apply invariant_tweak; try assumption; reflexivity.
Qed.

Lemma invariant_eye_pressed (sys : System) :
  invariant sys ->
  invariant (mkSystem (exec pressEyeButton (world sys)) (scans sys)
                      (configurations sys) (autoScans sys)).
Proof.
  intros H. pose proof H as (Hrefs & Hlist & _).
  unfold pressEyeButton, exec, bind, get. cbn.
  destruct (passwordSectionShown (comp (world sys))); [|destruct sys; exact H].
  mstep. apply invariant_tweak; try assumption; reflexivity.
Qed.

Lemma step_invariant (sys : System) (a : Action) :
  invariant sys -> invariant (step p sys a).
Proof.
  intros H. destruct a; cbn [step]; unfold ifRendered.
  - (* BecomeVisible *)
    destruct (mountedRef (comp (world sys))); [|exact H].
    unfold visibleEffect. mstep. apply invariant_auto_set, H.
  - (* PressScan *)
    destruct (mountedRef (comp (world sys))) eqn:Hm; [|exact H].
    destruct (pressScanButton_cases p (world sys) Hm) as [E|E]; rewrite E.
    + destruct sys; exact H.
    + apply invariant_scan_started; assumption.
  - (* PressItem *)
    destruct (mountedRef (comp (world sys))); [|exact H].
    apply invariant_item_pressed, H.
  - (* ChangePassword *)
    destruct (mountedRef (comp (world sys))); [|exact H].
    apply invariant_password_changed, H.
  - (* PressEye *)
    destruct (mountedRef (comp (world sys))); [|exact H].
    apply invariant_eye_pressed, H.
  - (* PressConnect *)
    destruct (mountedRef (comp (world sys))) eqn:Hm; [|exact H].
    destruct (pressConnectButton_cases p (world sys))
      as [E | [(a & _ & Ha & E) | (sel & Hsel & Hc & Hpw & E)]]; rewrite E.
    + destruct sys; exact H.
    + apply invariant_alert; assumption.
    + apply invariant_configure_started; assumption.
  - (* PressClose *)
    destruct (mountedRef (comp (world sys))); [|exact H].
    apply invariant_closed, H.
  - (* PressOk *)
    destruct (mountedRef (comp (world sys))) eqn:Hm; [|exact H].
    assert (E : exec connectedOkPressed (world sys) = exec handleClose (world sys)).
    { unfold connectedOkPressed, ifMounted, exec. unfold bind at 1. unfold get.
      cbv beta iota. rewrite Hm. reflexivity. }
    rewrite E. apply invariant_closed, H.
  - (* ScanSettles *)
    destruct (existsb (Nat.eqb timeoutId) (scans sys)) eqn:E; [|exact H].
    apply invariant_scan_settled; [exact H | apply existsb_eqb_In, E].
  - (* ConfigureSettles *)
    destruct (find (fun c => Nat.eqb timeoutId (fst c)) (configurations sys))
      as [[i sel]|] eqn:E; [|exact H].
    apply (invariant_configure_settled sys timeoutId (i, sel) s H E).
  - (* AutoScanTimer *)
    destruct (find (fun c => Nat.eqb timerId (fst c)) (autoScans sys))
      as [[i scanning]|] eqn:E; [|exact H].
    pose proof (invariant_auto_expired sys timerId (i, scanning) H E) as HE.
    set (wE := exec (timerExpires timerId) (world sys)) in *.
    set (rest := filter (fun c => negb (Nat.eqb timerId (fst c))) (autoScans sys)) in *.
    assert (Hf : autoScanFires p (scanCallbackOf p scanning) timerId (world sys) =
                 autoScanCallback p (scanCallbackOf p scanning) wE).
    { reflexivity. }
    rewrite Hf. unfold autoScanCallback. unfold bind at 1. unfold get.
    cbv beta iota.
    destruct (mountedRef (comp wE)) eqn:Hm; cbn [andb]; [|exact HE].
    destruct (JS.truthy (deviceIdOf p)); [|exact HE].
    destruct (scanCallbackOf_cases p scanning (deviceIdOf p) wE Hm) as [C|C];
      rewrite C.
    + exact HE.
    + exact (invariant_scan_started _ HE Hm).
  - (* Unmount *)
    apply invariant_unmounted, H.
Qed.

Lemma initial_invariant : invariant initialSystem.
Proof.
  unfold invariant, initialSystem. cbn. split; [repeat split|].
  split; [repeat split; try constructor; discriminate|].
  split; [|split].
  - unfold timersAccounted, outstanding. cbn. repeat split; try tauto.
    constructor.
  - unfold oneConfiguration. cbn. intros _. split; [lia|].
    split; [discriminate | intros N; contradiction N; reflexivity].
  - split; constructor.
Qed.

Lemma run_invariant (actions : list Action) (sys : System) :
  invariant sys -> invariant (run p sys actions).
Proof.
  revert sys. induction actions as [|a r IH]; intros sys H; [exact H|].
  cbn. apply IH, step_invariant, H.
Qed.

End Steps2.

(** ** What holds in every state that the component can reach *)

(** X14. In every state that the component reaches from its initial
    state, whatever the actions, nothing is held in the three refs of the
    release operation: a call of that operation leaves the world as it
    is. *)
Theorem reachable_release_is_noop (p : Props) (actions : list Action) :
  let w := world (run p initialSystem actions) in
  wifiScanTimerRef (comp w) = None /\
  wifiListenerRef (comp w) = None /\
  cleanupFunctionsRef (comp w) = [] /\
  cleanupWifiListener w = (Ok tt, w).
Proof.
  intros w. destruct (run_invariant p actions _ initial_invariant) as (Hrefs & _).
  fold w in Hrefs. pose proof (cleanup_noop _ Hrefs) as Hc.
  destruct Hrefs as (H1 & H2 & H3). auto.
Qed.

(** X15. In every reachable state the listed networks have an ssid that
    is not blank and are in decreasing order of the key [rssi || -100];
    the selected network, if any, has an ssid that is not blank; the list
    is empty while scanning; and with no selected network no listed item
    is marked as selected. *)
Theorem reachable_list_valid (p : Props) (actions : list Action) :
  let st := comp (world (run p initialSystem actions)) in
  Forall (fun n => hasSsid n = true) (wifiNetworks st) /\
  StronglySorted (fun a b => sortKey a >= sortKey b) (wifiNetworks st) /\
  (forall selected, selectedNetwork st = Some selected -> hasSsid selected = true) /\
  (isScanning st = true -> wifiNetworks st = []) /\
  (selectedNetwork st = None ->
   forall n, In n (wifiNetworks st) -> isSelected st n = false).
Proof.
  intros st.
  destruct (run_invariant p actions _ initial_invariant)
    as (_ & (Hv & Hs & Hsel & Hsc) & _).
  fold st in Hv, Hs, Hsel, Hsc. repeat split; try assumption.
  intros Hnone n Hn. unfold isSelected. rewrite Hnone.
  rewrite Forall_forall in Hv. specialize (Hv n Hn). unfold hasSsid in Hv.
  destruct (ssid n); [reflexivity | discriminate].
Qed.

(** X16. In every reachable state the pending timers are exactly the
    timers of what is outstanding, the scan requests, the configuration
    requests and the automatic scans, each once: the timer of a request is
    cleared when the request settles, whether the component is mounted or
    not, and with nothing outstanding no timer is pending. *)
Theorem reachable_timers_accounted (p : Props) (actions : list Action) :
  let sys := run p initialSystem actions in
  (forall id, In id (timers (world sys)) <-> In id (outstanding sys)) /\
  NoDup (outstanding sys) /\
  (forall id, In id (outstanding sys) -> (id < nextTimer (world sys))%nat) /\
  (outstanding sys = [] -> timers (world sys) = []).
Proof.
  intros sys.
  destruct (run_invariant p actions _ initial_invariant)
    as (_ & _ & (Hin & Hlt & Hnd) & _).
  fold sys in Hin, Hlt, Hnd. repeat split; try assumption; try apply Hin.
  intros He. destruct (timers (world sys)) as [|x r] eqn:E; [reflexivity|].
  assert (Hx : In x (outstanding sys)) by (apply Hin; left; reflexivity).
  rewrite He in Hx. contradiction.
Qed.

(** X17. In every reachable state in which the component is mounted, at
    most one configuration request is outstanding, and the configuring
    flag is set exactly when one is. *)
Theorem reachable_one_configuration (p : Props) (actions : list Action) :
  let sys := run p initialSystem actions in
  mountedRef (comp (world sys)) = true ->
  (List.length (configurations sys) <= 1)%nat /\
  (isConfiguring (comp (world sys)) = true <-> configurations sys <> []).
Proof.
  intros sys.
  destruct (run_invariant p actions _ initial_invariant) as (_ & _ & _ & Hone & _).
  exact Hone.
Qed.

Lemma reachable_one_configuration_witness :
  let sys := run sampleProps initialSystem
               [PressScan; ScanSettles 1 (Fulfilled scenario1); PressItem 1;
                PressConnect; PressConnect] in
  configurations sys = [(2%nat, guest)] /\
  isConfiguring (comp (world sys)) = true.
Proof.
  cbv zeta.
  destruct (reachable_one_configuration sampleProps
              [PressScan; ScanSettles 1 (Fulfilled scenario1); PressItem 1;
               PressConnect; PressConnect] eq_refl) as [_ H].
  split; [reflexivity|]. apply H. discriminate.
Defined.

(** What a step adds to the requests: nothing, the scan request, or, on a
    press of the connect button, the configuration request for the
    network selected and the password held when the button is pressed. *)
Lemma step_requests (p : Props) (sys : System) (a : Action) :
  invariant sys ->
  requests (world (step p sys a)) = requests (world sys) \/
  requests (world (step p sys a)) = requests (world sys) ++ [scanRequest] \/
  exists selected,
    a = PressConnect /\
    selectedNetwork (comp (world sys)) = Some selected /\
    hasSsid selected = true /\
    (notOpen selected = true -> wifiPassword (comp (world sys)) <> "") /\
    requests (world (step p sys a)) =
      requests (world sys) ++
      [configureRequest selected (wifiPassword (comp (world sys)))].
Proof.
  intros H. pose proof H as (Hrefs & Hlist & _).
  assert (Hclose : requests (exec handleClose (world sys)) = requests (world sys)).
  { unfold exec. rewrite handleClose_run. log_simpl. reflexivity. }
  destruct a; cbn [step]; unfold ifRendered.
  - (* BecomeVisible *)
    destruct (mountedRef (comp (world sys))); [|left; reflexivity].
    left. unfold visibleEffect. mstep. log_simpl. reflexivity.
  - (* PressScan *)
    destruct (mountedRef (comp (world sys))) eqn:Hm; [|left; reflexivity].
    destruct (pressScanButton_cases p (world sys) Hm) as [E|E]; rewrite E.
    + left. reflexivity.
    + right. left. apply (scanPending_facts _ Hrefs).
  - (* PressItem *)
    left. destruct (mountedRef (comp (world sys))); [|reflexivity].
    unfold pressNetworkItem, exec, bind, get. cbn.
    destruct (nth_error (wifiNetworks (comp (world sys))) index); [|reflexivity].
    destruct (isScanning (comp (world sys))); reflexivity.
  - (* ChangePassword *)
    left. destruct (mountedRef (comp (world sys))); [|reflexivity].
    unfold changePasswordText, exec, bind, get. cbn.
    destruct (passwordSectionShown (comp (world sys))); reflexivity.
  - (* PressEye *)
    left. destruct (mountedRef (comp (world sys))); [|reflexivity].
    unfold pressEyeButton, exec, bind, get. cbn.
    destruct (passwordSectionShown (comp (world sys))); reflexivity.
  - (* PressConnect *)
    destruct (mountedRef (comp (world sys))) eqn:Hm; [|left; reflexivity].
    destruct (pressConnectButton_cases p (world sys))
      as [E | [(a & _ & Ha & E) | (sel & Hsel & Hc & Hpw & E)]]; rewrite E.
    + left. reflexivity.
    + left. unfold requests. cbn. rewrite filter_app. cbn. rewrite Ha.
      apply app_nil_r.
    + right. right. exists sel. split; [reflexivity|]. split; [exact Hsel|].
      split; [apply Hlist, Hsel|]. split; [exact Hpw|].
      apply configurePending_facts.
  - (* PressClose *)
    left. destruct (mountedRef (comp (world sys))); [|reflexivity]. exact Hclose.
  - (* PressOk *)
    left. destruct (mountedRef (comp (world sys))) eqn:Hm; [|reflexivity].
    assert (E : exec connectedOkPressed (world sys) = exec handleClose (world sys)).
    { unfold connectedOkPressed, ifMounted, exec. unfold bind at 1. unfold get.
      cbv beta iota. rewrite Hm. reflexivity. }
    cbn [world]. rewrite E. exact Hclose.
  - (* ScanSettles *)
    left. destruct (existsb (Nat.eqb timeoutId) (scans sys)); [|reflexivity].
    apply scan_resume_cases.
  - (* ConfigureSettles *)
    left.
    destruct (find (fun c => Nat.eqb timeoutId (fst c)) (configurations sys))
      as [[i sel]|]; [|reflexivity].
    apply configure_resume_cases.
  - (* AutoScanTimer *)
    destruct (find (fun c => Nat.eqb timerId (fst c)) (autoScans sys))
      as [[i scanning]|] eqn:E; [|left; reflexivity].
    set (wE := exec (timerExpires timerId) (world sys)).
    set (r := autoScanFires p (scanCallbackOf p scanning) timerId (world sys)).
    assert (Hr : r = (Ok None, wE) \/
                 r = (Ok (Some (nextTimer wE)), scanPending wE)).
    { subst r.
      change (autoScanFires p (scanCallbackOf p scanning) timerId (world sys))
        with (autoScanCallback p (scanCallbackOf p scanning) wE).
      assert (Hcb : autoScanCallback p (scanCallbackOf p scanning) wE =
                    if mountedRef (comp wE) && JS.truthy (deviceIdOf p)
                    then scanCallbackOf p scanning (deviceIdOf p) wE
                    else (Ok None, wE)).
      { unfold autoScanCallback, bind, get. cbv beta iota.
        destruct (mountedRef (comp wE) && JS.truthy (deviceIdOf p)); reflexivity. }
      rewrite Hcb.
      destruct (mountedRef (comp wE)) eqn:Hm; cbn [andb]; [|left; reflexivity].
      destruct (JS.truthy (deviceIdOf p)); [|left; reflexivity].
      apply scanCallbackOf_cases, Hm. }
    destruct Hr as [-> | ->].
    + left. reflexivity.
    + right. left. destruct (scanPending_facts wE Hrefs) as (_ & _ & R & _).
      exact R.
  - (* Unmount *)
    left. cbn [world]. unfold exec at 1. rewrite unmount_run. cbn [snd].
    unfold exec at 1. rewrite cleanupWifiListener_run. log_simpl. reflexivity.
Qed.

(** X18. Every request that the component has issued in a reachable
    state is the scan request, or a POST to the configuration address
    whose body carries an ssid that is not blank. A step from a reachable
    state issues no request, or the scan request, or, on a press of the
    connect button only, the configuration request that carries the ssid
    of the network selected at that moment and the password held at that
    moment: the ssid of that network is not blank, and that password is
    not empty unless the encryption of that network is OPEN. *)
Theorem reachable_requests_wellformed
    (p : Props) (actions : list Action) (a : Action) :
  let sys := run p initialSystem actions in
  let w := world sys in
  let w' := world (step p sys a) in
  Forall
    (fun e =>
       e = scanRequest \/
       exists s password,
         e = Fetch configUrl "POST"
               [("Content-Type", "application/json"); ("Accept", "application/json")]
               (Some (mkConfigData (Some s) password)) /\
         JS.blank s = false)
    (requests w) /\
  (requests w' = requests w \/
   requests w' = requests w ++ [scanRequest] \/
   exists selected,
     a = PressConnect /\
     selectedNetwork (comp w) = Some selected /\
     hasSsid selected = true /\
     (notOpen selected = true -> wifiPassword (comp w) <> "") /\
     requests w' =
       requests w ++ [configureRequest selected (wifiPassword (comp w))]).
Proof.
  intros sys w w'.
  pose proof (run_invariant p actions _ initial_invariant) as H. fold sys in H.
  split; [|apply step_requests, H].
  destruct H as (_ & _ & _ & _ & Hreq & _). fold w in Hreq.
  eapply Forall_impl; [|exact Hreq].
  intros e [->|(sel & pw & -> & Hs & _)]; [left; reflexivity|].
  right. unfold hasSsid in Hs. unfold configureRequest.
  destruct (ssid sel) as [s|]; [|discriminate].
  exists s, pw. split; [reflexivity|].
  apply negb_true_iff, Hs.
Qed.

(** ** The automatic scan *)

(** X19. The timer of the automatic scan is not cleared by the unmount:
    unless the timer ref holds it, it is still pending after the teardown.
    When it expires then, its callback starts no scan, whatever the scan
    callback it holds: the component and the log are as the teardown left
    them. The callback starts no scan either when the device has no
    identifier. *)
Theorem auto_scan_after_teardown
    (p : Props) (scanCallback : option string -> M (option nat)) (w : World) :
  wifiScanTimerRef (comp w) <> Some (nextTimer w) ->
  let torn := exec (visibleEffect true;; unmount) w in
  let fired := autoScanFires p scanCallback (nextTimer w) torn in
  eval (visibleEffect true) w = Ok (Some (nextTimer w)) /\
  In (nextTimer w) (timers torn) /\
  fst fired = Ok None /\
  comp (snd fired) = comp torn /\
  log (snd fired) = log torn /\
  ~ In (nextTimer w) (timers (snd fired)) /\
  (forall u, JS.truthy (deviceIdOf p) = false ->
             autoScanCallback p scanCallback u = (Ok None, u)).
Proof.
  intros Href torn fired.
  assert (Ht : torn =
               exec unmount
                 (mkWorld (comp w) (nextTimer w :: timers w) (S (nextTimer w))
                    (log w ++ [SetTimeout (nextTimer w) AUTO_SCAN_DELAY]))).
  { reflexivity. }
  assert (Hm : mountedRef (comp torn) = false).
  { rewrite Ht. apply unmount_not_mounted. }
  assert (Hf : fired = (Ok None, exec (timerExpires (nextTimer w)) torn)).
  { subst fired. unfold autoScanFires, autoScanCallback.
    unfold bind at 1. unfold timerExpires at 1. cbv beta iota.
    unfold bind at 1. unfold get. cbv beta iota. cbn [comp].
    rewrite Hm. reflexivity. }
  split; [reflexivity|]. split; [|split; [|split; [|split; [|split]]]].
  - rewrite Ht. unfold exec at 1. rewrite unmount_run. cbn [snd].
    unfold exec at 1. rewrite cleanupWifiListener_run. cbn.
    unfold timersReleased. cbn.
    destruct (wifiScanTimerRef (comp w)) as [t|]; [|left; reflexivity].
    destruct (Nat.eq_dec t (nextTimer w)) as [E|_]; [congruence|].
    left. reflexivity.
  - rewrite Hf. reflexivity.
  - rewrite Hf. reflexivity.
  - rewrite Hf. reflexivity.
  - rewrite Hf. cbn. apply remove_In.
  - intros u Hd. unfold autoScanCallback, bind, get. cbn. rewrite Hd.
    rewrite andb_false_r. reflexivity.
Qed.

Lemma auto_scan_after_teardown_witness :
  let torn := exec (visibleEffect true;; unmount) initialWorld in
  let fired :=
    autoScanFires sampleProps (scanWifiNetworksViaHTTP_begin sampleProps) 1 torn in
  In 1%nat (timers torn) /\
  fst fired = Ok None /\
  comp (snd fired) = comp torn /\
  log (snd fired) = log torn.
Proof.
  cbv zeta.
  destruct (auto_scan_after_teardown sampleProps
              (scanWifiNetworksViaHTTP_begin sampleProps) initialWorld)
    as (_ & Hin & Hr & Hc & Hl & _).
  - discriminate.
  - split; [exact Hin|]. split; [exact Hr|]. split; [exact Hc | exact Hl].
Defined.

(** X20. The callback of the automatic scan holds the scan callback of
    the render that set the timer. When a scan is started by the button
    before the timer expires, that callback still reads scanning as false
    and starts a second scan: a second request is issued while the first
    is outstanding. *)
Theorem stale_auto_scan_starts_second_request (p : Props) (w : World) :
  scanReady p (deviceIdOf p) w ->
  let started := exec (visibleEffect true;; pressScanButton p) w in
  let fired :=
    autoScanFires p (scanCallbackOf p (isScanning (comp w))) (nextTimer w) started in
  isScanning (comp started) = true /\
  In (S (nextTimer w)) (timers started) /\
  fst fired = Ok (Some (S (S (nextTimer w)))) /\
  In (S (nextTimer w)) (timers (snd fired)) /\
  In (S (S (nextTimer w))) (timers (snd fired)) /\
  requests (snd fired) = requests w ++ [scanRequest; scanRequest].
Proof.
  intros (Hd & Hu & Hs & Hm) started fired.
  set (opened := mkWorld (comp w) (nextTimer w :: timers w) (S (nextTimer w))
                   (log w ++ [SetTimeout (nextTimer w) AUTO_SCAN_DELAY])).
  assert (Hro : scanReady p (deviceIdOf p) opened) by (repeat split; assumption).
  assert (Hst : started = scanPending opened).
  { subst started. unfold exec. unfold bind at 1.
    change (visibleEffect true w) with (Ok (Some (nextTimer w)), opened).
    cbv beta iota. unfold pressScanButton, bind, get. cbn [comp].
    unfold scanButtonDisabled. change (comp opened) with (comp w).
    rewrite Hs, Hd. cbn [orb negb].
    rewrite (scan_begin_ready _ _ _ Hro). reflexivity. }
  set (expired := exec (timerExpires (nextTimer w)) (scanPending opened)).
  assert (Hre : mountedRef (comp expired) = true) by reflexivity.
  assert (Hf : fired = (Ok (Some (S (S (nextTimer w)))), scanPending expired)).
  { subst fired. rewrite Hst. unfold autoScanFires, autoScanCallback.
    unfold bind at 1. unfold timerExpires at 1. cbv beta iota.
    fold expired.
    change (mkWorld (comp (scanPending opened))
              (remove Nat.eq_dec (nextTimer w) (timers (scanPending opened)))
              (nextTimer (scanPending opened)) (log (scanPending opened)))
      with expired.
    unfold bind at 1. unfold get. cbv beta iota. rewrite Hre, Hd. cbn [andb].
    unfold scanCallbackOf. rewrite Hd, Hu, Hs. cbn [negb orb].
    mstep. rewrite cleanupWifiListener_run. cbn. mstep.
    unfold scanPending, released, scanOptions. cbn.
    rewrite <- !app_assoc. reflexivity. }
  split; [rewrite Hst; reflexivity|]. split; [rewrite Hst; left; reflexivity|].
  rewrite Hf. cbn [fst snd]. split; [reflexivity|].
  assert (Ht : timers (scanPending expired) =
               S (S (nextTimer w)) :: S (nextTimer w) ::
               remove Nat.eq_dec (nextTimer w) (timersReleased opened)).
  { unfold scanPending at 1. cbn [timers]. unfold timersReleased at 1.
    cbn. destruct (Nat.eq_dec (nextTimer w) (S (nextTimer w))) as [N|_]; [lia|].
    reflexivity. }
  rewrite Ht. split; [right; left; reflexivity|]. split; [left; reflexivity|].
  unfold scanPending, expired, exec, timerExpires. cbn. log_simpl.
  reflexivity.
Qed.

Lemma stale_auto_scan_starts_second_request_witness :
  let started := exec (visibleEffect true;; pressScanButton sampleProps) initialWorld in
  let fired := autoScanFires sampleProps (scanCallbackOf sampleProps false) 1 started in
  fst fired = Ok (Some 3%nat) /\
  timers (snd fired) = [3%nat; 2%nat] /\
  requests (snd fired) = [scanRequest; scanRequest].
Proof.
  cbv zeta.
  destruct (stale_auto_scan_starts_second_request sampleProps initialWorld)
    as (_ & _ & Hf & _ & _ & Hr).
  - repeat split; reflexivity.
  - split; [exact Hf|]. split; [reflexivity | exact Hr].
Defined.
